(** * ai-code-review-cli: the diff-to-finding pipeline

    A shallow embedding of [src/git-analyzer.ts], [src/ai-reviewer.ts] and the
    [review] command of the command-line entry point ([src/cli.ts] by
    [package.json]; its text is the second part of [src/test.js]), together
    with the properties of the pipeline stated in the specification.

    Conventions of the embedding.
    - A JavaScript string is the list of its UTF-16 code units ([js_string]);
      every index, length and slice of the source counts code units, and so
      does the model.
    - A value that TypeScript types as [any] at run time (an HTTP payload, the
      result of [JSON.parse]) is a [value].
    - [try]/[catch] is the error monad [Exc]; code that calls the model
      service runs in [IO], which also records every generation request.
    - What the JavaScript engine decides and the sources do not (the text of a
      [SyntaxError] or [TypeError], the printing of a fractional number, the
      regular-expression matcher behind [new RegExp(p).test(s)]) is a field of
      [Engine], and every statement holds for every engine. *)

From Stdlib Require Import String Ascii DecimalString.
From Stdlib Require Import List ZArith NArith Lia Bool Permutation Sorted.
Import ListNotations.

(* ------------------------------------------------------------------------- *)
(** * JavaScript strings *)
(* ------------------------------------------------------------------------- *)

Module JsString.

Definition js_string := list N.

(** An ASCII literal of the source, as code units. *)
Fixpoint lit (s : string) : js_string :=
  match s with
  | EmptyString => []
  | String c r => N_of_ascii c :: lit r
  end.

(** The same with every apostrophe standing for a double quote (code unit 34),
    to write JSON texts down. *)
Definition dq (s : string) : js_string :=
  map (fun c => if N.eqb c 39 then 34%N else c) (lit s).

Definition ch (c : ascii) : N := N_of_ascii c.

(** [a === b] on strings. *)
Fixpoint str_eqb (a b : js_string) : bool :=
  match a, b with
  | [], [] => true
  | x :: a', y :: b' => N.eqb x y && str_eqb a' b'
  | _, _ => false
  end.

(** [s.startsWith(p)] *)
Fixpoint startsWith (s p : js_string) : bool :=
  match p, s with
  | [], _ => true
  | _ :: _, [] => false
  | a :: p', b :: s' => N.eqb a b && startsWith s' p'
  end.

(** [s.indexOf(p)]: the first index at which [p] occurs, if any. *)
Fixpoint indexOf (s p : js_string) : option nat :=
  if startsWith s p then Some 0
  else match s with
       | [] => None
       | _ :: s' => option_map S (indexOf s' p)
       end.

(** [s.includes(p)] *)
Definition includes (s p : js_string) : bool :=
  match indexOf s p with Some _ => true | None => false end.

(** [s.lastIndexOf(c)] for a one-character [c]; [-1] when absent. *)
Fixpoint lastIndexOf_from (i : Z) (s : js_string) (c : N) (found : Z) : Z :=
  match s with
  | [] => found
  | x :: s' => lastIndexOf_from (i + 1) s' c (if N.eqb x c then i else found)
  end.

Definition lastIndexOf (s : js_string) (c : N) : Z := lastIndexOf_from 0 s c (-1).

(** [s.slice(a)] and [s.slice(a, b)] for indices that are not negative. *)
Definition slice_from (s : js_string) (a : nat) : js_string := skipn a s.
Definition slice (s : js_string) (a b : nat) : js_string := skipn a (firstn b s).

(** [s.split(c)] for a one-character separator. *)
Fixpoint split (s : js_string) (c : N) : list js_string :=
  match s with
  | [] => [[]]
  | x :: s' =>
      if N.eqb x c then [] :: split s' c
      else match split s' c with
           | [] => [[x]]
           | l :: ls => (x :: l) :: ls
           end
  end.

(** [l.join(sep)] on strings. *)
Fixpoint join (l : list js_string) (sep : js_string) : js_string :=
  match l with
  | [] => []
  | [a] => a
  | a :: l' => a ++ sep ++ join l' sep
  end.

(** White space and line terminators: what [trim] removes and what [\s]
    matches. *)
Definition is_ws (c : N) : bool :=
  existsb (N.eqb c)
    [9; 10; 11; 12; 13; 32; 160; 5760; 8232; 8233; 8239; 8287; 12288; 65279]%N
  || (N.leb 8192 c && N.leb c 8202).

Fixpoint trimStart (s : js_string) : js_string :=
  match s with
  | [] => []
  | c :: s' => if is_ws c then trimStart s' else s
  end.

Definition trimEnd (s : js_string) : js_string := rev (trimStart (rev s)).

(** [s.trim()] *)
Definition trim (s : js_string) : js_string := trimEnd (trimStart s).

(** Template interpolation of an integral number (below [10^21], where the
    decimal digits are written out). *)
Definition of_Z (z : Z) : js_string := lit (NilZero.string_of_int (Z.to_int z)).

End JsString.
Export JsString.

(* ------------------------------------------------------------------------- *)
(** * Run-time values, exceptions and the engine *)
(* ------------------------------------------------------------------------- *)

(** A number read from JSON, kept as the decimal it was written as:
    [(-1)^d_neg * d_mant * 10^d_exp].  Of the rounding to a double only what
    the sources can see is modelled: whether the number is zero
    ([decimal_is_zero]). *)
Record decimal := { d_neg : bool; d_mant : N; d_exp : Z }.

Unset Elimination Schemes.
Inductive value :=
| VUndefined
| VNull
| VBool (b : bool)
| VNum (d : decimal)
| VStr (s : js_string)
| VArr (items : list value)
| VObj (members : list (js_string * value)).
Set Elimination Schemes.

Inductive ErrorClass := SyntaxError | TypeError | PlainError | AxiosError.

(** A thrown error object: its class, its [code] (axios sets one) and its
    [message]. *)
Record Exn := { exn_class : ErrorClass; exn_code : option js_string; exn_message : js_string }.

Inductive Exc (A : Type) :=
| Ok (a : A)
| Throw (e : Exn).
Arguments Ok {A} a.
Arguments Throw {A} e.

Definition bindE {A B} (m : Exc A) (k : A -> Exc B) : Exc B :=
  match m with Ok a => k a | Throw e => Throw e end.

(** [try { body } catch (e) { handler e }] *)
Definition try_catch {A} (body : Exc A) (handler : Exn -> Exc A) : Exc A :=
  match body with Ok a => Ok a | Throw e => handler e end.

Declare Scope exc_scope.
Delimit Scope exc_scope with exc.
Notation "x <- m ;; k" := (bindE m (fun x => k))
  (at level 61, m at next level, right associativity) : exc_scope.

(** Where the engine raises a [TypeError] in the code modelled here. *)
Inductive TypeErrorSite :=
| ReadOfNullish (key : js_string)      (* [x.key] with [x] null or undefined *)
| NotAFunction (key : js_string)       (* [x.key(...)] with [x.key] not callable *)
| NoPrimitive.                         (* an object with no usable [toString] *)

Record Engine := {
  (** the message of the [SyntaxError] that [JSON.parse] throws on a text *)
  json_error_message : js_string -> js_string;
  (** the message of a [TypeError] *)
  type_error_message : TypeErrorSite -> js_string;
  (** [String(n)] for a number read from JSON *)
  number_to_string : decimal -> js_string;
  (** [new RegExp(pattern).test(s)]; an invalid pattern throws *)
  regexp_test : js_string -> js_string -> Exc bool
}.

Definition type_error (eng : Engine) (site : TypeErrorSite) : Exn :=
  {| exn_class := TypeError; exn_code := None;
     exn_message := type_error_message eng site |}.

(** [new Error(msg)] *)
Definition new_Error (msg : js_string) : Exn :=
  {| exn_class := PlainError; exn_code := None; exn_message := msg |}.

(* ------------------------------------------------------------------------- *)
(** * [JSON.parse] *)
(* ------------------------------------------------------------------------- *)

(** The grammar of ECMA-404 as [JSON.parse] accepts it: a lexer that reads one
    code unit at a time, and a parser over its tokens with an explicit stack
    of open arrays and objects.  Both are structural, so [JSON_parse] is total
    without fuel. *)
Module Json.

Inductive token :=
| TLBrace | TRBrace | TLBrack | TRBrack | TColon | TComma
| TString (s : js_string)
| TNumber (d : decimal)
| TTrue | TFalse | TNull.

Definition is_digit (c : N) : bool := N.leb 48 c && N.leb c 57.

Definition hex_digit (c : N) : option N :=
  if is_digit c then Some (c - 48)%N
  else if N.leb 97 c && N.leb c 102 then Some (c - 87)%N
  else if N.leb 65 c && N.leb c 70 then Some (c - 55)%N
  else None.

(** White space between tokens: tab, line feed, carriage return, space. *)
Definition is_json_ws (c : N) : bool :=
  existsb (N.eqb c) [9; 10; 13; 32]%N.

Definition is_number_char (c : N) : bool :=
  is_digit c || existsb (N.eqb c) [43; 45; 46; 69; 101]%N.

Fixpoint span_digits (s : js_string) : js_string * js_string :=
  match s with
  | c :: s' =>
      if is_digit c then let '(d, r) := span_digits s' in (c :: d, r)
      else ([], s)
  | [] => ([], [])
  end.

Definition digits_value (ds : js_string) : N :=
  fold_left (fun acc c => (acc * 10 + (c - 48))%N) ds 0%N.

(** A number: an optional minus sign; an integer part, which is 0 or starts
    with a digit other than 0; an optional fraction (a point and at least one
    digit); an optional exponent (e or E, an optional sign, at least one
    digit). *)
Definition parse_number (s : js_string) : option decimal :=
  let '(neg, s1) :=
    match s with
    | c :: r => if N.eqb c 45 then (true, r) else (false, s)
    | [] => (false, s)
    end in
  let '(ip, s2) := span_digits s1 in
  let int_ok :=
    match ip with
    | [] => false
    | [_] => true
    | c :: _ => negb (N.eqb c 48)
    end in
  if negb int_ok then None else
  let frac :=
    match s2 with
    | c :: r =>
        if N.eqb c 46 then
          let '(fp, s3) := span_digits r in
          match fp with [] => None | _ => Some (fp, s3) end
        else Some ([], s2)
    | [] => Some ([], s2)
    end in
  match frac with
  | None => None
  | Some (fp, s3) =>
      let mant := digits_value (ip ++ fp) in
      let scale := Z.of_nat (length fp) in
      match s3 with
      | [] => Some {| d_neg := neg; d_mant := mant; d_exp := - scale |}
      | c :: r =>
          if N.eqb c 101 || N.eqb c 69 then
            let '(eneg, r1) :=
              match r with
              | x :: r' =>
                  if N.eqb x 45 then (true, r')
                  else if N.eqb x 43 then (false, r')
                  else (false, r)
              | [] => (false, r)
              end in
            let '(ep, r2) := span_digits r1 in
            match ep, r2 with
            | _ :: _, [] =>
                let e := Z.of_N (digits_value ep) in
                Some {| d_neg := neg; d_mant := mant;
                        d_exp := (if eneg then - e else e) - scale |}
            | _, _ => None
            end
          else None
      end
  end.

Inductive lex_mode :=
| LStart
| LStr (acc : js_string)                       (* inside a string, reversed *)
| LEsc (acc : js_string)                       (* after a backslash *)
| LUni (acc : js_string) (n : nat) (code : N)  (* [n] hex digits still to read *)
| LNum (acc : js_string)                       (* inside a number, reversed *)
| LLit (rest : js_string) (t : token).         (* inside true, false or null *)

Definition lex_state := (lex_mode * list token)%type.

(** A code unit met between tokens. *)
Definition lex_start (c : N) (toks : list token) : option lex_state :=
  if is_json_ws c then Some (LStart, toks)
  else if N.eqb c 123 then Some (LStart, TLBrace :: toks)
  else if N.eqb c 125 then Some (LStart, TRBrace :: toks)
  else if N.eqb c 91 then Some (LStart, TLBrack :: toks)
  else if N.eqb c 93 then Some (LStart, TRBrack :: toks)
  else if N.eqb c 58 then Some (LStart, TColon :: toks)
  else if N.eqb c 44 then Some (LStart, TComma :: toks)
  else if N.eqb c 34 then Some (LStr [], toks)
  else if N.eqb c 45 || is_digit c then Some (LNum [c], toks)
  else if N.eqb c 116 then Some (LLit (lit "rue") TTrue, toks)
  else if N.eqb c 102 then Some (LLit (lit "alse") TFalse, toks)
  else if N.eqb c 110 then Some (LLit (lit "ull") TNull, toks)
  else None.

Definition escape_char (c : N) : option N :=
  if N.eqb c 34 then Some 34%N          (* double quote *)
  else if N.eqb c 92 then Some 92%N     (* backslash *)
  else if N.eqb c 47 then Some 47%N     (* slash *)
  else if N.eqb c 98 then Some 8%N      (* b: backspace *)
  else if N.eqb c 102 then Some 12%N    (* f: form feed *)
  else if N.eqb c 110 then Some 10%N    (* n: line feed *)
  else if N.eqb c 114 then Some 13%N    (* r: carriage return *)
  else if N.eqb c 116 then Some 9%N     (* t: tab *)
  else None.

Definition lex_step (st : lex_state) (c : N) : option lex_state :=
  let '(mode, toks) := st in
  match mode with
  | LStart => lex_start c toks
  | LStr acc =>
      if N.eqb c 34 then Some (LStart, TString (rev acc) :: toks)
      else if N.eqb c 92 then Some (LEsc acc, toks)
      else if N.ltb c 32 then None
      else Some (LStr (c :: acc), toks)
  | LEsc acc =>
      if N.eqb c 117 then Some (LUni acc 4 0%N, toks)
      else match escape_char c with
           | Some x => Some (LStr (x :: acc), toks)
           | None => None
           end
  | LUni acc n code =>
      match hex_digit c with
      | None => None
      | Some h =>
          let code' := (code * 16 + h)%N in
          match n with
          | 1%nat => Some (LStr (code' :: acc), toks)
          | _ => Some (LUni acc (pred n) code', toks)
          end
      end
  | LNum acc =>
      if is_number_char c then Some (LNum (c :: acc), toks)
      else match parse_number (rev acc) with
           | Some d => lex_start c (TNumber d :: toks)
           | None => None
           end
  | LLit rest t =>
      match rest with
      | x :: rest' =>
          if N.eqb x c then
            match rest' with
            | [] => Some (LStart, t :: toks)
            | _ => Some (LLit rest' t, toks)
            end
          else None
      | [] => None
      end
  end.

Fixpoint lex_run (st : lex_state) (s : js_string) : option lex_state :=
  match s with
  | [] => Some st
  | c :: s' =>
      match lex_step st c with
      | Some st' => lex_run st' s'
      | None => None
      end
  end.

(** The tokens of a text, or [None] when it is not a sequence of JSON tokens;
    a string, escape or literal still open at the end of the text is one such
    case. *)
Definition lex (s : js_string) : option (list token) :=
  match lex_run (LStart, []) s with
  | Some (LStart, toks) => Some (rev toks)
  | Some (LNum acc, toks) =>
      match parse_number (rev acc) with
      | Some d => Some (rev (TNumber d :: toks))
      | None => None
      end
  | _ => None
  end.

Inductive frame :=
| FArr (items : list value)                                   (* reversed *)
| FObj (members : list (js_string * value)) (key : option js_string).

Inductive expect :=
| PValue        (* a value *)
| PArrFirst     (* a value or the end of the array *)
| PObjFirst     (* a member name or the end of the object *)
| PObjKey       (* a member name *)
| PColon        (* the colon after a member name *)
| PAfter        (* a comma or the end of the open array or object *)
| PDone (v : value).

Definition parse_state := (expect * list frame)%type.

(** A value is complete: it is the whole document, the next item of the open
    array, or the value of the pending member of the open object. *)
Definition complete (v : value) (stack : list frame) : option parse_state :=
  match stack with
  | [] => Some (PDone v, [])
  | FArr items :: st => Some (PAfter, FArr (v :: items) :: st)
  | FObj ms (Some k) :: st => Some (PAfter, FObj ((k, v) :: ms) None :: st)
  | FObj _ None :: _ => None
  end.

Definition start_value (t : token) (stack : list frame) : option parse_state :=
  match t with
  | TString s => complete (VStr s) stack
  | TNumber d => complete (VNum d) stack
  | TTrue => complete (VBool true) stack
  | TFalse => complete (VBool false) stack
  | TNull => complete VNull stack
  | TLBrack => Some (PArrFirst, FArr [] :: stack)
  | TLBrace => Some (PObjFirst, FObj [] None :: stack)
  | _ => None
  end.

Definition parse_step (st : parse_state) (t : token) : option parse_state :=
  let '(e, stack) := st in
  match e, t, stack with
  | PValue, _, _ => start_value t stack
  | PArrFirst, TRBrack, FArr items :: st' => complete (VArr (rev items)) st'
  | PArrFirst, _, _ => start_value t stack
  | (PObjFirst | PObjKey), TString k, FObj ms None :: st' =>
      Some (PColon, FObj ms (Some k) :: st')
  | PObjFirst, TRBrace, FObj ms None :: st' => complete (VObj (rev ms)) st'
  | PColon, TColon, _ => Some (PValue, stack)
  | PAfter, TComma, FArr _ :: _ => Some (PValue, stack)
  | PAfter, TRBrack, FArr items :: st' => complete (VArr (rev items)) st'
  | PAfter, TComma, FObj _ None :: _ => Some (PObjKey, stack)
  | PAfter, TRBrace, FObj ms None :: st' => complete (VObj (rev ms)) st'
  | _, _, _ => None
  end.

Fixpoint parse_run (st : parse_state) (ts : list token) : option parse_state :=
  match ts with
  | [] => Some st
  | t :: ts' =>
      match parse_step st t with
      | Some st' => parse_run st' ts'
      | None => None
      end
  end.

(** The value a JSON text denotes, if it is one.  An object keeps its members
    in the order of the text, duplicates included; a later member of the same
    name is the one a lookup finds ([get_own]). *)
Definition parse (s : js_string) : option value :=
  match lex s with
  | None => None
  | Some ts =>
      match parse_run (PValue, []) ts with
      | Some (PDone v, []) => Some v
      | _ => None
      end
  end.

End Json.

(** [JSON.parse(text)] *)
Definition JSON_parse (eng : Engine) (text : js_string) : Exc value :=
  match Json.parse text with
  | Some v => Ok v
  | None => Throw {| exn_class := SyntaxError; exn_code := None;
                     exn_message := json_error_message eng text |}
  end.


(* ------------------------------------------------------------------------- *)
(** * Operations on run-time values *)
(* ------------------------------------------------------------------------- *)

(** Whether the double nearest to the decimal is zero: the mantissa is zero, or
    the number is at most [2^-1075], half of the least positive double. *)
Definition decimal_is_zero (d : decimal) : bool :=
  N.eqb (d_mant d) 0
  || (Z.ltb (d_exp d) 0
      && Z.leb (Z.of_N (d_mant d) * 2 ^ 1075) (10 ^ (- d_exp d)))%Z.

(** [Boolean(v)], the test behind [!v], [v || w] and [v ? a : b]. *)
Definition truthy (v : value) : bool :=
  match v with
  | VUndefined | VNull => false
  | VBool b => b
  | VNum d => negb (decimal_is_zero d)
  | VStr s => match s with [] => false | _ => true end
  | VArr _ | VObj _ => true
  end.

(** The own property of that name: the last member of that name. *)
Fixpoint get_own (ms : list (js_string * value)) (k : js_string) : option value :=
  match ms with
  | [] => None
  | (k', v) :: r =>
      match get_own r k with
      | Some x => Some x
      | None => if str_eqb k' k then Some v else None
      end
  end.

(** [v.k] for a property name [k] that no built-in prototype defines (all the
    names the sources read are such: reviews, severity, line, message,
    suggestion, category, models, name, response). *)
Definition get_prop (eng : Engine) (v : value) (k : js_string) : Exc value :=
  match v with
  | VUndefined | VNull => Throw (type_error eng (ReadOfNullish k))
  | VObj ms => Ok (match get_own ms k with Some x => x | None => VUndefined end)
  | _ => Ok VUndefined
  end.

(** [Array.isArray(v)] *)
Definition isArray (v : value) : bool :=
  match v with VArr _ => true | _ => false end.

Fixpoint mapM {A B} (f : A -> Exc B) (l : list A) : Exc (list B) :=
  match l with
  | [] => Ok []
  | a :: l' =>
      match f a with
      | Throw e => Throw e
      | Ok b => match mapM f l' with
                | Throw e => Throw e
                | Ok bs => Ok (b :: bs)
                end
      end
  end.

(** [l.some(f)]: stops at the first element that satisfies [f]. *)
Fixpoint someM {A} (f : A -> Exc bool) (l : list A) : Exc bool :=
  match l with
  | [] => Ok false
  | a :: l' =>
      match f a with
      | Throw e => Throw e
      | Ok true => Ok true
      | Ok false => someM f l'
      end
  end.

(** [String(v)], as a template or [join] converts a value. *)
Fixpoint to_string (eng : Engine) (v : value) : Exc js_string :=
  match v with
  | VUndefined => Ok (lit "undefined")
  | VNull => Ok (lit "null")
  | VBool b => Ok (if b then lit "true" else lit "false")
  | VNum d => Ok (number_to_string eng d)
  | VStr s => Ok s
  | VArr items =>
      (fix go (l : list value) : Exc js_string :=
         let elem x :=
           match x with
           | VUndefined | VNull => Ok []
           | _ => to_string eng x
           end in
         match l with
         | [] => Ok []
         | [x] => elem x
         | x :: r =>
             match elem x with
             | Throw e => Throw e
             | Ok a => match go r with
                       | Throw e => Throw e
                       | Ok b => Ok (a ++ lit "," ++ b)
                       end
             end
         end) items
  | VObj ms =>
      match get_own ms (lit "toString") with
      | Some _ => Throw (type_error eng NoPrimitive)
      | None => Ok (lit "[object Object]")
      end
  end.

(** [items.join(sep)] on values. *)
Definition join_values (eng : Engine) (items : list value) (sep : js_string)
  : Exc js_string :=
  match mapM (fun x => match x with
                       | VUndefined | VNull => Ok []
                       | _ => to_string eng x
                       end) items with
  | Throw e => Throw e
  | Ok parts => Ok (join parts sep)
  end.

(** [a || d] on an optional number: [undefined] and [0] give [d]. *)
Definition or_default (a : option Z) (d : Z) : Z :=
  match a with
  | Some z => if Z.eqb z 0 then d else z
  | None => d
  end.

(* ------------------------------------------------------------------------- *)
(** * [src/types.ts] *)
(* ------------------------------------------------------------------------- *)

Record ReviewConfig := {
  modelUrl : js_string;
  modelName : js_string;
  maxTokens : Z;
  temperature : decimal;
  includePatterns : list js_string;
  excludePatterns : list js_string;
  reviewPrompt : js_string;
  maxFileSize : option Z;     (* bytes *)
  timeout : option Z          (* milliseconds *)
}.

Record GitDiff := {
  diff_file : js_string;
  diff_additions : Z;
  diff_deletions : Z;
  diff_changes : js_string;
  diff_isNew : bool;
  diff_isDeleted : bool;
  diff_isBinary : bool;
  diff_fileSize : option Z
}.

Inductive Severity := SevInfo | SevWarning | SevError.

(** A field the source leaves out, or sets from a property the reply does not
    have, is [VUndefined]. *)
Record ReviewResult := {
  res_file : js_string;
  res_severity : Severity;
  res_line : value;
  res_message : value;
  res_suggestion : value;
  res_category : value
}.

Record HealthCheck := {
  isHealthy : bool;
  error : option js_string
}.

(* ------------------------------------------------------------------------- *)
(** * The model service *)
(* ------------------------------------------------------------------------- *)

(** The body and options of [axios.post(url, body, options)] as
    [reviewSingleFile] builds them. *)
Record GenerateRequest := {
  req_url : js_string;
  req_model : js_string;
  req_prompt : js_string;
  req_stream : bool;
  req_temperature : decimal;
  req_num_predict : Z;
  req_stop : list js_string;
  req_timeout : Z
}.

(** The service: given the requests answered so far and a new one, either the
    payload of the reply ([response.data]) or the error axios rejects with. *)
Definition Service := list GenerateRequest -> GenerateRequest -> Exc value.

(** Code that may call the service: from the requests issued so far to an
    outcome and the requests issued by then. *)
Definition IO (A : Type) := list GenerateRequest -> Exc A * list GenerateRequest.

Definition io_ret {A} (a : A) : IO A := fun log => (Ok a, log).
Definition io_throw {A} (e : Exn) : IO A := fun log => (Throw e, log).
Definition io_lift {A} (m : Exc A) : IO A := fun log => (m, log).

Definition io_bind {A B} (m : IO A) (k : A -> IO B) : IO B :=
  fun log =>
    match m log with
    | (Ok a, log') => k a log'
    | (Throw e, log') => (Throw e, log')
    end.

Definition io_try {A} (body : IO A) (handler : Exn -> IO A) : IO A :=
  fun log =>
    match body log with
    | (Ok a, log') => (Ok a, log')
    | (Throw e, log') => handler e log'
    end.

Definition axios_post (svc : Service) (req : GenerateRequest) : IO value :=
  fun log => (svc log req, log ++ [req]).

Declare Scope io_scope.
Delimit Scope io_scope with io.
Notation "x <- m ;; k" := (io_bind m (fun x => k))
  (at level 61, m at next level, right associativity) : io_scope.

(** The model-listing endpoint: the outcome of
    [axios.get(url, { timeout })]. *)
Definition TagsService := js_string -> Z -> Exc value.

(* ------------------------------------------------------------------------- *)
(** * [src/ai-reviewer.ts] *)
(* ------------------------------------------------------------------------- *)

Module AIReviewer.

Section WithEngine.

Variable eng : Engine.
Variable config : ReviewConfig.

(** [model.name.includes(base)]: a string method on a string, an array method
    on an array, a [TypeError] on anything else. *)
Definition name_includes (name : value) (base : js_string) : Exc bool :=
  match name with
  | VStr s => Ok (includes s base)
  | VArr items =>
      Ok (existsb (fun x => match x with
                            | VStr s => str_eqb s base
                            | _ => false
                            end) items)
  | VUndefined | VNull => Throw (type_error eng (ReadOfNullish (lit "includes")))
  | _ => Throw (type_error eng (NotAFunction (lit "includes")))
  end.

(** The part of the configured model identifier before the first colon. *)
Definition base_name : js_string := hd [] (split (modelName config) (ch ":")).

Definition checkHealth_body (tags : TagsService) : Exc HealthCheck :=
  (data <- tags (modelUrl config ++ lit "/api/tags") (or_default (timeout config) 5000) ;;
   m <- get_prop eng data (lit "models") ;;
   let models := if truthy m then m else VArr [] in
   match models with
   | VArr items =>
       hasModel <- someM (fun model =>
                            name <- get_prop eng model (lit "name") ;;
                            name_includes name base_name) items ;;
       if negb hasModel then
         names <- mapM (fun m => get_prop eng m (lit "name")) items ;;
         listed <- join_values eng names (lit ", ") ;;
         Ok {| isHealthy := false;
               error := Some (lit "Model " ++ modelName config
                              ++ lit " not found. Available models: " ++ listed) |}
       else Ok {| isHealthy := true; error := None |}
   | _ => Throw (type_error eng (NotAFunction (lit "some")))
   end)%exc.

Definition checkHealth (tags : TagsService) : Exc HealthCheck :=
  try_catch (checkHealth_body tags)
    (fun e => Ok {| isHealthy := false;
                    error := Some (lit "Ollama server unavailable: " ++ exn_message e) |}).

(** [new RegExp(p).test(file)] over a pattern list, as [some] runs it. *)
Definition shouldSkipFile (diff : GitDiff) : Exc bool :=
  (excluded <- someM (fun p => regexp_test eng p (diff_file diff)) (excludePatterns config) ;;
   if excluded then Ok true
   else match includePatterns config with
        | [] => Ok false
        | _ => included <- someM (fun p => regexp_test eng p (diff_file diff))
                             (includePatterns config) ;;
               Ok (negb included)
        end)%exc.

(** [config.maxFileSize && diff.fileSize && diff.fileSize > config.maxFileSize] *)
Definition tooLarge (diff : GitDiff) : bool :=
  match maxFileSize config, diff_fileSize diff with
  | Some limit, Some size =>
      negb (Z.eqb limit 0) && negb (Z.eqb size 0) && Z.gtb size limit
  | _, _ => false
  end.

Definition fileInfo (diff : GitDiff) : js_string :=
  join (filter (fun s => match s with [] => false | _ => true end)
          [ lit "File: " ++ diff_file diff;
            if diff_isNew diff then [55356; 56725]%N ++ lit " NEW FILE" else [];
            if diff_isDeleted diff
            then [55357; 56785; 65039]%N ++ lit " DELETED FILE" else [];
            [55357; 56522]%N ++ lit " Changes: +" ++ of_Z (diff_additions diff)
              ++ lit " -" ++ of_Z (diff_deletions diff) ])
       [10%N].

(** The diff body is cut at 10000 code units. *)
Definition prompt_limit : nat := Z.to_nat 10000.

Definition buildPrompt (diff : GitDiff) : js_string :=
  reviewPrompt config ++ lit "

" ++ fileInfo diff ++ lit "

Changes:
```diff
" ++ slice (diff_changes diff) 0 prompt_limit ++ lit " "
  ++ (if Nat.ltb prompt_limit (length (diff_changes diff))
      then lit "
... (file truncated)" else [])
  ++ dq "
```

IMPORTANT: Reply ONLY with valid JSON. No additional text before or after. Format:
{
  'reviews': [
    {
      'severity': 'error',
      'line': 123,
      'message': 'Short problem description',
      'suggestion': 'How to fix it',
      'category': 'bugs'
    }
  ]
}

If no issues found, return: {'reviews':[]}
Keep messages short and avoid special characters in strings.".

(** [text.match(/```json\s*([\s\S]*?)\s*```/)] with [opener] the fence that
    opens the block (with or without the label): the capture runs from the
    first code unit that is not white space after the first opener to the
    next fence, less the white space before that fence. *)
Definition match_fence (opener : js_string) (text : js_string) : option js_string :=
  match indexOf text opener with
  | None => None
  | Some i =>
      let rest := trimStart (skipn (i + length opener) text) in
      match indexOf rest (lit "```") with
      | None => None
      | Some k => Some (trimEnd (firstn k rest))
      end
  end.

(** [text.match(/\{[\s\S]*\}/)]: from the first opening brace to the last
    closing brace after it. *)
Definition match_braces (text : js_string) : option js_string :=
  match indexOf text (lit "{") with
  | None => None
  | Some i =>
      let j := lastIndexOf text (ch "}") in
      if Z.ltb (Z.of_nat i) j then Some (slice text i (Z.to_nat (j + 1)))
      else None
  end.

Definition extractJSON (response : js_string) : js_string :=
  let jsonText := trim response in
  let jsonText :=
    if includes jsonText (lit "```json") then
      match match_fence (lit "```json") jsonText with
      | Some m => m
      | None => jsonText
      end
    else if includes jsonText (lit "```") then
      match match_fence (lit "```") jsonText with
      | Some m => m
      | None => jsonText
      end
    else jsonText in
  let jsonText :=
    if negb (startsWith jsonText (lit "{")) then
      match match_braces jsonText with
      | Some m => m
      | None => jsonText
      end
    else jsonText in
  trim jsonText.

Definition is_closer (c : N) : bool := N.eqb c (ch "}") || N.eqb c (ch "]").

(** The loop of [truncateToValidJSON], [n] being [i + 1]. *)
Fixpoint truncate_loop (jsonText : js_string) (n : nat) : js_string :=
  match n with
  | O => dq "{'reviews':[]}"
  | S i =>
      if match nth_error jsonText i with Some c => is_closer c | None => false end
      then
        let candidate := slice jsonText 0 (i + 1) in
        match JSON_parse eng candidate with
        | Ok _ => candidate
        | Throw _ => truncate_loop jsonText i
        end
      else truncate_loop jsonText i
  end.

Definition truncateToValidJSON (jsonText : js_string) : js_string :=
  truncate_loop jsonText (length jsonText).

(** [error instanceof SyntaxError] *)
Definition is_SyntaxError (e : Exn) : bool :=
  match exn_class e with SyntaxError => true | _ => false end.

Definition fixIncompleteJSON (jsonText : js_string) : js_string :=
  match JSON_parse eng jsonText with
  | Ok _ => jsonText
  | Throw err =>
      if is_SyntaxError err
         && includes (exn_message err) (lit "Unterminated string")
      then
        let lastQuoteIndex := lastIndexOf jsonText 34 in
        let afterLastQuote := slice_from jsonText (Z.to_nat (lastQuoteIndex + 1)) in
        if (match afterLastQuote with [] => false | _ => true end)
           && negb (includes afterLastQuote [34%N])
           && (includes afterLastQuote (lit "}") || includes afterLastQuote (lit "]"))
        then
          let fixedJson :=
            slice jsonText 0 (Z.to_nat (lastQuoteIndex + 1))
              ++ [34%N] ++ afterLastQuote in
          match JSON_parse eng fixedJson with
          | Ok _ => fixedJson
          | Throw _ => truncateToValidJSON jsonText
          end
        else truncateToValidJSON jsonText
      else truncateToValidJSON jsonText
  end.

Definition validateSeverity (severity : value) : Severity :=
  match severity with
  | VStr s =>
      if str_eqb s (lit "error") then SevError
      else if str_eqb s (lit "warning") then SevWarning
      else SevInfo
  | _ => SevInfo
  end.

(** The receiver of [response.trim()]: the reply's [response] property is
    typed as a string and may hold anything; only a string has [trim]. *)
Definition string_receiver (response : value) : Exc js_string :=
  match response with
  | VStr s => Ok s
  | VUndefined | VNull => Throw (type_error eng (ReadOfNullish (lit "trim")))
  | _ => Throw (type_error eng (NotAFunction (lit "trim")))
  end.

Definition parseAIResponse_body (file : js_string) (response : value)
  : Exc (list ReviewResult) :=
  (text <- string_receiver response ;;
   let jsonText := extractJSON text in
   let jsonText := fixIncompleteJSON jsonText in
   parsed <- JSON_parse eng jsonText ;;
   reviews <- get_prop eng parsed (lit "reviews") ;;
   if negb (truthy reviews) || negb (isArray reviews)
   then Throw (new_Error (lit "Invalid AI response format"))
   else
   match reviews with
   | VArr items =>
       mapM (fun review =>
               severity <- get_prop eng review (lit "severity") ;;
               line <- get_prop eng review (lit "line") ;;
               message <- get_prop eng review (lit "message") ;;
               suggestion <- get_prop eng review (lit "suggestion") ;;
               category <- get_prop eng review (lit "category") ;;
               Ok {| res_file := file;
                     res_severity := validateSeverity severity;
                     res_line := line;
                     res_message := if truthy message then message
                                    else VStr (lit "No description");
                     res_suggestion := suggestion;
                     res_category := category |}) items
   | _ => Throw (type_error eng (NotAFunction (lit "map")))
   end)%exc.

Definition malformed (file : js_string) : ReviewResult :=
  {| res_file := file;
     res_severity := SevInfo;
     res_line := VUndefined;
     res_message := VStr (lit "AI analysis failed - model response was malformed");
     res_suggestion := VUndefined;
     res_category := VStr (lit "general") |}.

Definition parseAIResponse (file : js_string) (response : value)
  : Exc (list ReviewResult) :=
  try_catch (parseAIResponse_body file response) (fun _ => Ok [malformed file]).

Definition tooLarge_result (diff : GitDiff) : ReviewResult :=
  {| res_file := diff_file diff;
     res_severity := SevWarning;
     res_line := VUndefined;
     res_message :=
       VStr (lit "File too large for analysis ("
             ++ match diff_fileSize diff with Some n => of_Z n | None => lit "undefined" end
             ++ lit " bytes, limit: "
             ++ match maxFileSize config with Some n => of_Z n | None => lit "undefined" end
             ++ lit " bytes)");
     res_suggestion := VUndefined;
     res_category := VUndefined |}.

Definition binary_result (diff : GitDiff) : ReviewResult :=
  {| res_file := diff_file diff;
     res_severity := SevInfo;
     res_line := VUndefined;
     res_message := VStr (lit "Binary file skipped");
     res_suggestion := VUndefined;
     res_category := VUndefined |}.

(** The one generation request of a file. *)
Definition generate_request (diff : GitDiff) : GenerateRequest :=
  {| req_url := modelUrl config ++ lit "/api/generate";
     req_model := modelName config;
     req_prompt := buildPrompt diff;
     req_stream := false;
     req_temperature := temperature config;
     req_num_predict :=
       Z.min (if Z.eqb (maxTokens config) 0 then 2048 else maxTokens config) 2048;
     req_stop := [ [10; 10]%N ++ lit "---"; lit "```" ++ [10; 10]%N ];
     req_timeout := or_default (timeout config) 30000 |}.

Definition reviewSingleFile (svc : Service) (diff : GitDiff) : IO (list ReviewResult) :=
  if tooLarge diff then io_ret [tooLarge_result diff]
  else if diff_isBinary diff then io_ret [binary_result diff]
  else
    io_try
      (data <- axios_post svc (generate_request diff) ;;
       reply <- io_lift (get_prop eng data (lit "response")) ;;
       io_lift (parseAIResponse (diff_file diff) reply))%io
      (fun err =>
         match exn_code err with
         | Some code =>
             if str_eqb code (lit "ECONNABORTED")
             then io_throw (new_Error (lit "Timeout when calling AI model"))
             else io_throw err
         | None => io_throw err
         end).

Definition failed_result (diff : GitDiff) (err : Exn) : ReviewResult :=
  {| res_file := diff_file diff;
     res_severity := SevError;
     res_line := VUndefined;
     res_message := VStr (lit "Failed to analyze file: " ++ exn_message err);
     res_suggestion := VUndefined;
     res_category := VUndefined |}.

(** The loop of [reviewChanges], [results] being the findings pushed so far.
    An exception of [shouldSkipFile] is outside the [try] and ends the call. *)
Fixpoint reviewChanges_loop (svc : Service) (diffs : list GitDiff)
    (results : list ReviewResult) : IO (list ReviewResult) :=
  match diffs with
  | [] => io_ret results
  | diff :: rest =>
      (skip <- io_lift (shouldSkipFile diff) ;;
       if skip : bool then reviewChanges_loop svc rest results
       else
         review <- io_try (reviewSingleFile svc diff)
                          (fun err => io_ret [failed_result diff err]) ;;
         reviewChanges_loop svc rest (results ++ review))%io
  end.

Definition reviewChanges (svc : Service) (diffs : list GitDiff) : IO (list ReviewResult) :=
  reviewChanges_loop svc diffs [].

End WithEngine.

End AIReviewer.

(* ------------------------------------------------------------------------- *)
(** * [src/git-analyzer.ts] *)
(* ------------------------------------------------------------------------- *)

(** What [fs] and [path] answer. *)
Record FileSystem := {
  path_join : js_string -> js_string -> js_string;
  existsSync : js_string -> bool;
  statSync_size : js_string -> Exc Z
}.

(** One entry of [diffSummary.files]; the counts are absent for a binary
    file. *)
Record SummaryFile := {
  sum_file : js_string;
  sum_insertions : option Z;
  sum_deletions : option Z
}.

(** The lists of [git.status()] that the analyzer reads. *)
Record Status := {
  modified : list js_string;
  not_added : list js_string;
  staged : list js_string
}.

(** What [simple-git] answers. *)
Record Git := {
  checkIsRepo : Exc bool;
  status : Exc Status;
  git_diff : list js_string -> Exc js_string;
  diffSummary : list js_string -> Exc (list SummaryFile)
}.

Module GitAnalyzer.

Record Stats := {
  additions : Z;
  deletions : Z;
  isNew : bool;
  isDeleted : bool
}.

Section WithRepository.

Variable git : Git.
Variable fs : FileSystem.
Variable repoPath : js_string.

Definition validateRepository : Exc unit :=
  (isRepo <- checkIsRepo git ;;
   if isRepo : bool then Ok tt
   else Throw (new_Error (lit "Current directory is not a Git repository")))%exc.

(** The [for] loop that counts the changed lines: both counters are updated
    line by line. *)
Definition count_lines (lines : list js_string) : Z * Z :=
  fold_left
    (fun (acc : Z * Z) line =>
       let '(additions, deletions) := acc in
       let additions :=
         if startsWith line (lit "+") && negb (startsWith line (lit "+++"))
         then (additions + 1)%Z else additions in
       let deletions :=
         if startsWith line (lit "-") && negb (startsWith line (lit "---"))
         then (deletions + 1)%Z else deletions in
       (additions, deletions))
    lines (0%Z, 0%Z).

Definition parseSingleFileDiff (fileName diffText : js_string) (isStaged : bool)
    (stats : option Stats) : option GitDiff :=
  match trim diffText with
  | [] => None
  | _ =>
      let isBinary :=
        includes diffText (lit "Binary files") || includes diffText (lit "differ") in
      let st :=
        match stats with
        | Some st => st
        | None =>
            let lines := split diffText 10 in
            let isNew := existsb (fun line => startsWith line (lit "new file mode")) lines in
            let isDeleted :=
              existsb (fun line => startsWith line (lit "deleted file mode")) lines in
            let '(additions, deletions) := count_lines lines in
            {| additions := additions; deletions := deletions;
               isNew := isNew; isDeleted := isDeleted |}
        end in
      let fileSize :=
        let fullPath := path_join fs repoPath fileName in
        if existsSync fs fullPath && negb (isDeleted st) then
          match statSync_size fs fullPath with
          | Ok size => Some size
          | Throw _ => None
          end
        else None in
      Some {| diff_file := fileName;
              diff_additions := additions st;
              diff_deletions := deletions st;
              diff_changes := diffText;
              diff_isNew := isNew st;
              diff_isDeleted := isDeleted st;
              diff_isBinary := isBinary;
              diff_fileSize := fileSize |}
  end.

(** The body of the loops over files: a failing [git.diff] is logged and the
    file left out. *)
Definition diff_of_file (args : list js_string) (file : js_string) (isStaged : bool)
    (stats : option Stats) : list GitDiff :=
  match git_diff git args with
  | Throw _ => []
  | Ok diff =>
      match parseSingleFileDiff file diff isStaged stats with
      | Some parsed => [parsed]
      | None => []
      end
  end.

Definition getUnstagedChanges : Exc (list GitDiff) :=
  (_ <- validateRepository ;;
   status <- status git ;;
   let modifiedFiles := modified status ++ not_added status in
   Ok (flat_map (fun file => diff_of_file [file] file false None) modifiedFiles))%exc.

Definition getStagedChanges : Exc (list GitDiff) :=
  (_ <- validateRepository ;;
   status <- status git ;;
   let stagedFiles := staged status in
   Ok (flat_map (fun file => diff_of_file [lit "--cached"; file] file true None)
         stagedFiles))%exc.

(** The statistics [getCommitDiff] derives from a summary entry. *)
Definition stats_of_summary (f : SummaryFile) : Stats :=
  let insertions := or_default (sum_insertions f) 0 in
  let deletions := or_default (sum_deletions f) 0 in
  {| additions := insertions;
     deletions := deletions;
     isNew := Z.gtb insertions 0 && Z.eqb deletions 0;
     isDeleted := Z.eqb insertions 0 && Z.gtb deletions 0 |}.

Definition getCommitDiff (commitHash : option js_string) : Exc (list GitDiff) :=
  (_ <- validateRepository ;;
   let range :=
     match commitHash with
     | Some (c :: h) => [ (c :: h) ++ lit "^"; c :: h ]
     | _ => [ lit "HEAD^"; lit "HEAD" ]
     end in
   files <- diffSummary git range ;;
   Ok (flat_map (fun f => diff_of_file (range ++ [lit "--"; sum_file f]) (sum_file f)
                            false (Some (stats_of_summary f)))
         files))%exc.

End WithRepository.

End GitAnalyzer.

(* ------------------------------------------------------------------------- *)
(** * The command-line entry point: the [review] command *)
(* ------------------------------------------------------------------------- *)

(** A plain object used as a map, as [groupByFile] uses one: the own
    properties in the order of their creation. *)
Module JsObject.

Section Obj.

Variable A : Type.

Definition t := list (js_string * A).

Fixpoint get (o : t) (k : js_string) : option A :=
  match o with
  | [] => None
  | (k', v) :: r => if str_eqb k' k then Some v else get r k
  end.

(** [o[k] = v]: an existing property keeps its place. *)
Fixpoint set (o : t) (k : js_string) (v : A) : t :=
  match o with
  | [] => [(k, v)]
  | (k', v') :: r => if str_eqb k' k then (k', v) :: r else (k', v') :: set r k v
  end.

(** What a plain object inherits from [Object.prototype]: reading such a name
    on an object that has no own property of that name gives a function (the
    prototype itself for [__proto__]). *)
Definition inherited (k : js_string) : bool :=
  existsb (str_eqb k)
    (map lit [ "constructor"; "__defineGetter__"; "__defineSetter__";
               "hasOwnProperty"; "__lookupGetter__"; "__lookupSetter__";
               "isPrototypeOf"; "propertyIsEnumerable"; "toString"; "valueOf";
               "__proto__"; "toLocaleString" ]%string).

(** An array index: the canonical decimal of an integer below [2^32 - 1]. *)
Definition array_index (k : js_string) : option N :=
  match k with
  | [] => None
  | c :: r =>
      if forallb Json.is_digit k
         && (match r with [] => true | _ => negb (N.eqb c 48) end)
         && Nat.leb (length k) 10
         && N.ltb (Json.digits_value k) 4294967295
      then Some (Json.digits_value k)
      else None
  end.

Fixpoint insert_index (e : N * (js_string * A)) (l : list (N * (js_string * A)))
  : list (N * (js_string * A)) :=
  match l with
  | [] => [e]
  | e' :: r => if N.leb (fst e) (fst e') then e :: l else e' :: insert_index e r
  end.

(** [Object.entries(o)]: the properties whose name is an array index first, in
    ascending numeric order, then the others in the order of their creation. *)
Definition entries (o : t) : list (js_string * A) :=
  let indexed :=
    flat_map (fun p => match array_index (fst p) with
                       | Some n => [(n, p)]
                       | None => []
                       end) o in
  map snd (fold_right insert_index [] indexed)
  ++ filter (fun p => match array_index (fst p) with
                      | Some _ => false
                      | None => true
                      end) o.

End Obj.

Arguments get {A} o k.
Arguments set {A} o k v.
Arguments entries {A} o.

End JsObject.

Module Cli.

Definition DEFAULT_CONFIG : ReviewConfig :=
  {| modelUrl := lit "http://localhost:11434";
     modelName := lit "codellama:7b-instruct";
     maxTokens := 2048;
     temperature := {| d_neg := false; d_mant := 1; d_exp := -1 |};
     maxFileSize := Some 500000%Z;
     timeout := Some 120000%Z;
     includePatterns := [];
     excludePatterns :=
       map lit [ "node_modules/"; "\.git/"; "\.jpg$"; "\.png$"; "\.pdf$"; "\.gif$";
                 "\.webp$"; "\.svg$"; "\.ico$"; "\.woff$"; "\.woff2$"; "\.ttf$";
                 "\.eot$"; "package-lock\.json$"; "yarn\.lock$"; "pnpm-lock\.yaml$";
                 "\.min\.(js|css)$"; "dist/"; "build/"; "coverage/"; "\.log$" ]%string;
     reviewPrompt := lit "You are a senior developer conducting code review. 
Analyze the code and find:

" ++ [55357; 56347]%N ++ lit " Bugs and logical errors
" ++ [9889]%N ++ lit " Performance issues  
" ++ [55357; 56594]%N ++ lit " Security vulnerabilities
" ++ [55357; 56538]%N ++ lit " Architectural principle violations
" ++ [10024]%N ++ lit " Improvement opportunities
" ++ [55356; 57256]%N ++ lit " Code style issues

Be specific and suggest concrete solutions." |}.

Section WithEngine.

Variable eng : Engine.
Variable config : ReviewConfig.

(** The loop of the [review] action over the diffs, [results] being the
    findings collected so far: a binary or oversized file is passed over, any
    other is handed to [reviewChanges] on its own. *)
Fixpoint review_loop (svc : Service) (diffs : list GitDiff)
    (results : list ReviewResult) : IO (list ReviewResult) :=
  match diffs with
  | [] => io_ret results
  | diff :: rest =>
      if diff_isBinary diff || AIReviewer.tooLarge config diff
      then review_loop svc rest results
      else
        (fileResults <- io_try (AIReviewer.reviewChanges eng config svc [diff])
                               (fun _ => io_ret []) ;;
         review_loop svc rest (results ++ fileResults))%io
  end.

(** The callback of the [reduce] in [groupByFile]. *)
Definition group_step (acc : JsObject.t (list ReviewResult)) (result : ReviewResult)
  : Exc (JsObject.t (list ReviewResult)) :=
  let file := res_file result in
  match JsObject.get acc file with
  | Some fileResults => Ok (JsObject.set acc file (fileResults ++ [result]))
  | None =>
      if JsObject.inherited file
      then Throw (type_error eng (NotAFunction (lit "push")))
      else Ok (JsObject.set acc file [result])
  end.

Fixpoint reduceM {A B} (f : B -> A -> Exc B) (l : list A) (acc : B) : Exc B :=
  match l with
  | [] => Ok acc
  | a :: l' => match f acc a with
               | Ok acc' => reduceM f l' acc'
               | Throw e => Throw e
               end
  end.

Definition groupByFile (results : list ReviewResult)
  : Exc (JsObject.t (list ReviewResult)) :=
  reduceM group_step results [].

(** [severityOrder[severity]] *)
Definition severityOrder (s : Severity) : Z :=
  match s with SevError => 0 | SevWarning => 1 | SevInfo => 2 end.

Definition compare_results (a b : ReviewResult) : Z :=
  (severityOrder (res_severity a) - severityOrder (res_severity b))%Z.

End WithEngine.

(** [l.sort(cmp)]: the sort is stable (ECMAScript 2019), and for a comparator
    that is a consistent order this fixes its result. *)
Fixpoint sort_insert {A} (cmp : A -> A -> Z) (x : A) (l : list A) : list A :=
  match l with
  | [] => [x]
  | y :: r => if Z.leb (cmp x y) 0 then x :: l else y :: sort_insert cmp x r
  end.

Definition js_sort {A} (cmp : A -> A -> Z) (l : list A) : list A :=
  fold_right (sort_insert cmp) [] l.

(** What the [review] action and [displayResults] write, one entry for each
    call of [console.log], without icons and colours. *)
Inductive Line :=
| NoChanges
| FoundFiles (totalFiles skippedFiles : nat)
| NoIssues
| Header (fileCount : nat)
| FileHeading (file : js_string)
| FindingLine (result : ReviewResult)
| SuggestionLine (suggestion : value)
| SummaryLine (summary : js_string).

Definition count_severity (s : Severity) (results : list ReviewResult) : nat :=
  length (filter (fun r => match res_severity r, s with
                           | SevError, SevError | SevWarning, SevWarning
                           | SevInfo, SevInfo => true
                           | _, _ => false
                           end) results).

Definition getSummary (results : list ReviewResult) : js_string :=
  let part (s : Severity) (label : js_string) :=
    match count_severity s results with
    | O => []
    | n => [of_Z (Z.of_nat n) ++ label]
    end in
  match part SevError (lit " errors") ++ part SevWarning (lit " warnings")
        ++ part SevInfo (lit " info") with
  | [] => lit "no issues"
  | parts => join parts (lit ", ")
  end.

Section Display.

Variable eng : Engine.

(** The lines of one file of the report. *)
Definition display_file (entry : js_string * list ReviewResult) : list Line :=
  FileHeading (fst entry)
  :: flat_map (fun result =>
                 FindingLine result
                 :: (if truthy (res_suggestion result)
                     then [SuggestionLine (res_suggestion result)] else []))
       (js_sort compare_results (snd entry)).

(** The lines written and the exit code set, if one is. *)
Definition displayResults (results : list ReviewResult) (quiet : bool)
  : Exc (list Line * option Z) :=
  match results with
  | [] => Ok ([NoIssues], None)
  | _ =>
      (grouped <- groupByFile eng results ;;
       let entries := JsObject.entries grouped in
       let fileCount := length entries in
       Ok ((if quiet then [] else [Header fileCount])
           ++ flat_map display_file entries
           ++ [SummaryLine (getSummary results)],
           if existsb (fun r => match res_severity r with
                                | SevError => true
                                | _ => false
                                end) results
           then Some 1%Z else None))%exc
  end.

(** [diffs.filter(d => d.isBinary || ...).length], the files the action
    announces as skipped. *)
Definition skippedFiles (config : ReviewConfig) (diffs : list GitDiff) : nat :=
  length (filter (fun d => diff_isBinary d || AIReviewer.tooLarge config d) diffs).

(** The [review] action from the diffs on: what it writes with [console.log]
    and the exit code it sets.  Without diffs it writes that there are no
    changes and returns; otherwise it announces the number of files and of
    skipped ones (unless quiet), runs the loop and displays the findings.  An
    exception is what the handler around the action gets. *)
Definition review_report (config : ReviewConfig) (svc : Service)
    (diffs : list GitDiff) (quiet : bool) : IO (list Line * option Z) :=
  match diffs with
  | [] => io_ret ([NoChanges], None)
  | _ =>
      let totalFiles := length diffs in
      let skippedFiles := skippedFiles config diffs in
      (results <- review_loop eng config svc diffs [] ;;
       shown <- io_lift (displayResults results quiet) ;;
       io_ret ((if quiet then [] else [FoundFiles totalFiles skippedFiles])
               ++ fst shown,
               snd shown))%io
  end.

End Display.

End Cli.

(* ------------------------------------------------------------------------- *)
(** * The command-line entry point: [loadConfig] *)
(* ------------------------------------------------------------------------- *)

Module CliConfig.

(** The keys a configuration file sets, each with a value of the type
    [ReviewConfig] gives it; [None] is a key the file leaves out.  (A file may
    set the two optional keys to [undefined].) *)
Record FileConfig := {
  set_modelUrl : option js_string;
  set_modelName : option js_string;
  set_maxTokens : option Z;
  set_temperature : option decimal;
  set_includePatterns : option (list js_string);
  set_excludePatterns : option (list js_string);
  set_reviewPrompt : option js_string;
  set_maxFileSize : option (option Z);
  set_timeout : option (option Z)
}.

(** [{ ...DEFAULT_CONFIG, ...result?.config }]: a key of the file replaces the
    default. *)
Definition merge (result : option FileConfig) : ReviewConfig :=
  match result with
  | None => Cli.DEFAULT_CONFIG
  | Some file =>
      let pick {A} (set : option A) (default : A) : A :=
        match set with Some v => v | None => default end in
      {| modelUrl := pick (set_modelUrl file) (modelUrl Cli.DEFAULT_CONFIG);
         modelName := pick (set_modelName file) (modelName Cli.DEFAULT_CONFIG);
         maxTokens := pick (set_maxTokens file) (maxTokens Cli.DEFAULT_CONFIG);
         temperature := pick (set_temperature file) (temperature Cli.DEFAULT_CONFIG);
         includePatterns :=
           pick (set_includePatterns file) (includePatterns Cli.DEFAULT_CONFIG);
         excludePatterns :=
           pick (set_excludePatterns file) (excludePatterns Cli.DEFAULT_CONFIG);
         reviewPrompt := pick (set_reviewPrompt file) (reviewPrompt Cli.DEFAULT_CONFIG);
         maxFileSize := pick (set_maxFileSize file) (maxFileSize Cli.DEFAULT_CONFIG);
         timeout := pick (set_timeout file) (timeout Cli.DEFAULT_CONFIG) |}
  end.

(** [loadConfig], given what [explorer.load] or [explorer.search] answers: the
    configuration of the file found, no file ([None]), or a failure. *)
Definition loadConfig (found : Exc (option FileConfig)) : Exc ReviewConfig :=
  try_catch
    (result <- found ;;
     let config := merge result in
     match modelUrl config, modelName config with
     | _ :: _, _ :: _ => Ok config
     | _, _ =>
         Throw (new_Error (lit "Invalid configuration: missing modelUrl or modelName"))
     end)%exc
    (fun error =>
       Throw (new_Error (lit "Configuration loading error: " ++ exn_message error))).

End CliConfig.

(* ------------------------------------------------------------------------- *)
(** * Fixtures: an engine, a file system and replies to evaluate the model on *)
(* ------------------------------------------------------------------------- *)

Module Fixtures.

(** An engine to evaluate with: fixed messages, and a matcher that reads a
    pattern as a plain substring. *)
Definition engine : Engine :=
  {| json_error_message := fun _ => lit "Unterminated string in JSON at position 45";
     type_error_message := fun _ => lit "Cannot read properties of undefined";
     number_to_string := fun d => of_Z (Z.of_N (d_mant d));
     regexp_test := fun p s => Ok (includes s p) |}.

(** A working tree in which every file exists and has [size] bytes. *)
Definition fs_of_size (size : Z) : FileSystem :=
  {| path_join := fun a b => a ++ lit "/" ++ b;
     existsSync := fun _ => true;
     statSync_size := fun _ => Ok size |}.

(** A service that answers every request with the same reply text. *)
Definition service_replying (text : js_string) : Service :=
  fun _ _ => Ok (VObj [(lit "response", VStr text)]).

(** A listing of installed models, as the service sends it. *)
Definition models_payload (names : list js_string) : value :=
  VObj [(lit "models", VArr (map (fun n => VObj [(lit "name", VStr n)]) names))].

(** The reply of the round-trip property. *)
Definition complete_reply : js_string :=
  dq "{'reviews':[{'severity':'error','message':'x'}]}".

(** The reply cut off in the middle of a string. *)
Definition truncated_reply : js_string :=
  dq "{'reviews':[{'severity':'warning','message':'ab".

Definition text_diff (file : js_string) (size : option Z) : GitDiff :=
  {| diff_file := file;
     diff_additions := 1;
     diff_deletions := 0;
     diff_changes := lit "+eval(x)";
     diff_isNew := false;
     diff_isDeleted := false;
     diff_isBinary := false;
     diff_fileSize := size |}.

Definition finding (file : js_string) (sev : Severity) (msg : js_string) : ReviewResult :=
  {| res_file := file;
     res_severity := sev;
     res_line := VUndefined;
     res_message := VStr msg;
     res_suggestion := VUndefined;
     res_category := VUndefined |}.

End Fixtures.

(* ------------------------------------------------------------------------- *)
(** * The vocabulary of the statements *)
(* ------------------------------------------------------------------------- *)

(** ** Run-time values *)

(** The own property of that name of an object; [undefined] when the object
    has none and on any other value. *)
Definition prop_of (v : value) (k : js_string) : value :=
  match v with
  | VObj ms => match get_own ms k with Some x => x | None => VUndefined end
  | _ => VUndefined
  end.

(** ** Diff texts *)

(** Some line of the text starts with the marker. *)
Definition declares (marker text : js_string) : Prop :=
  exists line, In line (split text 10) /\ startsWith line marker = true.

(** A line that begins with a single marker character: with the character,
    and not with three of them (the file-header line). *)
Definition begins_with_single (marker : js_string) (line : js_string) : bool :=
  startsWith line marker && negb (startsWith line (marker ++ marker ++ marker)).

(** The number of lines of a text that begin with a single marker. *)
Definition count_single (marker text : js_string) : Z :=
  Z.of_nat (length (filter (begins_with_single marker) (split text 10))).

(** The claim's count of the lines that begin with a marker, the file-header
    line left out.  The file header of a diff (the line [diff --git] and what
    follows it, the [---] and [+++] lines among them) ends with the first hunk
    header, a line that begins with [@@]; [header] says that the lines are
    read inside a file header.  A line counts when it begins with the marker
    and is not a line of a file header that begins with three markers. *)
Fixpoint marked_lines (marker : js_string) (header : bool) (lines : list js_string)
  : Z :=
  match lines with
  | [] => 0
  | line :: rest =>
      let header_line :=
        header && startsWith line (marker ++ marker ++ marker) in
      let header' :=
        startsWith line (lit "diff --git")
        || (header && negb (startsWith line (lit "@@"))) in
      ((if startsWith line marker && negb header_line then 1 else 0)
       + marked_lines marker header' rest)%Z
  end.

Definition claimed_count (marker text : js_string) : Z :=
  marked_lines marker true (split text 10).

(** The lines of the hunks that begin with three markers: changed lines whose
    own text begins with two. *)
Fixpoint tripled_lines (marker : js_string) (header : bool) (lines : list js_string)
  : Z :=
  match lines with
  | [] => 0
  | line :: rest =>
      let header' :=
        startsWith line (lit "diff --git")
        || (header && negb (startsWith line (lit "@@"))) in
      ((if negb header && startsWith line (marker ++ marker ++ marker)
        then 1 else 0)
       + tripled_lines marker header' rest)%Z
  end.

Definition tripled_in_hunks (marker text : js_string) : Z :=
  tripled_lines marker true (split text 10).

(** ** The health probe *)

(** The one request of the probe. *)
Definition tags_outcome (config : ReviewConfig) (tags : TagsService) : Exc value :=
  tags (modelUrl config ++ lit "/api/tags") (or_default (timeout config) 5000).

Definition unavailable (e : Exn) : HealthCheck :=
  {| isHealthy := false;
     error := Some (lit "Ollama server unavailable: " ++ exn_message e) |}.

(** The payload lists model names: under [models] it has an array of
    objects, each with a string under [name], whatever other members the
    payload and its entries have. *)
Definition lists_names (data : value) (names : list js_string) : Prop :=
  exists items,
    prop_of data (lit "models") = VArr items
    /\ Forall2 (fun item name => prop_of item (lit "name") = VStr name) items names.

(** The answer to a listing of model names. *)
Definition listing_health (config : ReviewConfig) (names : list js_string)
  : HealthCheck :=
  if existsb (fun n => includes n (AIReviewer.base_name config)) names
  then {| isHealthy := true; error := None |}
  else {| isHealthy := false;
          error := Some (lit "Model " ++ modelName config
                         ++ lit " not found. Available models: "
                         ++ join names (lit ", ")) |}.

(** ** The report *)

Definition mem (x : js_string) (l : list js_string) : bool := existsb (str_eqb x) l.

(** The distinct elements of a list in the order in which they first occur. *)
Definition first_seen (l : list js_string) : list js_string :=
  fold_left (fun seen x => if mem x seen then seen else seen ++ [x]) l [].

(** The findings of a file, in the order of their arrival. *)
Definition of_file (f : js_string) (results : list ReviewResult) : list ReviewResult :=
  filter (fun r => str_eqb (res_file r) f) results.

(** The groups of a finding list: a group for each file in first-seen order. *)
Definition groups (results : list ReviewResult) : JsObject.t (list ReviewResult) :=
  map (fun f => (f, of_file f results)) (first_seen (map res_file results)).






Definition finding_lines (l : list ReviewResult) : list Cli.Line :=
  flat_map (fun result =>
              Cli.FindingLine result
              :: (if truthy (res_suggestion result)
                  then [Cli.SuggestionLine (res_suggestion result)] else []))
    l.


(** ** Patterns *)

(** The pattern is valid and matches the path. *)
Definition pattern_matches (eng : Engine) (path pattern : js_string) : bool :=
  match regexp_test eng pattern path with
  | Ok true => true
  | _ => false
  end.

(** Every pattern of the configuration is a valid regular expression. *)
Definition valid_patterns (eng : Engine) (config : ReviewConfig) : Prop :=
  forall pattern path,
    In pattern (excludePatterns config ++ includePatterns config) ->
    exists b, regexp_test eng pattern path = Ok b.

(** ** Requests and findings *)

(** A request of [reviewChanges]: the one of a file of the list that no
    pattern excludes and that is neither oversized nor binary. *)
Definition request_of (eng : Engine) (config : ReviewConfig) (diffs : list GitDiff)
    (request : GenerateRequest) : Prop :=
  exists diff,
    In diff diffs
    /\ request = AIReviewer.generate_request config diff
    /\ AIReviewer.shouldSkipFile eng config diff = Ok false
    /\ AIReviewer.tooLarge config diff = false
    /\ diff_isBinary diff = false.

(** The file is one the model is asked about: [shouldSkipFile] answers that
    it is not skipped, and it is neither oversized nor binary. *)
Definition eligible (eng : Engine) (config : ReviewConfig) (diff : GitDiff) : bool :=
  match AIReviewer.shouldSkipFile eng config diff with
  | Ok false => negb (AIReviewer.tooLarge config diff) && negb (diff_isBinary diff)
  | _ => false
  end.

(** The diffs the loop of [reviewChanges] reaches: those before the first one
    on which [shouldSkipFile] throws. *)
Fixpoint reached (eng : Engine) (config : ReviewConfig) (diffs : list GitDiff)
  : list GitDiff :=
  match diffs with
  | [] => []
  | diff :: rest =>
      match AIReviewer.shouldSkipFile eng config diff with
      | Ok _ => diff :: reached eng config rest
      | Throw _ => []
      end
  end.

(** The requests for a list of diffs: one for each eligible diff, in the
    order of the list. *)
Definition requests_for (eng : Engine) (config : ReviewConfig) (diffs : list GitDiff)
  : list GenerateRequest :=
  map (AIReviewer.generate_request config) (filter (eligible eng config) diffs).

(** A finding of [reviewChanges]: it names a file of the list that no pattern
    excludes. *)
Definition finding_of (eng : Engine) (config : ReviewConfig) (diffs : list GitDiff)
    (finding : ReviewResult) : Prop :=
  exists diff,
    In diff diffs
    /\ res_file finding = diff_file diff
    /\ AIReviewer.shouldSkipFile eng config diff = Ok false.


(** A finding of the [review] loop: it names a file of the list that is
    neither binary nor oversized. *)
Definition reviewed_finding (config : ReviewConfig) (diffs : list GitDiff)
    (finding : ReviewResult) : Prop :=
  exists diff,
    In diff diffs
    /\ res_file finding = diff_file diff
    /\ diff_isBinary diff = false
    /\ AIReviewer.tooLarge config diff = false.

(** ** The report, line by line *)

(** The findings a report prints, in the order of its lines. *)
Definition printed (lines : list Cli.Line) : list ReviewResult :=
  flat_map (fun line => match line with
                        | Cli.FindingLine r => [r]
                        | _ => []
                        end) lines.

(** ** Change sources *)

(** [git.diff] succeeded with a text that is not blank: the file gets a
    record. *)
Definition has_diff (output : Exc js_string) : bool :=
  match output with
  | Ok text => negb (forallb is_ws text)
  | Throw _ => false
  end.

(** ** Replies *)

(** A reply that wraps a body in a fence labelled as JSON, between a preamble
    and a postscript; white space separates the body from the fences. *)
Definition fenced_reply (pre w1 body w2 post : js_string) : js_string :=
  pre ++ lit "```json" ++ w1 ++ body ++ w2 ++ lit "```" ++ post.

(** ** Inputs *)

Module C6Input.

(** The diff of a line [--counter;] rewritten as [++counter;]. *)
Definition decrement_to_increment : js_string := lit "diff --git a/counter.js b/counter.js
index 5b0a3c1..9d1e7f2 100644
--- a/counter.js
+++ b/counter.js
@@ -1 +1 @@
---counter;
+++counter;".

(** A diff of two added lines and one removed line. *)
Definition plain_change : js_string := lit "--- a/f.js
+++ b/f.js
@@ -1,2 +1,3 @@
 keep
-old
+new
+more".

End C6Input.

Module C4Input.

(** The diff git prints for a path that changed from a regular file into a
    symbolic link: a deletion followed by a creation of the same path. *)
Definition typechange : js_string := lit "diff --git a/current b/current
deleted file mode 100644
index 3b18e51..0000000
--- a/current
+++ /dev/null
@@ -1 +0,0 @@
-release 1
diff --git a/current b/current
new file mode 120000
index 0000000..1de5659
--- /dev/null
+++ b/current
@@ -0,0 +1 @@
+releases/2
\ No newline at end of file".

Definition created : js_string := lit "diff --git a/a.txt b/a.txt
new file mode 100644
index 0000000..ce01362
--- /dev/null
+++ b/a.txt
@@ -0,0 +1 @@
+hello".

Definition added_only : SummaryFile :=
  {| sum_file := lit "a.txt"; sum_insertions := Some 1%Z; sum_deletions := Some 0%Z |}.

End C4Input.

Module HealthInput.

(** The listing endpoint refuses the connection. *)
Definition refused : TagsService :=
  fun _ _ => Throw {| exn_class := AxiosError;
                      exn_code := Some (lit "ECONNREFUSED");
                      exn_message := lit "connect ECONNREFUSED 127.0.0.1:11434" |}.

(** The listing endpoint reports the given model names. *)
Definition listing (names : list js_string) : TagsService :=
  fun _ _ => Ok (Fixtures.models_payload names).

(** The listing endpoint answers with no payload. *)
Definition no_payload : TagsService := fun _ _ => Ok VNull.

(** An entry of a listing as Ollama sends it, with more than a name. *)
Definition entry (name : js_string) (size : N) : value :=
  VObj [ (lit "name", VStr name);
         (lit "model", VStr name);
         (lit "modified_at", VStr (lit "2024-05-04T14:56:49.277302595-07:00"));
         (lit "size", VNum {| d_neg := false; d_mant := size; d_exp := 0 |});
         (lit "details", VObj [ (lit "format", VStr (lit "gguf"));
                                (lit "family", VStr (lit "llama")) ]) ].

(** The listing endpoint reports two installed models in full. *)
Definition installed : TagsService :=
  fun _ _ => Ok (VObj [ (lit "models",
                         VArr [ entry (lit "llama3:8b") 4661224676;
                                entry (lit "codellama:13b-instruct") 7365960935 ]) ]).

(** A payload whose second entry is the configured model and whose last
    entry has no name. *)
Definition nameless_last : value :=
  VObj [ (lit "models",
          VArr ([ entry (lit "llama3:8b") 4661224676 ]
                ++ entry (lit "codellama:7b-instruct") 3825910662
                :: [ VObj [ (lit "name", VNull) ] ])) ].

(** A listing whose first entry has no name. *)
Definition nameless_first : TagsService :=
  fun _ _ => Ok (VObj [ (lit "models",
                         VArr [ VObj [ (lit "name", VNull) ];
                                entry (lit "codellama:7b-instruct") 3825910662 ]) ]).

End HealthInput.

Module ClientInput.

(** The default configuration with a token budget of 4096. *)
Definition generous : ReviewConfig :=
  {| modelUrl := modelUrl Cli.DEFAULT_CONFIG;
     modelName := modelName Cli.DEFAULT_CONFIG;
     maxTokens := 4096;
     temperature := temperature Cli.DEFAULT_CONFIG;
     includePatterns := [];
     excludePatterns := excludePatterns Cli.DEFAULT_CONFIG;
     reviewPrompt := reviewPrompt Cli.DEFAULT_CONFIG;
     maxFileSize := maxFileSize Cli.DEFAULT_CONFIG;
     timeout := timeout Cli.DEFAULT_CONFIG |}.

Definition small : GitDiff := Fixtures.text_diff (lit "src/auth.js") (Some 120%Z).

(** A file of 600000 bytes, over the default limit of 500000. *)
Definition big : GitDiff := Fixtures.text_diff (lit "src/bundle.js") (Some 600000%Z).

Definition no_issues : Service := Fixtures.service_replying (dq "{'reviews':[]}").

End ClientInput.

Module BinaryInput.

(** A change of plain text whose added line has the word [differ]. *)
Definition prose : js_string := lit "diff --git a/notes.js b/notes.js
index 83db48f..bf269f4 100644
--- a/notes.js
+++ b/notes.js
@@ -1 +1,2 @@
 const a = 1;
+// the two totals differ by one".

End BinaryInput.

Module ReportInput.


(** A finding for a file named [notes.md], then one for a file named
    [2024]. *)
Definition numbered : list ReviewResult :=
  [ Fixtures.finding (lit "notes.md") SevInfo (lit "first");
    Fixtures.finding (lit "2024") SevError (lit "second") ].

End ReportInput.

Module SourceInput.

Definition one_line : js_string := lit "--- a/a.js
+++ b/a.js
@@ -0,0 +1 @@
+x".

(** A repository with three modified files: the diff of [a.js] is a change of
    one line, that of [b.js] is empty, and that of [c.js] fails. *)
Definition repository : Git :=
  {| checkIsRepo := Ok true;
     status := Ok {| modified := [lit "a.js"; lit "b.js"; lit "c.js"];
                     not_added := [];
                     staged := [lit "a.js"] |};
     git_diff := fun args =>
       if existsb (str_eqb (lit "a.js")) args then Ok one_line
       else if existsb (str_eqb (lit "b.js")) args then Ok []
       else Throw (new_Error (lit "fatal: bad revision"));
     diffSummary := fun _ =>
       Ok [ {| sum_file := lit "a.js";
               sum_insertions := Some 1%Z;
               sum_deletions := Some 0%Z |} ] |}.

End SourceInput.

Module ParserInput.

Definition prose : js_string := lit "The change looks fine to me.".

Definition two_reviews : js_string :=
  dq "```json
{'reviews':[{'severity':'error','line':12,'message':'unsafe eval','category':'security'},
            {'severity':'note','message':''}]}
```".

Definition with_null : js_string :=
  dq "{'reviews':[{'severity':'error','message':'unsafe eval'}, null]}".

Definition no_reviews : js_string := dq "{'issues':[]}".

End ParserInput.

Module MoreClientInput.

(** A service that answers every request with the reply of one review. *)
Definition one_issue : Service := Fixtures.service_replying Fixtures.complete_reply.

(** A service on which every request times out. *)
Definition timing_out : Service :=
  fun _ _ => Throw {| exn_class := AxiosError;
                      exn_code := Some (lit "ECONNABORTED");
                      exn_message := lit "timeout of 120000ms exceeded" |}.

Definition vendored : GitDiff :=
  Fixtures.text_diff (lit "node_modules/left-pad/index.js") (Some 120%Z).

(** An engine that rejects the pattern of a lone opening parenthesis, as
    [new RegExp] does, and reads any other pattern as a plain substring. *)
Definition strict_engine : Engine :=
  {| json_error_message := json_error_message Fixtures.engine;
     type_error_message := type_error_message Fixtures.engine;
     number_to_string := number_to_string Fixtures.engine;
     regexp_test := fun p s =>
       if str_eqb p (lit "(")
       then Throw {| exn_class := SyntaxError;
                     exn_code := None;
                     exn_message :=
                       lit "Invalid regular expression: /(/: Unterminated group" |}
       else Ok (includes s p) |}.

(** The default configuration with a lone opening parenthesis as its only
    exclude pattern. *)
Definition mistyped : ReviewConfig :=
  {| modelUrl := modelUrl Cli.DEFAULT_CONFIG;
     modelName := modelName Cli.DEFAULT_CONFIG;
     maxTokens := maxTokens Cli.DEFAULT_CONFIG;
     temperature := temperature Cli.DEFAULT_CONFIG;
     includePatterns := [];
     excludePatterns := [lit "("];
     reviewPrompt := reviewPrompt Cli.DEFAULT_CONFIG;
     maxFileSize := maxFileSize Cli.DEFAULT_CONFIG;
     timeout := timeout Cli.DEFAULT_CONFIG |}.

End MoreClientInput.

Module ConfigInput.

(** A file that sets the model name to the empty string. *)
Definition unnamed : CliConfig.FileConfig :=
  {| CliConfig.set_modelUrl := None;
     CliConfig.set_modelName := Some [];
     CliConfig.set_maxTokens := None;
     CliConfig.set_temperature := None;
     CliConfig.set_includePatterns := None;
     CliConfig.set_excludePatterns := None;
     CliConfig.set_reviewPrompt := None;
     CliConfig.set_maxFileSize := None;
     CliConfig.set_timeout := None |}.

End ConfigInput.

(* ------------------------------------------------------------------------- *)
(** * The embedding on examples *)
(* ------------------------------------------------------------------------- *)

Section Examples.

Example parse_nested :
  Json.parse (dq " {'a': [1, -2.50e+3, true, null, 'x\ny'], 'b': {}} ")
  = Some (VObj [ (lit "a",
                  VArr [ VNum {| d_neg := false; d_mant := 1; d_exp := 0 |};
                         VNum {| d_neg := true; d_mant := 250; d_exp := 1 |};
                         VBool true; VNull; VStr [120; 10; 121]%N ]);
                 (lit "b", VObj []) ]).
Proof. vm_compute. reflexivity. Qed.

Example parse_rejects :
  map Json.parse
    [ dq ""; dq "[1,]"; dq "{'a':1,}"; dq "01"; dq "1."; dq "-"; dq "tru";
      dq "'abc"; dq "{'a' 1}"; dq "[1 2]"; dq "{'reviews':[]} trailing" ]
  = repeat None 11.
Proof. vm_compute. reflexivity. Qed.

Example extract_from_fence :
  AIReviewer.extractJSON (dq "Here is the review:
```json
{'reviews':[]}
```
Hope it helps.") = dq "{'reviews':[]}".
Proof. vm_compute. reflexivity. Qed.

Example extract_from_prose :
  AIReviewer.extractJSON (dq "Result: {'reviews':[]} (end)") = dq "{'reviews':[]}".
Proof. vm_compute. reflexivity. Qed.

(** A second review cut off after a complete first one: no prefix that ends
    on a closing brace or bracket is valid, and the fallback is the empty
    list. *)
Example parse_cut_after_first_review :
  AIReviewer.parseAIResponse Fixtures.engine (lit "f.js")
    (VStr (dq "{'reviews':[{'severity':'error','message':'a'},{'severity':'warn"))
  = Ok [].
Proof. vm_compute. reflexivity. Qed.

Example parse_without_reviews :
  AIReviewer.parseAIResponse Fixtures.engine (lit "f.js") (VStr (dq "{'issues':[]}"))
  = Ok [AIReviewer.malformed (lit "f.js")].
Proof. vm_compute. reflexivity. Qed.

Example parse_coerces :
  AIReviewer.parseAIResponse Fixtures.engine (lit "f.js")
    (VStr (dq "{'reviews':[{'severity':'fatal','line':3,'message':''}]}"))
  = Ok [ {| res_file := lit "f.js";
            res_severity := SevInfo;
            res_line := VNum {| d_neg := false; d_mant := 3; d_exp := 0 |};
            res_message := VStr (lit "No description");
            res_suggestion := VUndefined;
            res_category := VUndefined |} ].
Proof. vm_compute. reflexivity. Qed.

Example entries_order :
  map fst (JsObject.entries
             [(lit "b", 1); (lit "10", 2); (lit "a", 3); (lit "2", 4); (lit "02", 5)])
  = [lit "2"; lit "10"; lit "b"; lit "a"; lit "02"].
Proof. vm_compute. reflexivity. Qed.

Example split_lines : split (lit "a
b
") 10 = [lit "a"; lit "b"; []].
Proof. vm_compute. reflexivity. Qed.

End Examples.

(* ------------------------------------------------------------------------- *)
(** * The Response Recovery Parser *)
(* ------------------------------------------------------------------------- *)

Section ParserFacts.

Variable eng : Engine.

(** The outer [catch] of [parseAIResponse] returns a list: nothing escapes. *)
Lemma parseAIResponse_returns (file : js_string) (response : value) :
  exists findings, AIReviewer.parseAIResponse eng file response = Ok findings.
Proof.
  unfold AIReviewer.parseAIResponse, try_catch.
  destruct (AIReviewer.parseAIResponse_body eng file response) as [l | e];
    eauto.
Qed.

(** Without a closing brace or bracket to cut at, the backward scan ends on
    the empty review list. *)
Lemma truncate_loop_no_closer (s : js_string) (n : nat) :
  existsb AIReviewer.is_closer s = false ->
  AIReviewer.truncate_loop eng s n = dq "{'reviews':[]}".
Proof.
  intros Hs. induction n as [| i IH]; [reflexivity |].
  simpl. destruct (nth_error s i) as [c |] eqn:Hc; [| exact IH].
  assert (Hcl : AIReviewer.is_closer c = false).
  { destruct (AIReviewer.is_closer c) eqn:E; [| reflexivity].
    apply nth_error_In in Hc.
    assert (existsb AIReviewer.is_closer s = true)
      by (apply existsb_exists; eauto).
    congruence. }
  rewrite Hcl. exact IH.
Qed.

(** A text that is not JSON and has no closing brace or bracket after its last
    double quote is handed to the backward scan, whatever the message of the
    syntax error. *)
Lemma fixIncompleteJSON_scans (s : js_string) :
  Json.parse s = None ->
  (let after := slice_from s (Z.to_nat (lastIndexOf s 34 + 1)) in
   includes after (lit "}") || includes after (lit "]")) = false ->
  AIReviewer.fixIncompleteJSON eng s = AIReviewer.truncateToValidJSON eng s.
Proof.
  intros Hp Hc. unfold AIReviewer.fixIncompleteJSON, JSON_parse.
  rewrite Hp. cbv zeta in Hc |- *. rewrite Hc.
  rewrite !andb_false_r.
  destruct (_ && _); reflexivity.
Qed.

Lemma parse_truncated_reply (file : js_string) :
  AIReviewer.parseAIResponse eng file (VStr Fixtures.truncated_reply) = Ok [].
Proof.
  unfold AIReviewer.parseAIResponse, AIReviewer.parseAIResponse_body.
  cbn [AIReviewer.string_receiver bindE].
  replace (AIReviewer.extractJSON Fixtures.truncated_reply)
    with Fixtures.truncated_reply by (vm_compute; reflexivity).
  rewrite fixIncompleteJSON_scans by (vm_compute; reflexivity).
  unfold AIReviewer.truncateToValidJSON.
  rewrite truncate_loop_no_closer by (vm_compute; reflexivity).
  vm_compute. reflexivity.
Qed.

End ParserFacts.

(** C3. The reply [Fixtures.truncated_reply], a review list cut off inside
    the string of its first message, gives the empty finding list (the terminal fallback; a
    repaired single finding is the other outcome the claim allows), and on
    every reply, of any run-time type, the parser returns a finding list: no
    exception leaves it. *)
Theorem C3_truncated_reply_and_totality (eng : Engine) (file : js_string) :
  (let result := AIReviewer.parseAIResponse eng file (VStr Fixtures.truncated_reply) in
   (exists finding, result = Ok [finding]) \/ result = Ok [])
  /\ AIReviewer.parseAIResponse eng file (VStr Fixtures.truncated_reply) = Ok []
  /\ forall response : value,
       exists findings, AIReviewer.parseAIResponse eng file response = Ok findings.
Proof.
  pose proof (parse_truncated_reply eng file) as H.
  split; [right; exact H |].
  split; [exact H |].
  intros response. apply parseAIResponse_returns.
Qed.

(** C7. The reply [Fixtures.complete_reply], one review of severity error
    and message x, gives exactly one finding: severity error, message x, and line, suggestion and
    category undefined. *)
Theorem C7_complete_reply_round_trip (eng : Engine) (file : js_string) :
  AIReviewer.parseAIResponse eng file (VStr Fixtures.complete_reply)
  = Ok [ {| res_file := file;
            res_severity := SevError;
            res_line := VUndefined;
            res_message := VStr (lit "x");
            res_suggestion := VUndefined;
            res_category := VUndefined |} ].
Proof.
  vm_compute. reflexivity.
Qed.

(* ------------------------------------------------------------------------- *)
(** * Facts on strings *)
(* ------------------------------------------------------------------------- *)

Section StringFacts.

Lemma str_eqb_eq (a b : js_string) : str_eqb a b = true <-> a = b.
Proof.
  revert b. induction a as [| x a IH]; intros [| y b]; simpl;
    try (split; [discriminate | discriminate]); [tauto |].
  rewrite andb_true_iff, N.eqb_eq, IH. split.
  - intros [-> ->]. reflexivity.
  - intros H. injection H as -> ->. split; reflexivity.
Qed.

Lemma str_eqb_refl (a : js_string) : str_eqb a a = true.
Proof. apply str_eqb_eq. reflexivity. Qed.

Lemma str_eqb_neq (a b : js_string) : str_eqb a b = false <-> a <> b.
Proof.
  pose proof (str_eqb_eq a b) as H.
  destruct (str_eqb a b); split; intros H1; try congruence.
  - exfalso. apply H1. apply H. reflexivity.
  - intros E. apply H in E. discriminate.
Qed.

Lemma trimStart_head (s : js_string) :
  trimStart s = [] \/ exists c r, trimStart s = c :: r /\ is_ws c = false.
Proof.
  induction s as [| c s IH]; [left; reflexivity |].
  simpl. destruct (is_ws c) eqn:E; [exact IH |].
  right. exists c, s. split; [reflexivity | exact E].
Qed.

Lemma trimStart_keeps (s : js_string) (c : N) :
  In c s -> is_ws c = false -> trimStart s <> [].
Proof.
  induction s as [| x s IH]; intros Hin Hc; [destruct Hin |].
  simpl. destruct (is_ws x) eqn:E; [| discriminate].
  destruct Hin as [-> | Hin]; [congruence | auto].
Qed.

(** A text with a code unit that is not white space is not blank. *)
Lemma trim_not_blank (s : js_string) (c : N) :
  In c s -> is_ws c = false -> trim s <> [].
Proof.
  intros Hin Hc. unfold trim, trimEnd.
  destruct (trimStart_head s) as [E | (x & r & E & Hx)].
  - exfalso. exact (trimStart_keeps s c Hin Hc E).
  - rewrite E. intros H.
    apply (f_equal (@rev N)) in H. rewrite rev_involutive in H. simpl in H.
    revert H. apply (trimStart_keeps _ x); [| exact Hx].
    apply in_or_app. right. left. reflexivity.
Qed.

Lemma startsWith_head (s p : js_string) (c : N) :
  startsWith s (c :: p) = true -> In c s.
Proof.
  destruct s as [| x s]; simpl; [discriminate |].
  intros H. apply andb_true_iff in H. destruct H as [H _].
  apply N.eqb_eq in H. left. symmetry. exact H.
Qed.

Lemma includes_head (s p : js_string) (c : N) :
  includes s (c :: p) = true -> In c s.
Proof.
  unfold includes. induction s as [| x s IH].
  - simpl. discriminate.
  - cbn [indexOf]. destruct (startsWith (x :: s) (c :: p)) eqn:E.
    + intros _. exact (startsWith_head _ _ _ E).
    + destruct (indexOf s (c :: p)); simpl; [| discriminate].
      intros _. right. apply IH. reflexivity.
Qed.

Lemma split_In (s : js_string) (sep : N) (line : js_string) (c : N) :
  In line (split s sep) -> In c line -> In c s.
Proof.
  revert line. induction s as [| x s IH]; intros line Hl Hc.
  - simpl in Hl. destruct Hl as [<- | []]. destruct Hc.
  - simpl in Hl. destruct (N.eqb x sep).
    + destruct Hl as [<- | Hl]; [destruct Hc |]. right. eauto.
    + destruct (split s sep) as [| l ls] eqn:E.
      * destruct Hl as [<- | []]. destruct Hc as [<- | []]. left. reflexivity.
      * destruct Hl as [<- | Hl].
        -- destruct Hc as [<- | Hc]; [left; reflexivity |].
           right. apply (IH l); [left; reflexivity | exact Hc].
        -- right. apply (IH line); [right; exact Hl | exact Hc].
Qed.

End StringFacts.

(* ------------------------------------------------------------------------- *)
(** * The Diff Extractor *)
(* ------------------------------------------------------------------------- *)

Section ExtractorFacts.

Variable fs : FileSystem.
Variable repoPath : js_string.

Lemma existsb_declares (marker text : js_string) :
  existsb (fun line => startsWith line marker) (split text 10) = true
  <-> declares marker text.
Proof. apply existsb_exists. Qed.

Lemma declares_not_blank (c : N) (marker text : js_string) :
  is_ws c = false -> declares (c :: marker) text -> trim text <> [].
Proof.
  intros Hc (line & Hl & Hs).
  apply (trim_not_blank text c); [| exact Hc].
  apply (split_In _ _ _ _ Hl). exact (startsWith_head _ _ _ Hs).
Qed.

(** A text that is not blank gives a record, and the record of a text parsed
    without statistics is read off the text. *)
Lemma parse_not_blank (file text : js_string) (staged : bool) :
  trim text <> [] ->
  exists size,
    GitAnalyzer.parseSingleFileDiff fs repoPath file text staged None
    = Some {| diff_file := file;
              diff_additions := fst (GitAnalyzer.count_lines (split text 10));
              diff_deletions := snd (GitAnalyzer.count_lines (split text 10));
              diff_changes := text;
              diff_isNew :=
                existsb (fun l => startsWith l (lit "new file mode")) (split text 10);
              diff_isDeleted :=
                existsb (fun l => startsWith l (lit "deleted file mode")) (split text 10);
              diff_isBinary :=
                includes text (lit "Binary files") || includes text (lit "differ");
              diff_fileSize := size |}.
Proof.
  intros Hne. unfold GitAnalyzer.parseSingleFileDiff.
  destruct (trim text) as [| c t]; [congruence |].
  destruct (GitAnalyzer.count_lines (split text 10)) as [a d].
  eexists. reflexivity.
Qed.

Lemma count_lines_from (lines : list js_string) (a d : Z) :
  fold_left
    (fun (acc : Z * Z) line =>
       let '(additions, deletions) := acc in
       let additions :=
         if startsWith line (lit "+") && negb (startsWith line (lit "+++"))
         then (additions + 1)%Z else additions in
       let deletions :=
         if startsWith line (lit "-") && negb (startsWith line (lit "---"))
         then (deletions + 1)%Z else deletions in
       (additions, deletions))
    lines (a, d)
  = ((a + Z.of_nat (length (filter (begins_with_single (lit "+")) lines)))%Z,
     (d + Z.of_nat (length (filter (begins_with_single (lit "-")) lines)))%Z).
Proof.
  revert a d. induction lines as [| line lines IH]; intros a d.
  - simpl. f_equal; lia.
  - cbn [fold_left filter]. rewrite IH.
    change (begins_with_single (lit "+") line)
      with (startsWith line (lit "+") && negb (startsWith line (lit "+++"))).
    change (begins_with_single (lit "-") line)
      with (startsWith line (lit "-") && negb (startsWith line (lit "---"))).
    destruct (startsWith line (lit "+") && negb (startsWith line (lit "+++")));
      destruct (startsWith line (lit "-") && negb (startsWith line (lit "---")));
      cbn [length]; f_equal; lia.
Qed.

Lemma count_lines_counts (lines : list js_string) :
  GitAnalyzer.count_lines lines
  = (Z.of_nat (length (filter (begins_with_single (lit "+")) lines)),
     Z.of_nat (length (filter (begins_with_single (lit "-")) lines))).
Proof.
  unfold GitAnalyzer.count_lines. rewrite count_lines_from. reflexivity.
Qed.

End ExtractorFacts.

(** A text that starts with a longer prefix starts with the shorter one. *)
Lemma startsWith_shorter (p q s : js_string) :
  startsWith s (p ++ q) = true -> startsWith s p = true.
Proof.
  revert s. induction p as [| c p IH]; intros s; [destruct s; reflexivity |].
  destruct s as [| x s]; cbn [app startsWith]; [discriminate |].
  destruct (N.eqb c x); cbn [andb]; [apply IH | discriminate].
Qed.

(** The lines the code counts are the lines of the claim less the lines of
    the hunks that begin with three markers. *)
Lemma single_and_tripled (marker : js_string) (lines : list js_string)
    (header : bool) :
  (Z.of_nat (length (filter (begins_with_single marker) lines))
   + tripled_lines marker header lines
   = marked_lines marker header lines)%Z.
Proof.
  revert header. induction lines as [| line lines IH]; intros header;
    [reflexivity |].
  cbn [filter marked_lines tripled_lines]. rewrite <- IH.
  unfold begins_with_single.
  pose proof (startsWith_shorter marker (marker ++ marker) line) as Hshort.
  destruct (startsWith line (marker ++ marker ++ marker)).
  - rewrite (Hshort eq_refl). destruct header; cbn [andb negb length]; lia.
  - rewrite !andb_false_r, andb_true_r.
    destruct (startsWith line marker); cbn [length]; lia.
Qed.

Lemma tripled_lines_nonneg (marker : js_string) (lines : list js_string)
    (header : bool) :
  (0 <= tripled_lines marker header lines)%Z.
Proof.
  revert header. induction lines as [| line lines IH]; intros header;
    cbn [tripled_lines]; [lia |].
  specialize (IH (startsWith line (lit "diff --git")
                  || (header && negb (startsWith line (lit "@@"))))).
  destruct (negb header && startsWith line (marker ++ marker ++ marker)); lia.
Qed.

(** C6, as the code has it.  For a diff text parsed without statistics (one
    that is not blank), [additions] is the number of lines that begin with a
    plus sign and not with three, and [deletions] the number of lines that
    begin with a minus sign and not with three, wherever the line stands.  So
    a changed line whose own text begins with two markers is left out like
    the file-header line: each count is the claim's count less the number of
    such lines, and equals it when the hunks have none. *)
Theorem C6_line_counts (fs : FileSystem) (repoPath file text : js_string)
    (staged : bool) :
  trim text <> [] ->
  exists record,
    GitAnalyzer.parseSingleFileDiff fs repoPath file text staged None = Some record
    /\ diff_additions record = count_single (lit "+") text
    /\ diff_deletions record = count_single (lit "-") text
    /\ (diff_additions record
        = claimed_count (lit "+") text - tripled_in_hunks (lit "+") text)%Z
    /\ (diff_deletions record
        = claimed_count (lit "-") text - tripled_in_hunks (lit "-") text)%Z
    /\ (0 <= tripled_in_hunks (lit "+") text)%Z
    /\ (0 <= tripled_in_hunks (lit "-") text)%Z.
Proof.
  intros Hne.
  destruct (parse_not_blank fs repoPath file text staged Hne) as [size E].
  eexists. split; [exact E |].
  cbn [diff_additions diff_deletions]. rewrite count_lines_counts.
  cbn [fst snd GitAnalyzer.additions GitAnalyzer.deletions].
  pose proof (single_and_tripled (lit "+") (split text 10) true) as Hplus.
  pose proof (single_and_tripled (lit "-") (split text 10) true) as Hminus.
  unfold count_single, claimed_count, tripled_in_hunks.
  split; [reflexivity |]. split; [reflexivity |].
  split; [lia |]. split; [lia |].
  split; apply tripled_lines_nonneg.
Qed.

Lemma C6_line_counts_witness :
  trim C6Input.plain_change <> []
  /\ exists record,
       GitAnalyzer.parseSingleFileDiff (Fixtures.fs_of_size 10) (lit "/repo")
         (lit "f.js") C6Input.plain_change false None = Some record
       /\ diff_additions record = 2%Z
       /\ diff_deletions record = 1%Z
       /\ claimed_count (lit "+") C6Input.plain_change = 2%Z
       /\ claimed_count (lit "-") C6Input.plain_change = 1%Z.
Proof.
  split; [vm_compute; discriminate |].
  destruct (C6_line_counts (Fixtures.fs_of_size 10) (lit "/repo") (lit "f.js")
              C6Input.plain_change false)
    as (record & E & Ha & Hd & _); [vm_compute; discriminate |].
  exists record. split; [exact E |].
  split; [rewrite Ha; vm_compute; reflexivity |].
  split; [rewrite Hd; vm_compute; reflexivity |].
  split; vm_compute; reflexivity.
Defined.

(** C6, as the claim has it, fails on the diff of a line [--counter;]
    rewritten as [++counter;].  Besides the two lines of the file header, one
    line begins with a plus sign and one with a minus sign, so that the claim
    has 1 and 1; the record has 0 and 0, both lines beginning with three
    markers. *)
Lemma C6_counterexample :
  claimed_count (lit "+") C6Input.decrement_to_increment = 1%Z
  /\ claimed_count (lit "-") C6Input.decrement_to_increment = 1%Z
  /\ exists record,
       GitAnalyzer.parseSingleFileDiff (Fixtures.fs_of_size 10) (lit "/repo")
         (lit "counter.js") C6Input.decrement_to_increment false None
       = Some record
       /\ diff_additions record = 0%Z
       /\ diff_deletions record = 0%Z
       /\ diff_additions record
          <> claimed_count (lit "+") C6Input.decrement_to_increment
       /\ diff_deletions record
          <> claimed_count (lit "-") C6Input.decrement_to_increment.
Proof.
  split; [vm_compute; reflexivity |]. split; [vm_compute; reflexivity |].
  eexists. split; [vm_compute; reflexivity |].
  split; [reflexivity |]. split; [reflexivity |].
  split; vm_compute; discriminate.
Qed.

(** The two flags that [getCommitDiff] derives from the counts of a summary
    entry are never both set. *)
Lemma stats_of_summary_exclusive (f : SummaryFile) :
  GitAnalyzer.isNew (GitAnalyzer.stats_of_summary f)
  && GitAnalyzer.isDeleted (GitAnalyzer.stats_of_summary f) = false.
Proof.
  unfold GitAnalyzer.stats_of_summary. cbn [GitAnalyzer.isNew GitAnalyzer.isDeleted].
  destruct (Z.gtb_spec (or_default (sum_insertions f) 0) 0) as [Hgt | Hle];
    [| reflexivity].
  destruct (Z.eqb_spec (or_default (sum_insertions f) 0) 0) as [E | _];
    [lia |].
  rewrite andb_false_r. reflexivity.
Qed.

(** With statistics, the flags of the record are those of the statistics. *)
Lemma parse_with_stats_flags (fs : FileSystem) (repoPath file text : js_string)
    (staged : bool) (st : GitAnalyzer.Stats) (record : GitDiff) :
  GitAnalyzer.parseSingleFileDiff fs repoPath file text staged (Some st) = Some record ->
  diff_isNew record = GitAnalyzer.isNew st
  /\ diff_isDeleted record = GitAnalyzer.isDeleted st.
Proof.
  unfold GitAnalyzer.parseSingleFileDiff.
  destruct (trim text); [discriminate |].
  intros H. injection H as <-. split; reflexivity.
Qed.

(** C4, as the code has it.  In a diff text parsed without statistics, a line
    that starts with [new file mode] sets [isNew] and a line that starts with
    [deleted file mode] sets [isDeleted]; each flag is set by its own marker
    alone, so the other flag is false exactly when the text has no line with
    the other marker.  In commit-range mode, where the flags come from the
    insertion and deletion counts of the summary, they are never both set. *)
Theorem C4_new_and_deleted_flags (fs : FileSystem) (repoPath file text : js_string)
    (staged : bool) :
  (declares (lit "new file mode") text ->
   exists record,
     GitAnalyzer.parseSingleFileDiff fs repoPath file text staged None = Some record
     /\ diff_isNew record = true
     /\ (diff_isDeleted record = false <-> ~ declares (lit "deleted file mode") text))
  /\ (declares (lit "deleted file mode") text ->
      exists record,
        GitAnalyzer.parseSingleFileDiff fs repoPath file text staged None = Some record
        /\ diff_isDeleted record = true
        /\ (diff_isNew record = false <-> ~ declares (lit "new file mode") text))
  /\ (forall (f : SummaryFile) (record : GitDiff),
        GitAnalyzer.parseSingleFileDiff fs repoPath file text staged
          (Some (GitAnalyzer.stats_of_summary f)) = Some record ->
        ~ (diff_isNew record = true /\ diff_isDeleted record = true)).
Proof.
  assert (Hflag : forall marker,
            existsb (fun l => startsWith l marker) (split text 10) = false
            <-> ~ declares marker text).
  { intros marker. rewrite <- existsb_declares.
    destruct (existsb _ _); split; congruence. }
  split; [| split].
  - intros Hnew.
    destruct (parse_not_blank fs repoPath file text staged) as [size E].
    { apply (declares_not_blank (ch "n") (lit "ew file mode"));
        [reflexivity | exact Hnew]. }
    eexists. split; [exact E |]. cbn [diff_isNew diff_isDeleted].
    split; [apply existsb_declares; exact Hnew | apply Hflag].
  - intros Hdel.
    destruct (parse_not_blank fs repoPath file text staged) as [size E].
    { apply (declares_not_blank (ch "d") (lit "eleted file mode"));
        [reflexivity | exact Hdel]. }
    eexists. split; [exact E |]. cbn [diff_isNew diff_isDeleted].
    split; [apply existsb_declares; exact Hdel | apply Hflag].
  - intros f record H [Hn Hd].
    destruct (parse_with_stats_flags _ _ _ _ _ _ _ H) as [En Ed].
    pose proof (stats_of_summary_exclusive f) as X.
    rewrite <- En, <- Ed, Hn, Hd in X. discriminate.
Qed.

Lemma C4_new_and_deleted_flags_witness :
  (exists record,
     GitAnalyzer.parseSingleFileDiff (Fixtures.fs_of_size 6) (lit "/repo")
       (lit "a.txt") C4Input.created false None = Some record
     /\ diff_isNew record = true
     /\ (diff_isDeleted record = false
         <-> ~ declares (lit "deleted file mode") C4Input.created))
  /\ (exists record,
        GitAnalyzer.parseSingleFileDiff (Fixtures.fs_of_size 6) (lit "/repo")
          (lit "current") C4Input.typechange false None = Some record
        /\ diff_isDeleted record = true
        /\ (diff_isNew record = false
            <-> ~ declares (lit "new file mode") C4Input.typechange))
  /\ (exists record,
        GitAnalyzer.parseSingleFileDiff (Fixtures.fs_of_size 6) (lit "/repo")
          (lit "a.txt") C4Input.created false
          (Some (GitAnalyzer.stats_of_summary C4Input.added_only)) = Some record
        /\ ~ (diff_isNew record = true /\ diff_isDeleted record = true)).
Proof.
  split; [| split].
  - apply (C4_new_and_deleted_flags (Fixtures.fs_of_size 6) (lit "/repo")
             (lit "a.txt") C4Input.created false).
    apply existsb_declares. vm_compute. reflexivity.
  - apply (C4_new_and_deleted_flags (Fixtures.fs_of_size 6) (lit "/repo")
             (lit "current") C4Input.typechange false).
    apply existsb_declares. vm_compute. reflexivity.
  - eexists. split; [vm_compute; reflexivity |].
    apply (proj2 (proj2 (C4_new_and_deleted_flags (Fixtures.fs_of_size 6)
                           (lit "/repo") (lit "a.txt") C4Input.created false))
             C4Input.added_only).
    vm_compute. reflexivity.
Defined.

(** C4, as the claim has it, fails on a change of type: the text has a line
    with the [new file mode] marker, and the record has both flags set. *)
Lemma C4_counterexample :
  declares (lit "new file mode") C4Input.typechange
  /\ exists record,
       GitAnalyzer.parseSingleFileDiff (Fixtures.fs_of_size 6) (lit "/repo")
         (lit "current") C4Input.typechange false None = Some record
       /\ diff_isNew record = true
       /\ diff_isDeleted record = true.
Proof.
  split.
  - apply existsb_declares. vm_compute. reflexivity.
  - eexists. split; [vm_compute; reflexivity |]. split; reflexivity.
Qed.

(* ------------------------------------------------------------------------- *)
(** * The health probe *)
(* ------------------------------------------------------------------------- *)

Section HealthFacts.

Variable eng : Engine.
Variable config : ReviewConfig.
Variable tags : TagsService.

Lemma checkHealth_returns :
  exists health, AIReviewer.checkHealth eng config tags = Ok health.
Proof.
  unfold AIReviewer.checkHealth, try_catch.
  destruct (AIReviewer.checkHealth_body eng config tags); eauto.
Qed.

Lemma checkHealth_unreachable (e : Exn) :
  tags_outcome config tags = Throw e ->
  AIReviewer.checkHealth eng config tags = Ok (unavailable e).
Proof.
  unfold tags_outcome, AIReviewer.checkHealth, AIReviewer.checkHealth_body.
  intros ->. reflexivity.
Qed.

(** The own property of that name of an object, [undefined] on anything
    else. *)
Lemma get_prop_prop_of (v : value) (k : js_string) :
  v <> VNull -> v <> VUndefined -> get_prop eng v k = Ok (prop_of v k).
Proof.
  destruct v; intros H1 H2; try congruence; reflexivity.
Qed.

(** A value with a property that is not [undefined] is an object. *)
Lemma get_prop_defined (v : value) (k : js_string) :
  prop_of v k <> VUndefined -> get_prop eng v k = Ok (prop_of v k).
Proof.
  intros H. apply get_prop_prop_of; intros ->; apply H; reflexivity.
Qed.

Lemma some_name_includes (base : js_string) (items : list value)
    (names : list js_string) :
  Forall2 (fun item name => prop_of item (lit "name") = VStr name) items names ->
  someM (fun model =>
           bindE (get_prop eng model (lit "name"))
                 (fun name => AIReviewer.name_includes eng name base))
        items
  = Ok (existsb (fun n => includes n base) names).
Proof.
  induction 1 as [| item n items names Hn _ IH]; [reflexivity |].
  cbn [someM existsb].
  rewrite (get_prop_defined item (lit "name")) by (rewrite Hn; discriminate).
  rewrite Hn. cbn [bindE AIReviewer.name_includes].
  destruct (includes n base); [reflexivity | exact IH].
Qed.

Lemma names_listed (items : list value) (names : list js_string) :
  Forall2 (fun item name => prop_of item (lit "name") = VStr name) items names ->
  mapM (fun m => get_prop eng m (lit "name")) items = Ok (map VStr names).
Proof.
  induction 1 as [| item n items names Hn _ IH]; [reflexivity |].
  cbn [map mapM].
  rewrite (get_prop_defined item (lit "name")) by (rewrite Hn; discriminate).
  rewrite Hn, IH. reflexivity.
Qed.

Lemma join_names (names : list js_string) (sep : js_string) :
  join_values eng (map VStr names) sep = Ok (join names sep).
Proof.
  unfold join_values.
  assert (E : mapM (fun x => match x with
                             | VUndefined | VNull => Ok []
                             | _ => to_string eng x
                             end) (map VStr names) = Ok names).
  { induction names as [| n names IH]; [reflexivity |].
    cbn [map mapM to_string]. rewrite IH. reflexivity. }
  rewrite E. reflexivity.
Qed.

Lemma checkHealth_listing (data : value) (names : list js_string) :
  tags_outcome config tags = Ok data ->
  lists_names data names ->
  AIReviewer.checkHealth eng config tags = Ok (listing_health config names).
Proof.
  unfold tags_outcome, AIReviewer.checkHealth, AIReviewer.checkHealth_body.
  intros -> (items & Hmodels & Hnames). cbn [bindE].
  rewrite (get_prop_defined data (lit "models")) by (rewrite Hmodels; discriminate).
  rewrite Hmodels. cbn [bindE truthy].
  rewrite (some_name_includes _ items names Hnames). cbn [bindE].
  unfold listing_health.
  destruct (existsb _ names); cbn [negb]; [reflexivity |].
  rewrite (names_listed items names Hnames). cbn [bindE].
  rewrite join_names. reflexivity.
Qed.

(** The payload of names alone lists them. *)
Lemma models_payload_lists (names : list js_string) :
  lists_names (Fixtures.models_payload names) names.
Proof.
  exists (map (fun n => VObj [(lit "name", VStr n)]) names).
  split; [reflexivity |].
  induction names as [| n names IH]; constructor; [reflexivity | exact IH].
Qed.

End HealthFacts.

(** C9. Whatever the listing endpoint does, [checkHealth] returns a health
    value: no exception leaves it.  A failed request is answered with
    [isHealthy = false] and the message of the failure in [error]. *)
Theorem C9_probe_never_throws (eng : Engine) (config : ReviewConfig)
    (tags : TagsService) :
  (exists health, AIReviewer.checkHealth eng config tags = Ok health)
  /\ (forall e : Exn,
        tags_outcome config tags = Throw e ->
        AIReviewer.checkHealth eng config tags
        = Ok {| isHealthy := false;
                error := Some (lit "Ollama server unavailable: " ++ exn_message e) |}).
Proof.
  split.
  - apply checkHealth_returns.
  - intros e H. exact (checkHealth_unreachable eng config tags e H).
Qed.

Lemma C9_probe_never_throws_witness :
  (exists health,
     AIReviewer.checkHealth Fixtures.engine Cli.DEFAULT_CONFIG HealthInput.no_payload
     = Ok health)
  /\ AIReviewer.checkHealth Fixtures.engine Cli.DEFAULT_CONFIG HealthInput.refused
     = Ok {| isHealthy := false;
             error := Some (lit "Ollama server unavailable: "
                            ++ lit "connect ECONNREFUSED 127.0.0.1:11434") |}.
Proof.
  split.
  - exact (proj1 (C9_probe_never_throws Fixtures.engine Cli.DEFAULT_CONFIG
                    HealthInput.no_payload)).
  - apply (proj2 (C9_probe_never_throws Fixtures.engine Cli.DEFAULT_CONFIG
                    HealthInput.refused)
             {| exn_class := AxiosError;
                exn_code := Some (lit "ECONNREFUSED");
                exn_message := lit "connect ECONNREFUSED 127.0.0.1:11434" |}).
    reflexivity.
Defined.

(** C5, as the code has it.  [checkHealth] answers [isHealthy = false] with a
    cause when the listing request fails, and, on a payload that lists model
    names, exactly when no reported name contains the base name of the
    configured model (the part before the first colon) as a substring, at any
    position; on a listing with such a name it answers [isHealthy = true]. *)
Theorem C5_health_by_substring (eng : Engine) (config : ReviewConfig)
    (tags : TagsService) :
  (forall e : Exn,
     tags_outcome config tags = Throw e ->
     exists cause,
       AIReviewer.checkHealth eng config tags
       = Ok {| isHealthy := false; error := Some cause |})
  /\ (forall (data : value) (names : list js_string),
        tags_outcome config tags = Ok data ->
        lists_names data names ->
        exists health,
          AIReviewer.checkHealth eng config tags = Ok health
          /\ (isHealthy health = false
              <-> forall n, In n names ->
                    includes n (AIReviewer.base_name config) = false)
          /\ (isHealthy health = false -> exists cause, error health = Some cause)
          /\ (isHealthy health = true
              <-> exists n, In n names
                    /\ includes n (AIReviewer.base_name config) = true)).
Proof.
  split.
  - intros e H. eexists. exact (checkHealth_unreachable eng config tags e H).
  - intros data names H Hlist. exists (listing_health config names).
    split; [exact (checkHealth_listing eng config tags data names H Hlist) |].
    unfold listing_health.
    destruct (existsb (fun n => includes n (AIReviewer.base_name config)) names)
      eqn:E; cbn [isHealthy error].
    + apply existsb_exists in E. destruct E as (n & Hin & Hn).
      split; [| split]; try discriminate.
      * split; [discriminate |]. intros Hall. rewrite (Hall n Hin) in Hn.
        discriminate.
      * split; [intros _; exists n; split; assumption | reflexivity].
    + split; [| split].
      * split; [| reflexivity]. intros _ n Hin.
        destruct (includes n (AIReviewer.base_name config)) eqn:Hn;
          [| reflexivity].
        assert (existsb (fun n => includes n (AIReviewer.base_name config)) names
                = true) by (apply existsb_exists; eauto).
        congruence.
      * intros _. eauto.
      * split; [discriminate |]. intros (n & Hin & Hn).
        assert (existsb (fun n => includes n (AIReviewer.base_name config)) names
                = true) by (apply existsb_exists; eauto).
        congruence.
Qed.

Lemma C5_health_by_substring_witness :
  (exists cause,
     AIReviewer.checkHealth Fixtures.engine Cli.DEFAULT_CONFIG HealthInput.refused
     = Ok {| isHealthy := false; error := Some cause |})
  /\ (exists health,
        AIReviewer.checkHealth Fixtures.engine Cli.DEFAULT_CONFIG
          HealthInput.installed
        = Ok health
        /\ isHealthy health = true).
Proof.
  split.
  - apply (proj1 (C5_health_by_substring Fixtures.engine Cli.DEFAULT_CONFIG
                    HealthInput.refused)
             {| exn_class := AxiosError;
                exn_code := Some (lit "ECONNREFUSED");
                exn_message := lit "connect ECONNREFUSED 127.0.0.1:11434" |}).
    reflexivity.
  - destruct (proj2 (C5_health_by_substring Fixtures.engine Cli.DEFAULT_CONFIG
                       HealthInput.installed)
                _ [lit "llama3:8b"; lit "codellama:13b-instruct"] eq_refl)
      as (health & E & _ & _ & Hy).
    + eexists. split; [reflexivity |].
      constructor; [reflexivity |]. constructor; [reflexivity | constructor].
    + exists health. split; [exact E |].
      apply Hy. exists (lit "codellama:13b-instruct").
      split; [right; left; reflexivity | vm_compute; reflexivity].
Defined.

(** C5, as the claim has it, fails on a reachable service whose only model is
    [phind-codellama:34b] when [codellama:7b-instruct] is configured: no
    reported name starts with the base name [codellama] (none shares even its
    first character with it), and the probe answers [isHealthy = true]. *)
Lemma C5_counterexample :
  let names := [lit "phind-codellama:34b"] in
  let base := AIReviewer.base_name Cli.DEFAULT_CONFIG in
  base = lit "codellama"
  /\ tags_outcome Cli.DEFAULT_CONFIG (HealthInput.listing names)
     = Ok (Fixtures.models_payload names)
  /\ forallb (fun n => negb (startsWith n base)) names = true
  /\ forallb (fun n => negb (startsWith n (firstn 1 base))) names = true
  /\ AIReviewer.checkHealth Fixtures.engine Cli.DEFAULT_CONFIG
       (HealthInput.listing names)
     = Ok {| isHealthy := true; error := None |}.
Proof.
  cbv zeta. repeat split; vm_compute; reflexivity.
Qed.

(* ------------------------------------------------------------------------- *)
(** * The Model Client and the skips *)
(* ------------------------------------------------------------------------- *)

Section ClientFacts.

Variable eng : Engine.
Variable config : ReviewConfig.
Variable svc : Service.

Lemma reviewSingleFile_tooLarge (diff : GitDiff) (log : list GenerateRequest) :
  AIReviewer.tooLarge config diff = true ->
  AIReviewer.reviewSingleFile eng config svc diff log
  = (Ok [AIReviewer.tooLarge_result config diff], log).
Proof.
  intros H. unfold AIReviewer.reviewSingleFile. rewrite H. reflexivity.
Qed.

Lemma reviewSingleFile_binary (diff : GitDiff) (log : list GenerateRequest) :
  AIReviewer.tooLarge config diff = false ->
  diff_isBinary diff = true ->
  AIReviewer.reviewSingleFile eng config svc diff log
  = (Ok [AIReviewer.binary_result diff], log).
Proof.
  intros H1 H2. unfold AIReviewer.reviewSingleFile. rewrite H1, H2. reflexivity.
Qed.

(** The handler of [reviewSingleFile] rethrows, as it is or as a timeout: in
    both cases the log is the one it got. *)
Ltac rethrown e :=
  let code := fresh "code" in
  destruct (exn_code e) as [code |];
  [destruct (str_eqb code (lit "ECONNABORTED")) |];
  reflexivity.

(** A file that is neither oversized nor binary costs exactly one request. *)
Lemma reviewSingleFile_request (diff : GitDiff) (log : list GenerateRequest) :
  AIReviewer.tooLarge config diff = false ->
  diff_isBinary diff = false ->
  snd (AIReviewer.reviewSingleFile eng config svc diff log)
  = log ++ [AIReviewer.generate_request config diff].
Proof.
  intros H1 H2. unfold AIReviewer.reviewSingleFile. rewrite H1, H2.
  unfold io_try, io_bind, axios_post, io_lift, io_throw.
  destruct (svc log (AIReviewer.generate_request config diff)) as [data | e];
    [| rethrown e].
  destruct (get_prop eng data (lit "response")) as [reply | e]; [| rethrown e].
  destruct (AIReviewer.parseAIResponse eng (diff_file diff) reply) as [l | e];
    [reflexivity | rethrown e].
Qed.

(** The [review] loop passes over a binary or oversized file: no request and
    no finding. *)
Lemma review_loop_passes_over (diff : GitDiff) (rest : list GitDiff)
    (results : list ReviewResult) (log : list GenerateRequest) :
  diff_isBinary diff || AIReviewer.tooLarge config diff = true ->
  Cli.review_loop eng config svc (diff :: rest) results log
  = Cli.review_loop eng config svc rest results log.
Proof.
  intros H. cbn [Cli.review_loop]. rewrite H. reflexivity.
Qed.

Lemma tooLarge_exceeds (diff : GitDiff) (size limit : Z) :
  diff_fileSize diff = Some size ->
  maxFileSize config = Some limit ->
  (0 < limit < size)%Z ->
  AIReviewer.tooLarge config diff = true.
Proof.
  intros Hs Hl Hlt. unfold AIReviewer.tooLarge. rewrite Hs, Hl.
  destruct (Z.eqb_spec limit 0); [lia |].
  destruct (Z.eqb_spec size 0); [lia |].
  destruct (Z.gtb_spec size limit); [reflexivity | lia].
Qed.

End ClientFacts.

(** C1, as the code has it.  For a file that is neither oversized nor binary,
    [reviewSingleFile] issues exactly one generation request; its temperature
    is the configured one; its [num_predict] is the configured [maxTokens]
    capped at 2048 (and 2048 when [maxTokens] is 0), so it equals [maxTokens]
    only up to 2048; its timeout is the configured one, or 30000 ms when none
    or 0 is configured. *)
Theorem C1_request_parameters (eng : Engine) (config : ReviewConfig)
    (svc : Service) (diff : GitDiff) (log : list GenerateRequest) :
  AIReviewer.tooLarge config diff = false ->
  diff_isBinary diff = false ->
  exists request,
    snd (AIReviewer.reviewSingleFile eng config svc diff log) = log ++ [request]
    /\ req_temperature request = temperature config
    /\ (maxTokens config <> 0%Z ->
        req_num_predict request = Z.min (maxTokens config) 2048)
    /\ (maxTokens config = 0%Z -> req_num_predict request = 2048%Z)
    /\ ((0 < maxTokens config <= 2048)%Z ->
        req_num_predict request = maxTokens config)
    /\ (forall t, timeout config = Some t -> t <> 0%Z -> req_timeout request = t)
    /\ (timeout config = None \/ timeout config = Some 0%Z ->
        req_timeout request = 30000%Z).
Proof.
  intros H1 H2. exists (AIReviewer.generate_request config diff).
  split; [apply reviewSingleFile_request; assumption |].
  unfold AIReviewer.generate_request.
  cbn [req_temperature req_num_predict req_timeout].
  split; [reflexivity |].
  repeat split.
  - intros H. destruct (Z.eqb_spec (maxTokens config) 0); [contradiction | reflexivity].
  - intros ->. reflexivity.
  - intros H. destruct (Z.eqb_spec (maxTokens config) 0); lia.
  - intros t -> Ht. unfold or_default.
    destruct (Z.eqb_spec t 0); [contradiction | reflexivity].
  - intros [-> | ->]; reflexivity.
Qed.

Lemma C1_request_parameters_witness :
  exists request,
    snd (AIReviewer.reviewSingleFile Fixtures.engine Cli.DEFAULT_CONFIG
           ClientInput.no_issues ClientInput.small []) = [] ++ [request]
    /\ req_temperature request = temperature Cli.DEFAULT_CONFIG
    /\ req_num_predict request = 2048%Z
    /\ req_timeout request = 120000%Z.
Proof.
  destruct (C1_request_parameters Fixtures.engine Cli.DEFAULT_CONFIG
              ClientInput.no_issues ClientInput.small [] eq_refl eq_refl)
    as (request & Hlog & Htemp & _ & _ & Hnp & Ht & _).
  exists request. split; [exact Hlog |]. split; [exact Htemp |].
  split.
  - apply Hnp. cbn. lia.
  - apply (Ht 120000%Z); [reflexivity | discriminate].
Defined.

(** C1, as the claim has it, fails for a configured budget of 4096 tokens: the
    one request asks for 2048. *)
Lemma C1_counterexample :
  maxTokens ClientInput.generous = 4096%Z
  /\ AIReviewer.tooLarge ClientInput.generous ClientInput.small = false
  /\ diff_isBinary ClientInput.small = false
  /\ exists request,
       snd (AIReviewer.reviewSingleFile Fixtures.engine ClientInput.generous
              ClientInput.no_issues ClientInput.small []) = [request]
       /\ req_num_predict request = 2048%Z
       /\ req_num_predict request <> maxTokens ClientInput.generous.
Proof.
  split; [reflexivity |]. split; [reflexivity |]. split; [reflexivity |].
  eexists. split; [vm_compute; reflexivity |].
  split; [reflexivity | discriminate].
Qed.

(** For a file whose size is known and exceeds a positive configured limit,
    [reviewSingleFile] issues no request and answers with exactly one finding
    for the file, of severity warning, whose message names the size and the
    limit; so does [reviewChanges] unless a pattern excludes the file. *)
Lemma oversized_file_is_warned (eng : Engine) (config : ReviewConfig) (svc : Service)
    (diff : GitDiff) (size limit : Z) (log : list GenerateRequest) :
  diff_fileSize diff = Some size ->
  maxFileSize config = Some limit ->
  (0 < limit < size)%Z ->
  let warning :=
    {| res_file := diff_file diff;
       res_severity := SevWarning;
       res_line := VUndefined;
       res_message := VStr (lit "File too large for analysis (" ++ of_Z size
                            ++ lit " bytes, limit: " ++ of_Z limit ++ lit " bytes)");
       res_suggestion := VUndefined;
       res_category := VUndefined |} in
  AIReviewer.reviewSingleFile eng config svc diff log = (Ok [warning], log)
  /\ (AIReviewer.shouldSkipFile eng config diff = Ok false ->
      AIReviewer.reviewChanges eng config svc [diff] log = (Ok [warning], log)).
Proof.
  intros Hs Hl Hlt warning.
  pose proof (tooLarge_exceeds config diff size limit Hs Hl Hlt) as Hbig.
  assert (Hw : AIReviewer.tooLarge_result config diff = warning).
  { unfold AIReviewer.tooLarge_result, warning. rewrite Hs, Hl. reflexivity. }
  assert (H1 : AIReviewer.reviewSingleFile eng config svc diff log
               = (Ok [warning], log)).
  { rewrite reviewSingleFile_tooLarge by exact Hbig. rewrite Hw. reflexivity. }
  split; [exact H1 |].
  intros Hskip. unfold AIReviewer.reviewChanges.
  cbn [AIReviewer.reviewChanges_loop]. unfold io_bind, io_lift, io_try.
  rewrite Hskip, H1. reflexivity.
Qed.

(** The loop of the [review] command runs as if a binary or oversized file
    were not in the list, wherever the file stands in it. *)
Lemma review_loop_without (eng : Engine) (config : ReviewConfig) (svc : Service)
    (diff : GitDiff) (before after : list GitDiff) :
  diff_isBinary diff || AIReviewer.tooLarge config diff = true ->
  forall (results : list ReviewResult) (log : list GenerateRequest),
    Cli.review_loop eng config svc (before ++ diff :: after) results log
    = Cli.review_loop eng config svc (before ++ after) results log.
Proof.
  intros Hskip. induction before as [| d before IH]; intros results log.
  - apply review_loop_passes_over. exact Hskip.
  - cbn [app Cli.review_loop].
    destruct (diff_isBinary d || AIReviewer.tooLarge config d); [apply IH |].
    unfold io_bind.
    destruct (io_try (AIReviewer.reviewChanges eng config svc [d])
                (fun _ => io_ret []) log) as [[fileResults | e] log'];
      [apply IH | reflexivity].
Qed.

(** A binary or oversized file adds one to the number of skipped files. *)
Lemma skippedFiles_counts (config : ReviewConfig) (diff : GitDiff)
    (before after : list GitDiff) :
  diff_isBinary diff || AIReviewer.tooLarge config diff = true ->
  Cli.skippedFiles config (before ++ diff :: after)
  = S (Cli.skippedFiles config (before ++ after)).
Proof.
  intros Hskip. unfold Cli.skippedFiles.
  rewrite !filter_app, !length_app. cbn [filter]. rewrite Hskip.
  cbn [length]. lia.
Qed.

(** [reviewChanges] issues no request for an oversized file, whatever
    [shouldSkipFile] does. *)
Lemma reviewChanges_oversized_log (eng : Engine) (config : ReviewConfig)
    (svc : Service) (diff : GitDiff) (log : list GenerateRequest) :
  AIReviewer.tooLarge config diff = true ->
  snd (AIReviewer.reviewChanges eng config svc [diff] log) = log.
Proof.
  intros Hbig. unfold AIReviewer.reviewChanges.
  cbn [AIReviewer.reviewChanges_loop]. unfold io_bind, io_lift, io_try.
  destruct (AIReviewer.shouldSkipFile eng config diff) as [[|] | e];
    [reflexivity | | reflexivity].
  rewrite (reviewSingleFile_tooLarge eng config svc diff log Hbig). reflexivity.
Qed.

(** C2, as the code has it.  For a file whose size is known and exceeds a
    positive configured limit, no generation request is issued.
    [reviewSingleFile], and [reviewChanges] unless a pattern excludes the
    file, answer with exactly one finding for the file, of severity warning,
    whose message names the size and the limit.  The [review] command passes
    the file over before it calls [reviewChanges]: it counts the file among
    the skipped files it announces, and its findings and requests are those of
    the run without the file, so that its report has no finding for it. *)
Theorem C2_oversized_file_is_passed_over (eng : Engine) (config : ReviewConfig)
    (svc : Service) (diff : GitDiff) (size limit : Z)
    (before after : list GitDiff) (results : list ReviewResult)
    (log : list GenerateRequest) :
  diff_fileSize diff = Some size ->
  maxFileSize config = Some limit ->
  (0 < limit < size)%Z ->
  let warning :=
    {| res_file := diff_file diff;
       res_severity := SevWarning;
       res_line := VUndefined;
       res_message := VStr (lit "File too large for analysis (" ++ of_Z size
                            ++ lit " bytes, limit: " ++ of_Z limit ++ lit " bytes)");
       res_suggestion := VUndefined;
       res_category := VUndefined |} in
  AIReviewer.reviewSingleFile eng config svc diff log = (Ok [warning], log)
  /\ snd (AIReviewer.reviewChanges eng config svc [diff] log) = log
  /\ (AIReviewer.shouldSkipFile eng config diff = Ok false ->
      AIReviewer.reviewChanges eng config svc [diff] log = (Ok [warning], log))
  /\ Cli.review_loop eng config svc (before ++ diff :: after) results log
     = Cli.review_loop eng config svc (before ++ after) results log
  /\ Cli.skippedFiles config (before ++ diff :: after)
     = S (Cli.skippedFiles config (before ++ after))
  /\ (forall quiet : bool,
        Cli.review_report eng config svc [diff] quiet log
        = (Ok ((if quiet then [] else [Cli.FoundFiles 1 1]) ++ [Cli.NoIssues], None),
           log)).
Proof.
  intros Hs Hl Hlt warning.
  pose proof (tooLarge_exceeds config diff size limit Hs Hl Hlt) as Hbig.
  assert (Hskip : diff_isBinary diff || AIReviewer.tooLarge config diff = true)
    by (rewrite Hbig; apply orb_true_r).
  destruct (oversized_file_is_warned eng config svc diff size limit log Hs Hl Hlt)
    as [Hone Hchanges].
  split; [exact Hone |].
  split; [exact (reviewChanges_oversized_log eng config svc diff log Hbig) |].
  split; [exact Hchanges |].
  split; [exact (review_loop_without eng config svc diff before after Hskip
                   results log) |].
  split; [exact (skippedFiles_counts config diff before after Hskip) |].
  intros quiet. unfold Cli.review_report, Cli.skippedFiles, io_bind.
  rewrite (review_loop_passes_over eng config svc diff [] [] log Hskip).
  cbn [Cli.review_loop io_ret io_lift Cli.displayResults filter fst snd].
  rewrite Hskip. reflexivity.
Qed.

Lemma C2_oversized_file_is_passed_over_witness :
  AIReviewer.reviewSingleFile Fixtures.engine Cli.DEFAULT_CONFIG
    ClientInput.no_issues ClientInput.big []
  = (Ok [Fixtures.finding (lit "src/bundle.js") SevWarning
           (lit "File too large for analysis (600000 bytes, limit: 500000 bytes)")],
     [])
  /\ Cli.review_loop Fixtures.engine Cli.DEFAULT_CONFIG ClientInput.no_issues
       ([ClientInput.small] ++ ClientInput.big :: []) [] []
     = Cli.review_loop Fixtures.engine Cli.DEFAULT_CONFIG ClientInput.no_issues
         ([ClientInput.small] ++ []) [] []
  /\ Cli.skippedFiles Cli.DEFAULT_CONFIG ([ClientInput.small] ++ ClientInput.big :: [])
     = S (Cli.skippedFiles Cli.DEFAULT_CONFIG ([ClientInput.small] ++ [])).
Proof.
  pose proof (C2_oversized_file_is_passed_over Fixtures.engine Cli.DEFAULT_CONFIG
                ClientInput.no_issues ClientInput.big 600000 500000
                [ClientInput.small] [] [] []
                eq_refl eq_refl (conj eq_refl eq_refl)) as H.
  cbv zeta in H. destruct H as (Hone & _ & _ & Hloop & Hcount & _).
  split; [exact Hone |]. split; [exact Hloop | exact Hcount].
Defined.

(** C2, as the claim has it, fails on the [review] command for a file of
    600000 bytes under the default limit of 500000: the command issues no
    request, announces one file of which one is skipped, and writes that no
    issues were found.  No line of its report is a finding, where the claim
    has exactly one warning for the file. *)
Lemma C2_counterexample :
  diff_fileSize ClientInput.big = Some 600000%Z
  /\ maxFileSize Cli.DEFAULT_CONFIG = Some 500000%Z
  /\ Cli.review_report Fixtures.engine Cli.DEFAULT_CONFIG ClientInput.no_issues
       [ClientInput.big] false []
     = (Ok ([Cli.FoundFiles 1 1; Cli.NoIssues], None), [])
  /\ printed [Cli.FoundFiles 1 1; Cli.NoIssues] = [].
Proof.
  split; [reflexivity |]. split; [reflexivity |].
  split; [vm_compute; reflexivity | reflexivity].
Qed.

(** C10, as the code has it.  A diff text that contains [differ] anywhere
    gives a record with [isBinary = true], and no generation request is issued
    for it.  [reviewSingleFile] answers with the one informational finding
    [Binary file skipped] unless the file is also oversized, which is tested
    first and answered with the warning of an oversized file. *)
Theorem C10_differ_means_binary (fs : FileSystem) (repoPath file text : js_string)
    (staged : bool) (stats : option GitAnalyzer.Stats) :
  includes text (lit "differ") = true ->
  exists record,
    GitAnalyzer.parseSingleFileDiff fs repoPath file text staged stats = Some record
    /\ diff_file record = file
    /\ diff_isBinary record = true
    /\ forall (eng : Engine) (config : ReviewConfig) (svc : Service)
              (log : list GenerateRequest),
         (AIReviewer.tooLarge config record = false ->
          AIReviewer.reviewSingleFile eng config svc record log
          = (Ok [ {| res_file := file;
                     res_severity := SevInfo;
                     res_line := VUndefined;
                     res_message := VStr (lit "Binary file skipped");
                     res_suggestion := VUndefined;
                     res_category := VUndefined |} ], log))
         /\ (AIReviewer.tooLarge config record = true ->
             AIReviewer.reviewSingleFile eng config svc record log
             = (Ok [AIReviewer.tooLarge_result config record], log)).
Proof.
  intros Hd.
  assert (Hne : trim text <> []).
  { apply (trim_not_blank text (ch "d")); [| reflexivity].
    exact (includes_head text (lit "iffer") (ch "d") Hd). }
  unfold GitAnalyzer.parseSingleFileDiff.
  destruct (trim text) as [| c t]; [congruence |].
  rewrite Hd, orb_true_r.
  eexists. split; [reflexivity |].
  cbn [diff_file diff_isBinary].
  split; [reflexivity |]. split; [reflexivity |].
  intros eng config svc log. split.
  - intros Hsmall. rewrite reviewSingleFile_binary by (exact Hsmall || reflexivity).
    reflexivity.
  - intros Hbig. apply reviewSingleFile_tooLarge. exact Hbig.
Qed.

Lemma C10_differ_means_binary_witness :
  exists record,
    GitAnalyzer.parseSingleFileDiff (Fixtures.fs_of_size 120) (lit "/repo")
      (lit "notes.js") BinaryInput.prose false None = Some record
    /\ diff_isBinary record = true
    /\ AIReviewer.reviewSingleFile Fixtures.engine Cli.DEFAULT_CONFIG
         ClientInput.no_issues record []
       = (Ok [Fixtures.finding (lit "notes.js") SevInfo (lit "Binary file skipped")], []).
Proof.
  destruct (C10_differ_means_binary (Fixtures.fs_of_size 120) (lit "/repo")
              (lit "notes.js") BinaryInput.prose false None eq_refl)
    as (record & E & Hf & Hb & H).
  exists record. split; [exact E |]. split; [exact Hb |].
  apply (H Fixtures.engine Cli.DEFAULT_CONFIG ClientInput.no_issues []).
  vm_compute in E. injection E as <-. reflexivity.
Defined.

(** C10, as the claim has it, fails for a file of 600000 bytes under the
    default limit: its diff contains [differ], the record is binary, and the
    one finding [reviewSingleFile] returns is the warning of an oversized
    file, not the informational [Binary file skipped]. *)
Lemma C10_counterexample :
  includes BinaryInput.prose (lit "differ") = true
  /\ exists record finding,
       GitAnalyzer.parseSingleFileDiff (Fixtures.fs_of_size 600000) (lit "/repo")
         (lit "notes.js") BinaryInput.prose false None = Some record
       /\ diff_isBinary record = true
       /\ AIReviewer.reviewSingleFile Fixtures.engine Cli.DEFAULT_CONFIG
            ClientInput.no_issues record [] = (Ok [finding], [])
       /\ res_severity finding = SevWarning
       /\ res_message finding
          = VStr (lit "File too large for analysis (600000 bytes, limit: 500000 bytes)")
       /\ res_message finding <> VStr (lit "Binary file skipped").
Proof.
  split; [vm_compute; reflexivity |].
  eexists. eexists. split; [vm_compute; reflexivity |].
  split; [reflexivity |]. split; [vm_compute; reflexivity |].
  split; [reflexivity |]. split; [vm_compute; reflexivity |].
  vm_compute. discriminate.
Qed.

(* ------------------------------------------------------------------------- *)
(** * The report: grouping and order *)
(* ------------------------------------------------------------------------- *)

Section GroupingFacts.

Lemma mem_In (x : js_string) (l : list js_string) : mem x l = true <-> In x l.
Proof.
  unfold mem. rewrite existsb_exists. split.
  - intros (y & Hy & E). apply str_eqb_eq in E. subst. exact Hy.
  - intros H. exists x. split; [exact H | apply str_eqb_refl].
Qed.

Lemma mem_not_In (x : js_string) (l : list js_string) : mem x l = false <-> ~ In x l.
Proof.
  rewrite <- mem_In. destruct (mem x l); split; congruence.
Qed.

Lemma first_seen_snoc (l : list js_string) (x : js_string) :
  first_seen (l ++ [x])
  = if mem x (first_seen l) then first_seen l else first_seen l ++ [x].
Proof. unfold first_seen. rewrite fold_left_app. reflexivity. Qed.

Lemma first_seen_In (l : list js_string) (x : js_string) :
  In x (first_seen l) <-> In x l.
Proof.
  induction l as [| y l IH] using rev_ind; [reflexivity |].
  rewrite first_seen_snoc, in_app_iff.
  destruct (mem y (first_seen l)) eqn:E.
  - rewrite IH. split; [tauto |].
    intros [H | [<- | []]]; [exact H |]. apply IH, mem_In, E.
  - rewrite in_app_iff, IH. reflexivity.
Qed.

Lemma first_seen_NoDup (l : list js_string) : NoDup (first_seen l).
Proof.
  induction l as [| y l IH] using rev_ind; [constructor |].
  rewrite first_seen_snoc.
  destruct (mem y (first_seen l)) eqn:E; [exact IH |].
  apply mem_not_In in E.
  apply NoDup_app; [exact IH | constructor; [intros [] | constructor] |].
  intros a Ha [<- | []]. exact (E Ha).
Qed.

Lemma get_keyed (h : js_string -> list ReviewResult) (ks : list js_string)
    (k : js_string) :
  JsObject.get (map (fun f => (f, h f)) ks) k
  = if mem k ks then Some (h k) else None.
Proof.
  induction ks as [| k' ks IH]; [reflexivity |].
  cbn [map JsObject.get mem existsb].
  destruct (str_eqb k' k) eqn:E.
  - apply str_eqb_eq in E. subst. rewrite str_eqb_refl. reflexivity.
  - assert (E' : str_eqb k k' = false).
    { apply str_eqb_neq. apply str_eqb_neq in E. congruence. }
    rewrite E'. exact IH.
Qed.

Lemma set_absent (h : js_string -> list ReviewResult) (ks : list js_string)
    (k : js_string) (v : list ReviewResult) :
  ~ In k ks ->
  JsObject.set (map (fun f => (f, h f)) ks) k v
  = map (fun f => (f, h f)) ks ++ [(k, v)].
Proof.
  induction ks as [| k' ks IH]; intros Hk; [reflexivity |].
  cbn [map JsObject.set app].
  destruct (str_eqb k' k) eqn:E.
  - apply str_eqb_eq in E. subst. exfalso. apply Hk. left. reflexivity.
  - rewrite IH; [reflexivity |]. intros H. apply Hk. right. exact H.
Qed.

Lemma set_present (h : js_string -> list ReviewResult) (ks : list js_string)
    (k : js_string) (v : list ReviewResult) :
  NoDup ks -> In k ks ->
  JsObject.set (map (fun f => (f, h f)) ks) k v
  = map (fun f => (f, if str_eqb f k then v else h f)) ks.
Proof.
  induction ks as [| k' ks IH]; intros Hnd Hk; [destruct Hk |].
  inversion Hnd as [| ? ? Hnotin Hnd']; subst.
  cbn [map JsObject.set].
  destruct (str_eqb k' k) eqn:E.
  - apply str_eqb_eq in E. subst. f_equal.
    apply map_ext_in. intros a Ha.
    destruct (str_eqb a k) eqn:E'; [| reflexivity].
    apply str_eqb_eq in E'. subst. contradiction.
  - f_equal. apply IH; [exact Hnd' |].
    destruct Hk as [-> | Hk]; [| exact Hk].
    rewrite str_eqb_refl in E. discriminate.
Qed.

Lemma of_file_snoc (f : js_string) (l : list ReviewResult) (r : ReviewResult) :
  of_file f (l ++ [r])
  = of_file f l ++ (if str_eqb (res_file r) f then [r] else []).
Proof. unfold of_file. rewrite filter_app. reflexivity. Qed.

Lemma of_file_absent (f : js_string) (l : list ReviewResult) :
  ~ In f (map res_file l) -> of_file f l = [].
Proof.
  induction l as [| r l IH]; intros H; [reflexivity |].
  unfold of_file. cbn [filter].
  destruct (str_eqb (res_file r) f) eqn:E.
  - apply str_eqb_eq in E. exfalso. apply H. left. exact E.
  - apply IH. intros Hin. apply H. right. exact Hin.
Qed.

Lemma reduceM_snoc {A B} (f : B -> A -> Exc B) (l : list A) (a : A) (acc : B) :
  Cli.reduceM f (l ++ [a]) acc
  = bindE (Cli.reduceM f l acc) (fun acc' => f acc' a).
Proof.
  revert acc. induction l as [| x l IH]; intros acc; cbn [app Cli.reduceM bindE].
  - destruct (f acc a); reflexivity.
  - destruct (f acc x); [apply IH | reflexivity].
Qed.

Variable eng : Engine.

(** When no file path is a name that objects inherit, [groupByFile] builds the
    groups in first-seen order. *)
Lemma groupByFile_groups (results : list ReviewResult) :
  (forall r, In r results -> JsObject.inherited (res_file r) = false) ->
  Cli.groupByFile eng results = Ok (groups results).
Proof.
  unfold Cli.groupByFile.
  induction results as [| r l IH] using rev_ind; intros Hplain; [reflexivity |].
  rewrite reduceM_snoc, IH by (intros x Hx; apply Hplain, in_or_app; left; exact Hx).
  cbn [bindE]. unfold Cli.group_step, groups.
  rewrite get_keyed, (map_app res_file). cbn [map]. rewrite first_seen_snoc.
  destruct (mem (res_file r) (first_seen (map res_file l))) eqn:E.
  - rewrite set_present
      by (apply first_seen_NoDup || (apply mem_In; exact E)).
    f_equal. apply map_ext. intros g. rewrite of_file_snoc.
    destruct (str_eqb g (res_file r)) eqn:Eg.
    + apply str_eqb_eq in Eg. subst g. rewrite str_eqb_refl. reflexivity.
    + assert (Eg' : str_eqb (res_file r) g = false).
      { apply str_eqb_neq. apply str_eqb_neq in Eg. congruence. }
      rewrite Eg', app_nil_r. reflexivity.
  - rewrite (Hplain r) by (apply in_or_app; right; left; reflexivity).
    apply mem_not_In in E.
    rewrite set_absent by exact E.
    rewrite map_app. cbn [map]. f_equal. f_equal.
    + apply map_ext_in. intros g Hg. rewrite of_file_snoc.
      destruct (str_eqb (res_file r) g) eqn:Eg; [| rewrite app_nil_r; reflexivity].
      apply str_eqb_eq in Eg. subst g. contradiction.
    + rewrite of_file_snoc, str_eqb_refl.
      rewrite of_file_absent; [reflexivity |].
      intros H. apply E. apply first_seen_In. exact H.
Qed.


End GroupingFacts.

Section OrderFacts.









End OrderFacts.




(** A file named as a property that objects inherit stops the report:
    [groupByFile] reads the inherited function where it expects a list. *)
Example displayResults_inherited_name :
  Cli.displayResults Fixtures.engine
    [Fixtures.finding (lit "constructor") SevInfo (lit "first")] false
  = Throw (type_error Fixtures.engine (NotAFunction (lit "push"))).
Proof. vm_compute. reflexivity. Qed.

(* ------------------------------------------------------------------------- *)
(** * Further properties: strings *)
(* ------------------------------------------------------------------------- *)

Section TrimFacts.

Lemma forallb_rev {A} (f : A -> bool) (l : list A) :
  forallb f (rev l) = forallb f l.
Proof.
  induction l as [| x l IH]; [reflexivity |].
  cbn [rev forallb]. rewrite forallb_app, IH. cbn [forallb].
  rewrite andb_true_r. apply andb_comm.
Qed.

Lemma trimStart_blank (s : js_string) :
  trimStart s = [] <-> forallb is_ws s = true.
Proof.
  induction s as [| c s IH]; [split; reflexivity |].
  cbn [trimStart forallb]. destruct (is_ws c); [exact IH |].
  split; discriminate.
Qed.

Lemma trimStart_fixed (c : N) (s : js_string) :
  is_ws c = false -> trimStart (c :: s) = c :: s.
Proof. intros H. cbn [trimStart]. rewrite H. reflexivity. Qed.

(** [trimStart] removes a prefix of white space. *)
Lemma trimStart_prefix (s : js_string) :
  exists w, s = w ++ trimStart s /\ forallb is_ws w = true.
Proof.
  induction s as [| c s (w & E & Hw)]; [exists []; split; reflexivity |].
  cbn [trimStart]. destruct (is_ws c) eqn:Hc.
  - exists (c :: w). cbn [app forallb]. rewrite Hc, Hw, <- E. split; reflexivity.
  - exists []. split; reflexivity.
Qed.

(** [trimEnd] removes a suffix of white space. *)
Lemma trimEnd_suffix (s : js_string) :
  exists w, s = trimEnd s ++ w /\ forallb is_ws w = true.
Proof.
  unfold trimEnd. destruct (trimStart_prefix (rev s)) as (w & E & Hw).
  exists (rev w). split; [| rewrite forallb_rev; exact Hw].
  rewrite <- rev_app_distr, <- E, rev_involutive. reflexivity.
Qed.

Lemma trim_blank (s : js_string) :
  trim s = [] <-> forallb is_ws s = true.
Proof.
  unfold trim, trimEnd. split.
  - intros H. apply (f_equal (@rev N)) in H. rewrite rev_involutive in H.
    cbn [rev] in H. apply trimStart_blank in H. rewrite forallb_rev in H.
    destruct (trimStart_head s) as [E | (c & r & E & Hc)].
    + apply trimStart_blank. exact E.
    + rewrite E in H. cbn [forallb] in H. rewrite Hc in H. discriminate.
  - intros H. apply trimStart_blank in H. rewrite H. reflexivity.
Qed.

Lemma trimEnd_head (c : N) (s : js_string) :
  is_ws c = false -> exists r, trimEnd (c :: s) = c :: r.
Proof.
  intros Hc. destruct (trimEnd_suffix (c :: s)) as (w & E & Hw).
  destruct (trimEnd (c :: s)) as [| x r] eqn:Et.
  - cbn [app] in E. subst w. cbn [forallb] in Hw. rewrite Hc in Hw. discriminate.
  - cbn [app] in E. injection E as <- _. eauto.
Qed.

Lemma trimStart_trimEnd_fixed (t : js_string) :
  trimStart t = t -> trimStart (trimEnd t) = trimEnd t.
Proof.
  intros Ht. destruct t as [| c t']; [reflexivity |].
  destruct (is_ws c) eqn:Hc.
  - exfalso. destruct (trimStart_head (c :: t')) as [E | (x & r & E & Hx)].
    + rewrite Ht in E. discriminate.
    + rewrite Ht in E. injection E as <- _. congruence.
  - destruct (trimEnd_head c t' Hc) as [r E]. rewrite E.
    apply trimStart_fixed. exact Hc.
Qed.

Lemma trimStart_idem (s : js_string) : trimStart (trimStart s) = trimStart s.
Proof.
  destruct (trimStart_head s) as [E | (c & r & E & Hc)]; rewrite E;
    [reflexivity | apply trimStart_fixed; exact Hc].
Qed.

Lemma trimEnd_idem (s : js_string) : trimEnd (trimEnd s) = trimEnd s.
Proof.
  unfold trimEnd. rewrite rev_involutive, trimStart_idem. reflexivity.
Qed.

(** Trimming a trimmed text changes nothing. *)
Lemma trim_idem (s : js_string) : trim (trim s) = trim s.
Proof.
  unfold trim.
  rewrite (trimStart_trimEnd_fixed (trimStart s) (trimStart_idem s)).
  apply trimEnd_idem.
Qed.

Lemma In_trimStart (c : N) (s : js_string) : In c (trimStart s) -> In c s.
Proof.
  destruct (trimStart_prefix s) as (w & E & _). intros H.
  rewrite E. apply in_or_app. right. exact H.
Qed.

Lemma In_trimEnd (c : N) (s : js_string) : In c (trimEnd s) -> In c s.
Proof.
  destruct (trimEnd_suffix s) as (w & E & _). intros H.
  rewrite E. apply in_or_app. left. exact H.
Qed.

Lemma In_trim (c : N) (s : js_string) : In c (trim s) -> In c s.
Proof. intros H. apply In_trimStart, In_trimEnd, H. Qed.

End TrimFacts.

Section PrefixFacts.

Lemma startsWith_app (p rest : js_string) : startsWith (p ++ rest) p = true.
Proof.
  induction p as [| c p IH]; [destruct rest; reflexivity |].
  cbn [app startsWith]. rewrite N.eqb_refl. exact IH.
Qed.

Lemma includes_prefix (p rest : js_string) : includes (p ++ rest) p = true.
Proof.
  unfold includes. destruct (p ++ rest) as [| c s] eqn:E.
  - cbn [indexOf]. rewrite <- E, startsWith_app. reflexivity.
  - cbn [indexOf]. rewrite <- E, startsWith_app. reflexivity.
Qed.

(** The first piece of a split is a prefix of the text. *)
Lemma split_hd_prefix (s : js_string) (c : N) :
  exists rest, s = hd [] (split s c) ++ rest.
Proof.
  induction s as [| x s (rest & IH)]; [exists []; reflexivity |].
  cbn [split]. destruct (N.eqb x c); [exists (x :: s); reflexivity |].
  destruct (split s c) as [| l ls]; cbn [hd app] in *.
  - exists s. reflexivity.
  - exists rest. rewrite <- IH. reflexivity.
Qed.

End PrefixFacts.

(* ------------------------------------------------------------------------- *)
(** * Further properties: the Diff Extractor *)
(* ------------------------------------------------------------------------- *)

Section ExtractorMore.

Variable fs : FileSystem.
Variable repoPath : js_string.

Lemma parse_nothing_blank (file text : js_string) (staged : bool)
    (stats : option GitAnalyzer.Stats) :
  GitAnalyzer.parseSingleFileDiff fs repoPath file text staged stats = None
  <-> forallb is_ws text = true.
Proof.
  rewrite <- trim_blank. unfold GitAnalyzer.parseSingleFileDiff.
  destruct (trim text); split; congruence.
Qed.

(** X1. [parseSingleFileDiff] gives no record exactly for a text that is empty
    or all white space, with or without statistics. *)
Theorem parse_nothing_iff_blank (file text : js_string) (staged : bool)
    (stats : option GitAnalyzer.Stats) :
  GitAnalyzer.parseSingleFileDiff fs repoPath file text staged stats = None
  <-> forallb is_ws text = true.
Proof. apply parse_nothing_blank. Qed.

(** X2. The record has a size only for a file that exists in the working tree,
    is not flagged deleted and whose [stat] succeeds; the size is the one
    [stat] gives. *)
Theorem fileSize_only_when_present (file text : js_string) (staged : bool)
    (stats : option GitAnalyzer.Stats) (record : GitDiff) (size : Z) :
  GitAnalyzer.parseSingleFileDiff fs repoPath file text staged stats = Some record ->
  diff_fileSize record = Some size ->
  existsSync fs (path_join fs repoPath file) = true
  /\ diff_isDeleted record = false
  /\ statSync_size fs (path_join fs repoPath file) = Ok size.
Proof.
  unfold GitAnalyzer.parseSingleFileDiff.
  destruct (trim text); [discriminate |].
  intros H. injection H as <-. cbn [diff_fileSize diff_isDeleted].
  destruct (existsSync fs (path_join fs repoPath file)); [| discriminate].
  match goal with
  | |- context [negb ?b] => destruct b; cbn [andb negb]; [discriminate |]
  end.
  destruct (statSync_size fs (path_join fs repoPath file)) as [z | e];
    [| discriminate].
  intros H. injection H as ->. repeat split.
Qed.

Lemma exclusive_filters {A} (p q : A -> bool) (l : list A) :
  (forall x, p x && q x = false) ->
  length (filter p l) + length (filter q l) <= length l.
Proof.
  intros H. induction l as [| x l IH]; [reflexivity |].
  cbn [filter length]. specialize (H x).
  destruct (p x), (q x); cbn [length]; try discriminate; lia.
Qed.

Lemma not_both_markers (line : js_string) :
  begins_with_single (lit "+") line && begins_with_single (lit "-") line = false.
Proof.
  unfold begins_with_single.
  change (lit "+") with [43%N]. change (lit "-") with [45%N].
  destruct line as [| c line]; [reflexivity |].
  cbn [startsWith app].
  destruct (N.eqb_spec 43 c) as [<- | ?]; [| reflexivity].
  change (N.eqb 45 43) with false. cbn [andb]. apply andb_false_r.
Qed.

(** X3. Without statistics the two counts are not negative, and together they
    are at most the number of lines of the text: no line counts twice. *)
Theorem counts_within_lines (file text : js_string) (staged : bool)
    (record : GitDiff) :
  GitAnalyzer.parseSingleFileDiff fs repoPath file text staged None = Some record ->
  (0 <= diff_additions record)%Z
  /\ (0 <= diff_deletions record)%Z
  /\ (diff_additions record + diff_deletions record
      <= Z.of_nat (length (split text 10)))%Z.
Proof.
  intros H.
  assert (Hne : trim text <> []).
  { intros E. unfold GitAnalyzer.parseSingleFileDiff in H. rewrite E in H.
    discriminate. }
  destruct (parse_not_blank fs repoPath file text staged Hne) as [size E].
  rewrite E in H. injection H as <-.
  cbn [diff_additions diff_deletions]. rewrite count_lines_counts. cbn [fst snd].
  pose proof (exclusive_filters (begins_with_single (lit "+"))
                (begins_with_single (lit "-")) (split text 10) not_both_markers).
  lia.
Qed.

(** X4. With the statistics of a commit summary the record takes its counts
    and flags from the summary alone, whatever the text declares: an absent
    count is 0, [isNew] means insertions and no deletion, [isDeleted] means
    deletions and no insertion. *)
Theorem commit_record_follows_summary (file text : js_string) (staged : bool)
    (f : SummaryFile) (record : GitDiff) :
  GitAnalyzer.parseSingleFileDiff fs repoPath file text staged
    (Some (GitAnalyzer.stats_of_summary f)) = Some record ->
  diff_additions record = or_default (sum_insertions f) 0
  /\ diff_deletions record = or_default (sum_deletions f) 0
  /\ (diff_isNew record = true
      <-> (0 < diff_additions record)%Z /\ diff_deletions record = 0%Z)
  /\ (diff_isDeleted record = true
      <-> diff_additions record = 0%Z /\ (0 < diff_deletions record)%Z).
Proof.
  unfold GitAnalyzer.parseSingleFileDiff.
  destruct (trim text); [discriminate |].
  intros H. injection H as <-.
  cbn [diff_additions diff_deletions diff_isNew diff_isDeleted].
  unfold GitAnalyzer.stats_of_summary.
  cbn [GitAnalyzer.additions GitAnalyzer.deletions GitAnalyzer.isNew
       GitAnalyzer.isDeleted].
  split; [reflexivity |]. split; [reflexivity |].
  rewrite !andb_true_iff, !Z.gtb_lt, !Z.eqb_eq. split; reflexivity.
Qed.

End ExtractorMore.

Lemma fileSize_only_when_present_witness :
  existsSync (Fixtures.fs_of_size 120) (path_join (Fixtures.fs_of_size 120)
                                          (lit "/repo") (lit "notes.js")) = true
  /\ statSync_size (Fixtures.fs_of_size 120)
       (path_join (Fixtures.fs_of_size 120) (lit "/repo") (lit "notes.js"))
     = Ok 120%Z.
Proof.
  destruct (fileSize_only_when_present (Fixtures.fs_of_size 120) (lit "/repo")
              (lit "notes.js") BinaryInput.prose false None
              {| diff_file := lit "notes.js";
                 diff_additions := 1;
                 diff_deletions := 0;
                 diff_changes := BinaryInput.prose;
                 diff_isNew := false;
                 diff_isDeleted := false;
                 diff_isBinary := true;
                 diff_fileSize := Some 120%Z |} 120%Z)
    as (H1 & _ & H3).
  - vm_compute. reflexivity.
  - reflexivity.
  - split; [exact H1 | exact H3].
Defined.

Lemma counts_within_lines_witness :
  exists record,
    GitAnalyzer.parseSingleFileDiff (Fixtures.fs_of_size 120) (lit "/repo")
      (lit "notes.js") BinaryInput.prose false None = Some record
    /\ (diff_additions record + diff_deletions record <= 7)%Z.
Proof.
  eexists. split; [vm_compute; reflexivity |].
  refine (proj2 (proj2 (counts_within_lines (Fixtures.fs_of_size 120) (lit "/repo")
                          (lit "notes.js") BinaryInput.prose false _ _))).
  vm_compute. reflexivity.
Defined.

Lemma commit_record_follows_summary_witness :
  exists record,
    GitAnalyzer.parseSingleFileDiff (Fixtures.fs_of_size 6) (lit "/repo")
      (lit "a.txt") BinaryInput.prose false
      (Some (GitAnalyzer.stats_of_summary C4Input.added_only)) = Some record
    /\ diff_additions record = 1%Z
    /\ diff_deletions record = 0%Z
    /\ diff_isNew record = true.
Proof.
  eexists. split; [vm_compute; reflexivity |].
  destruct (commit_record_follows_summary (Fixtures.fs_of_size 6) (lit "/repo")
              (lit "a.txt") BinaryInput.prose false C4Input.added_only _ eq_refl)
    as (Ha & Hd & Hn & _).
  split; [exact Ha |]. split; [exact Hd |].
  apply Hn. split; reflexivity.
Defined.

Section SourcesMore.

Variable git : Git.
Variable fs : FileSystem.
Variable repoPath : js_string.

Lemma diff_of_file_files (args : list js_string) (file : js_string) (staged : bool)
    (stats : option GitAnalyzer.Stats) :
  map diff_file (GitAnalyzer.diff_of_file git fs repoPath args file staged stats)
  = if has_diff (git_diff git args) then [file] else [].
Proof.
  unfold GitAnalyzer.diff_of_file, has_diff.
  destruct (git_diff git args) as [text | e]; [| reflexivity].
  destruct (GitAnalyzer.parseSingleFileDiff fs repoPath file text staged stats)
    as [record |] eqn:E.
  - assert (Hnb : forallb is_ws text = false).
    { destruct (forallb is_ws text) eqn:Hb; [| reflexivity].
      apply (parse_nothing_blank fs repoPath file text staged stats) in Hb.
      congruence. }
    rewrite Hnb. cbn [negb map]. f_equal.
    unfold GitAnalyzer.parseSingleFileDiff in E.
    destruct (trim text); [discriminate |]. injection E as <-. reflexivity.
  - apply (parse_nothing_blank fs repoPath file text staged stats) in E.
    rewrite E. reflexivity.
Qed.

Lemma flat_map_files {A} (f : A -> list GitDiff) (name : A -> js_string)
    (keep : A -> bool) (l : list A) :
  (forall a, map diff_file (f a) = if keep a then [name a] else []) ->
  map diff_file (flat_map f l) = map name (filter keep l).
Proof.
  intros H. induction l as [| a l IH]; [reflexivity |].
  cbn [flat_map filter]. rewrite map_app, H, IH.
  destruct (keep a); reflexivity.
Qed.

(** X5. In a repository, the working-tree and the staged change sources give
    one record for each listed file whose diff [git] produces and is not
    blank, in the order of the listing; a file whose diff fails or is blank is
    left out, and the others are kept.  The same holds for the files of the
    summary of the last commit. *)
Theorem change_sources_keep_order (st : Status) :
  checkIsRepo git = Ok true ->
  status git = Ok st ->
  (exists diffs,
     GitAnalyzer.getUnstagedChanges git fs repoPath = Ok diffs
     /\ map diff_file diffs
        = filter (fun file => has_diff (git_diff git [file]))
            (modified st ++ not_added st))
  /\ (exists diffs,
        GitAnalyzer.getStagedChanges git fs repoPath = Ok diffs
        /\ map diff_file diffs
           = filter (fun file => has_diff (git_diff git [lit "--cached"; file]))
               (staged st))
  /\ (forall files,
        diffSummary git [lit "HEAD^"; lit "HEAD"] = Ok files ->
        exists diffs,
          GitAnalyzer.getCommitDiff git fs repoPath None = Ok diffs
          /\ map diff_file diffs
             = filter (fun file =>
                         has_diff (git_diff git [lit "HEAD^"; lit "HEAD"; lit "--"; file]))
                 (map sum_file files)).
Proof.
  intros Hrepo Hst. split; [| split].
  - unfold GitAnalyzer.getUnstagedChanges, GitAnalyzer.validateRepository.
    rewrite Hrepo. cbn [bindE]. rewrite Hst. cbn [bindE].
    eexists. split; [reflexivity |].
    rewrite (flat_map_files _ (fun file => file)
               (fun file => has_diff (git_diff git [file]))), map_id;
      [reflexivity |].
    intros file. apply diff_of_file_files.
  - unfold GitAnalyzer.getStagedChanges, GitAnalyzer.validateRepository.
    rewrite Hrepo. cbn [bindE]. rewrite Hst. cbn [bindE].
    eexists. split; [reflexivity |].
    rewrite (flat_map_files _ (fun file => file)
               (fun file => has_diff (git_diff git [lit "--cached"; file]))), map_id;
      [reflexivity |].
    intros file. apply diff_of_file_files.
  - intros files Hsum.
    unfold GitAnalyzer.getCommitDiff, GitAnalyzer.validateRepository.
    rewrite Hrepo. cbn [bindE]. rewrite Hsum. cbn [bindE].
    eexists. split; [reflexivity |].
    rewrite (flat_map_files _ sum_file
               (fun f => has_diff (git_diff git
                                     [lit "HEAD^"; lit "HEAD"; lit "--"; sum_file f]))).
    + clear Hsum. induction files as [| f files IH]; [reflexivity |].
      cbn [filter map]. destruct (has_diff _); cbn [map]; rewrite IH; reflexivity.
    + intros f. apply diff_of_file_files.
Qed.

End SourcesMore.

Lemma change_sources_keep_order_witness :
  exists diffs,
    GitAnalyzer.getUnstagedChanges SourceInput.repository (Fixtures.fs_of_size 2)
      (lit "/repo") = Ok diffs
    /\ map diff_file diffs = [lit "a.js"].
Proof.
  exact (proj1 (change_sources_keep_order SourceInput.repository
                  (Fixtures.fs_of_size 2) (lit "/repo")
                  {| modified := [lit "a.js"; lit "b.js"; lit "c.js"];
                     not_added := [];
                     staged := [lit "a.js"] |} eq_refl eq_refl)).
Defined.

(* ------------------------------------------------------------------------- *)
(** * Further properties: the Response Recovery Parser *)
(* ------------------------------------------------------------------------- *)

Section ParserMore.

Variable eng : Engine.

Lemma JSON_parse_Ok (s : js_string) (v : value) :
  JSON_parse eng s = Ok v <-> Json.parse s = Some v.
Proof.
  unfold JSON_parse. destruct (Json.parse s); split; congruence.
Qed.

Lemma JSON_parse_Throw (s : js_string) :
  (exists e, JSON_parse eng s = Throw e) <-> Json.parse s = None.
Proof.
  unfold JSON_parse. destruct (Json.parse s); split;
    try congruence; try (intros [e H]; congruence); eauto.
Qed.

Lemma slice_0 (s : js_string) (n : nat) : slice s 0 n = firstn n s.
Proof. reflexivity. Qed.

(** What the backward scan of [truncateToValidJSON] over the first [n] code
    units returns: the longest prefix that ends on a closing brace or bracket
    and is JSON, or the empty review list when there is none. *)
Lemma truncate_loop_longest (s : js_string) (n : nat) :
  (AIReviewer.truncate_loop eng s n = dq "{'reviews':[]}"
   /\ forall i c, i < n -> nth_error s i = Some c -> AIReviewer.is_closer c = true ->
        Json.parse (firstn (S i) s) = None)
  \/ (exists i c,
        i < n /\ nth_error s i = Some c /\ AIReviewer.is_closer c = true
        /\ Json.parse (firstn (S i) s) <> None
        /\ AIReviewer.truncate_loop eng s n = firstn (S i) s
        /\ forall j c', i < j < n -> nth_error s j = Some c' ->
             AIReviewer.is_closer c' = true ->
             Json.parse (firstn (S j) s) = None).
Proof.
  induction n as [| n IH].
  - left. split; [reflexivity |]. intros i c Hi. lia.
  - cbn [AIReviewer.truncate_loop]. rewrite slice_0, Nat.add_1_r.
    destruct (nth_error s n) as [c |] eqn:Hc.
    + destruct (AIReviewer.is_closer c) eqn:Hcl.
      * unfold JSON_parse. destruct (Json.parse (firstn (S n) s)) as [v |] eqn:Hp.
        -- right. exists n, c. repeat split; try assumption; try lia; try congruence.
        -- destruct IH as [[E Hall] | (i & c0 & Hi & Hn & Hcl0 & Hp0 & E & Hmax)].
           ++ left. split; [exact E |]. intros i c' Hi Hn Hc'.
              destruct (Nat.eq_dec i n) as [-> | Hne]; [exact Hp |].
              apply (Hall i c'); [lia | assumption | assumption].
           ++ right. exists i, c0. repeat split; try assumption; try lia.
              intros j c' Hj Hnj Hc'.
              destruct (Nat.eq_dec j n) as [-> | Hne]; [exact Hp |].
              apply (Hmax j c'); [lia | assumption | assumption].
      * destruct IH as [[E Hall] | (i & c0 & Hi & Hn & Hcl0 & Hp0 & E & Hmax)].
        -- left. split; [exact E |]. intros i c' Hi Hn Hc'.
           destruct (Nat.eq_dec i n) as [-> | Hne]; [congruence |].
           apply (Hall i c'); [lia | assumption | assumption].
        -- right. exists i, c0. repeat split; try assumption; try lia.
           intros j c' Hj Hnj Hc'.
           destruct (Nat.eq_dec j n) as [-> | Hne]; [congruence |].
           apply (Hmax j c'); [lia | assumption | assumption].
    + destruct IH as [[E Hall] | (i & c0 & Hi & Hn & Hcl0 & Hp0 & E & Hmax)].
      * left. split; [exact E |]. intros i c' Hi Hn Hc'.
        destruct (Nat.eq_dec i n) as [-> | Hne]; [congruence |].
        apply (Hall i c'); [lia | assumption | assumption].
      * right. exists i, c0. repeat split; try assumption; try lia.
        intros j c' Hj Hnj Hc'.
        destruct (Nat.eq_dec j n) as [-> | Hne]; [congruence |].
        apply (Hmax j c'); [lia | assumption | assumption].
Qed.

(** X6. [truncateToValidJSON] returns the longest prefix of the text that ends
    on a closing brace or bracket and is JSON; when no such prefix exists it
    returns the text of an empty review list. *)
Theorem truncate_longest_valid_prefix (s : js_string) :
  (AIReviewer.truncateToValidJSON eng s = dq "{'reviews':[]}"
   /\ forall i c, nth_error s i = Some c -> AIReviewer.is_closer c = true ->
        Json.parse (firstn (S i) s) = None)
  \/ (exists i c,
        nth_error s i = Some c /\ AIReviewer.is_closer c = true
        /\ Json.parse (firstn (S i) s) <> None
        /\ AIReviewer.truncateToValidJSON eng s = firstn (S i) s
        /\ forall j c', i < j -> nth_error s j = Some c' ->
             AIReviewer.is_closer c' = true ->
             Json.parse (firstn (S j) s) = None).
Proof.
  unfold AIReviewer.truncateToValidJSON.
  assert (Hlen : forall i c, nth_error s i = Some c -> i < length s).
  { intros i c H. apply nth_error_Some. congruence. }
  destruct (truncate_loop_longest s (length s))
    as [[E Hall] | (i & c & Hi & Hn & Hcl & Hp & E & Hmax)].
  - left. split; [exact E |]. intros i c Hn. apply (Hall i c); eauto.
  - right. exists i, c. repeat split; try assumption.
    intros j c' Hj Hn'. apply (Hmax j c'); [| exact Hn'].
    split; [exact Hj | eauto].
Qed.

Lemma truncate_parses (s : js_string) :
  Json.parse (AIReviewer.truncateToValidJSON eng s) <> None.
Proof.
  unfold AIReviewer.truncateToValidJSON.
  destruct (truncate_loop_longest s (length s))
    as [[E _] | (i & c & _ & _ & _ & Hp & E & _)]; rewrite E;
    [vm_compute; discriminate | exact Hp].
Qed.

(** X7. Whatever text [fixIncompleteJSON] is given, the text it returns is
    JSON: the [JSON.parse] that follows it in [parseAIResponse] does not
    throw. *)
Theorem fixIncompleteJSON_parses (s : js_string) :
  exists v, JSON_parse eng (AIReviewer.fixIncompleteJSON eng s) = Ok v.
Proof.
  assert (H : Json.parse (AIReviewer.fixIncompleteJSON eng s) <> None).
  { unfold AIReviewer.fixIncompleteJSON.
    destruct (JSON_parse eng s) as [v | err] eqn:E.
    - apply JSON_parse_Ok in E. congruence.
    - destruct (_ && _); [| apply truncate_parses].
      destruct (_ && _); [| apply truncate_parses].
      match goal with
      | |- context [JSON_parse eng ?t] =>
          destruct (JSON_parse eng t) as [v | err'] eqn:E'
      end; [| apply truncate_parses].
      apply JSON_parse_Ok in E'. congruence. }
  unfold JSON_parse.
  destruct (Json.parse (AIReviewer.fixIncompleteJSON eng s)) as [v |];
    [eauto | congruence].
Qed.

(** [fixIncompleteJSON] returns a text that is JSON as it is. *)
Lemma fixIncompleteJSON_valid (s : js_string) (v : value) :
  Json.parse s = Some v -> AIReviewer.fixIncompleteJSON eng s = s.
Proof.
  intros H. unfold AIReviewer.fixIncompleteJSON, JSON_parse. rewrite H. reflexivity.
Qed.

Lemma mapM_Forall {A B} (f : A -> Exc B) (P : B -> Prop) (l : list A) (bs : list B) :
  (forall a b, f a = Ok b -> P b) ->
  mapM f l = Ok bs -> Forall P bs.
Proof.
  intros Hf. revert bs. induction l as [| a l IH]; intros bs H; cbn [mapM] in H.
  - injection H as <-. constructor.
  - destruct (f a) as [b |] eqn:Ea; [| discriminate].
    destruct (mapM f l) as [bs' |]; [| discriminate].
    injection H as <-. constructor; [eapply Hf; eassumption | apply IH; reflexivity].
Qed.

Lemma parseAIResponse_findings (file : js_string) (response : value)
    (findings : list ReviewResult) :
  AIReviewer.parseAIResponse eng file response = Ok findings ->
  Forall (fun f => res_file f = file /\ truthy (res_message f) = true) findings.
Proof.
  unfold AIReviewer.parseAIResponse, try_catch.
  destruct (AIReviewer.parseAIResponse_body eng file response) as [l | e] eqn:E.
  - intros H. injection H as <-.
    unfold AIReviewer.parseAIResponse_body in E.
    destruct (AIReviewer.string_receiver eng response) as [text |];
      [| discriminate].
    cbn [bindE] in E.
    destruct (JSON_parse eng _) as [parsed |]; [| discriminate].
    cbn [bindE] in E.
    destruct (get_prop eng parsed (lit "reviews")) as [reviews |]; [| discriminate].
    cbn [bindE] in E.
    destruct (negb (truthy reviews) || negb (isArray reviews)); [discriminate |].
    destruct reviews as [| | | | | items |]; try discriminate.
    revert E. apply mapM_Forall. intros review b Hb.
    destruct (get_prop eng review (lit "severity")); [| discriminate].
    cbn [bindE] in Hb.
    destruct (get_prop eng review (lit "line")); [| discriminate].
    cbn [bindE] in Hb.
    destruct (get_prop eng review (lit "message")) as [message |]; [| discriminate].
    cbn [bindE] in Hb.
    destruct (get_prop eng review (lit "suggestion")); [| discriminate].
    cbn [bindE] in Hb.
    destruct (get_prop eng review (lit "category")); [| discriminate].
    cbn [bindE] in Hb. injection Hb as <-. cbn [res_file res_message].
    split; [reflexivity |].
    destruct (truthy message) eqn:Hm; [exact Hm | reflexivity].
  - intros H. injection H as <-. repeat constructor.
Qed.

(** X8. Every finding [parseAIResponse] returns names the file it was called
    for and has a message that is not empty (a missing or empty message is
    replaced by a placeholder). *)
Theorem findings_name_the_file (file : js_string) (response : value)
    (findings : list ReviewResult) :
  AIReviewer.parseAIResponse eng file response = Ok findings ->
  Forall (fun f => res_file f = file /\ truthy (res_message f) = true) findings.
Proof. exact (parseAIResponse_findings file response findings). Qed.

End ParserMore.

Lemma findings_name_the_file_witness :
  Forall (fun f => res_file f = lit "src/auth.js" /\ truthy (res_message f) = true)
    [ {| res_file := lit "src/auth.js";
         res_severity := SevError;
         res_line := VUndefined;
         res_message := VStr (lit "x");
         res_suggestion := VUndefined;
         res_category := VUndefined |} ].
Proof.
  apply (findings_name_the_file Fixtures.engine (lit "src/auth.js")
           (VStr Fixtures.complete_reply)).
  vm_compute. reflexivity.
Defined.

Section FencedReply.

Lemma indexOf_self (p rest : js_string) : indexOf (p ++ rest) p = Some 0.
Proof.
  destruct (p ++ rest) as [| c s] eqn:E; cbn [indexOf];
    rewrite <- E, startsWith_app; reflexivity.
Qed.

Lemma indexOf_after (pre s p : js_string) (c : N) :
  ~ In c pre ->
  indexOf (pre ++ s) (c :: p)
  = option_map (Nat.add (length pre)) (indexOf s (c :: p)).
Proof.
  induction pre as [| x pre IH]; intros Hc.
  - cbn [app length]. destruct (indexOf s (c :: p)); reflexivity.
  - cbn [app indexOf startsWith length].
    assert (E : N.eqb c x = false).
    { apply N.eqb_neq. intros ->. apply Hc. left. reflexivity. }
    rewrite E. cbn [andb]. rewrite IH by (intros H; apply Hc; right; exact H).
    destruct (indexOf s (c :: p)); reflexivity.
Qed.

Lemma skipn_exact {A} (a b : list A) : skipn (length a) (a ++ b) = b.
Proof. induction a as [| x a IH]; [reflexivity | exact IH]. Qed.

Lemma firstn_exact {A} (a b : list A) : firstn (length a) (a ++ b) = a.
Proof. induction a as [| x a IH]; [reflexivity | cbn; f_equal; exact IH]. Qed.

Lemma trimStart_ws (w s : js_string) :
  forallb is_ws w = true -> trimStart (w ++ s) = trimStart s.
Proof.
  induction w as [| c w IH]; [reflexivity |].
  cbn [forallb app trimStart]. intros H. apply andb_true_iff in H.
  destruct H as [Hc Hw]. rewrite Hc. apply IH, Hw.
Qed.

Lemma trimEnd_ws (s w : js_string) :
  forallb is_ws w = true -> trimEnd (s ++ w) = trimEnd s.
Proof.
  intros H. unfold trimEnd. rewrite rev_app_distr, trimStart_ws; [reflexivity |].
  rewrite forallb_rev. exact H.
Qed.

Lemma ws_without (c : N) (w : js_string) :
  is_ws c = false -> forallb is_ws w = true -> ~ In c w.
Proof.
  intros Hc Hw Hin. rewrite forallb_forall in Hw. rewrite (Hw c Hin) in Hc.
  discriminate.
Qed.

(** X9. A JSON object wrapped in a fence labelled as JSON is extracted as it
    is, whatever prose without backquotes precedes the fence and whatever
    follows it. *)
Theorem fenced_object_is_extracted (pre w1 body w2 post : js_string) :
  trim (fenced_reply pre w1 body w2 post) = fenced_reply pre w1 body w2 post ->
  ~ In (ch "`") pre ->
  ~ In (ch "`") body ->
  forallb is_ws w1 = true ->
  forallb is_ws w2 = true ->
  startsWith body (lit "{") = true ->
  trimEnd body = body ->
  AIReviewer.extractJSON (fenced_reply pre w1 body w2 post) = body.
Proof.
  intros Htrim Hpre Hbody Hw1 Hw2 Hopen Hend.
  assert (Hhead : exists r, body = ch "{" :: r).
  { destruct body as [| c r]; [discriminate |]. cbn [startsWith lit] in Hopen.
    apply andb_true_iff in Hopen. destruct Hopen as [Hc _].
    apply N.eqb_eq in Hc. subst c. exists r. reflexivity. }
  destruct Hhead as [r Hr].
  assert (Hstart : trimStart body = body) by (rewrite Hr; reflexivity).
  assert (Hidx : indexOf (fenced_reply pre w1 body w2 post) (lit "```json")
                 = Some (length pre + 0)).
  { unfold fenced_reply. change (lit "```json") with (ch "`" :: lit "``json") at 2.
    rewrite indexOf_after by exact Hpre.
    change (ch "`" :: lit "``json") with (lit "```json").
    rewrite indexOf_self. reflexivity. }
  assert (Hclose : indexOf (body ++ w2 ++ lit "```" ++ post) (lit "```")
                   = Some (length (body ++ w2) + 0)).
  { rewrite app_assoc. change (lit "```") with (ch "`" :: lit "``") at 2.
    rewrite indexOf_after.
    - change (ch "`" :: lit "``") with (lit "```").
      rewrite indexOf_self. reflexivity.
    - intros H. apply in_app_or in H. destruct H as [H | H]; [exact (Hbody H) |].
      exact (ws_without (ch "`") w2 eq_refl Hw2 H). }
  assert (Hfence : AIReviewer.match_fence (lit "```json")
                     (fenced_reply pre w1 body w2 post) = Some body).
  { unfold AIReviewer.match_fence. rewrite Hidx.
    replace (skipn (length pre + 0 + length (lit "```json"))
               (fenced_reply pre w1 body w2 post))
      with (w1 ++ body ++ w2 ++ lit "```" ++ post).
    - rewrite trimStart_ws by exact Hw1.
      replace (trimStart (body ++ w2 ++ lit "```" ++ post))
        with (body ++ w2 ++ lit "```" ++ post) by (rewrite Hr; reflexivity).
      rewrite Hclose, Nat.add_0_r, (app_assoc body w2), firstn_exact.
      rewrite trimEnd_ws by exact Hw2. rewrite Hend. reflexivity.
    - unfold fenced_reply.
      rewrite Nat.add_0_r, <- length_app, (app_assoc pre (lit "```json")).
      rewrite skipn_exact. reflexivity. }
  unfold AIReviewer.extractJSON. rewrite Htrim.
  assert (Hinc : includes (fenced_reply pre w1 body w2 post) (lit "```json") = true)
    by (unfold includes; rewrite Hidx; reflexivity).
  rewrite !Hinc, !Hfence, Hopen. cbn [negb].
  unfold trim. rewrite Hstart. exact Hend.
Qed.

End FencedReply.

Lemma fenced_object_is_extracted_witness :
  AIReviewer.extractJSON
    (fenced_reply (lit "Here is the review:
") [10%N] (dq "{'reviews':[]}") [10%N] (lit "
Done."))
  = dq "{'reviews':[]}".
Proof.
  apply (fenced_object_is_extracted (lit "Here is the review:
") [10%N] (dq "{'reviews':[]}") [10%N] (lit "
Done."));
    try (vm_compute; reflexivity);
    vm_compute; intuition discriminate.
Defined.

Section ParserComposition.

Variable eng : Engine.

Lemma In_firstn {A} (x : A) (n : nat) (l : list A) : In x (firstn n l) -> In x l.
Proof.
  intros H. rewrite <- (firstn_skipn n l). apply in_or_app. left. exact H.
Qed.

Lemma In_skipn {A} (x : A) (n : nat) (l : list A) : In x (skipn n l) -> In x l.
Proof.
  intros H. rewrite <- (firstn_skipn n l). apply in_or_app. right. exact H.
Qed.

Lemma In_match_fence (opener text m : js_string) (c : N) :
  AIReviewer.match_fence opener text = Some m -> In c m -> In c text.
Proof.
  unfold AIReviewer.match_fence.
  destruct (indexOf text opener) as [i |]; [| discriminate].
  destruct (indexOf _ (lit "```")) as [k |]; [| discriminate].
  intros H. injection H as <-. intros H.
  eapply In_skipn, In_trimStart, In_firstn, In_trimEnd, H.
Qed.

Lemma In_match_braces (text m : js_string) (c : N) :
  AIReviewer.match_braces text = Some m -> In c m -> In c text.
Proof.
  unfold AIReviewer.match_braces.
  destruct (indexOf text (lit "{")) as [i |]; [| discriminate].
  destruct (Z.ltb _ _); [| discriminate].
  intros H. injection H as <-. unfold slice. intros H.
  eapply In_firstn, In_skipn, H.
Qed.

(** [extractJSON] returns code units of the reply only. *)
Lemma In_extractJSON (text : js_string) (c : N) :
  In c (AIReviewer.extractJSON text) -> In c text.
Proof.
  unfold AIReviewer.extractJSON. intros H. apply In_trim in H.
  match type of H with
  | context [AIReviewer.match_braces ?f] => set (fenced := f) in *
  end.
  assert (Hfence : In c fenced -> In c text).
  { subst fenced. intros H1.
    destruct (includes (trim text) (lit "```json")).
    - destruct (AIReviewer.match_fence _ _) as [m |] eqn:E;
        [apply In_trim; eapply In_match_fence; eassumption | apply In_trim, H1].
    - destruct (includes (trim text) (lit "```")); [| apply In_trim, H1].
      destruct (AIReviewer.match_fence _ _) as [m |] eqn:E;
        [apply In_trim; eapply In_match_fence; eassumption | apply In_trim, H1]. }
  destruct (negb (startsWith fenced (lit "{"))); [| exact (Hfence H)].
  destruct (AIReviewer.match_braces fenced) as [m |] eqn:E; [| exact (Hfence H)].
  apply Hfence. eapply In_match_braces; eassumption.
Qed.

Lemma no_closer_after (s : js_string) (n : nat) :
  existsb AIReviewer.is_closer s = false ->
  includes (slice_from s n) (lit "}") || includes (slice_from s n) (lit "]") = false.
Proof.
  intros H.
  assert (Hc : forall c, AIReviewer.is_closer c = true -> ~ In c (slice_from s n)).
  { intros c Hc Hin. apply In_skipn in Hin.
    assert (existsb AIReviewer.is_closer s = true) by (apply existsb_exists; eauto).
    congruence. }
  apply orb_false_iff. split.
  - destruct (includes (slice_from s n) (lit "}")) eqn:E; [| reflexivity].
    exfalso. apply (Hc (ch "}")); [reflexivity |].
    exact (includes_head _ [] _ E).
  - destruct (includes (slice_from s n) (lit "]")) eqn:E; [| reflexivity].
    exfalso. apply (Hc (ch "]")); [reflexivity |].
    exact (includes_head _ [] _ E).
Qed.

(** X10. A reply without any closing brace or bracket that is not JSON (prose,
    or a document cut off before its first closing character) gives the empty
    finding list, not the finding of a malformed reply. *)
Theorem reply_without_closer_gives_nothing (file text : js_string) :
  existsb AIReviewer.is_closer text = false ->
  Json.parse (AIReviewer.extractJSON text) = None ->
  AIReviewer.parseAIResponse eng file (VStr text) = Ok [].
Proof.
  intros Hc Hp.
  assert (Hc' : existsb AIReviewer.is_closer (AIReviewer.extractJSON text) = false).
  { destruct (existsb _ (AIReviewer.extractJSON text)) eqn:E; [| reflexivity].
    apply existsb_exists in E. destruct E as (c & Hin & Hcl).
    apply In_extractJSON in Hin.
    assert (existsb AIReviewer.is_closer text = true) by (apply existsb_exists; eauto).
    congruence. }
  unfold AIReviewer.parseAIResponse, AIReviewer.parseAIResponse_body.
  cbn [AIReviewer.string_receiver bindE].
  rewrite fixIncompleteJSON_scans
    by (assumption || (cbv zeta; apply no_closer_after; assumption)).
  unfold AIReviewer.truncateToValidJSON.
  rewrite truncate_loop_no_closer by assumption.
  vm_compute. reflexivity.
Qed.

Lemma mapM_Forall2 {A B} (f : A -> Exc B) (g : A -> B) (P : A -> Prop) (l : list A) :
  (forall a, P a -> f a = Ok (g a)) ->
  Forall P l -> mapM f l = Ok (map g l).
Proof.
  intros Hf H. induction H as [| a l Ha _ IH]; [reflexivity |].
  cbn [mapM map]. rewrite (Hf a Ha), IH. reflexivity.
Qed.

(** X11. A reply whose extracted text is a JSON object with an array under
    [reviews], none of whose items is null, gives one finding for each item,
    in the order of the array: the severity coerced, the message kept unless
    it is empty, and line, suggestion and category as the item has them. *)
Theorem one_finding_per_review (file text : js_string) (parsed : value)
    (items : list value) :
  Json.parse (AIReviewer.extractJSON text) = Some parsed ->
  prop_of parsed (lit "reviews") = VArr items ->
  Forall (fun item => item <> VNull /\ item <> VUndefined) items ->
  exists findings,
    AIReviewer.parseAIResponse eng file (VStr text) = Ok findings
    /\ length findings = length items
    /\ Forall2 (fun item f =>
                  res_file f = file
                  /\ res_severity f
                     = AIReviewer.validateSeverity (prop_of item (lit "severity"))
                  /\ res_line f = prop_of item (lit "line")
                  /\ (truthy (prop_of item (lit "message")) = true ->
                      res_message f = prop_of item (lit "message"))
                  /\ res_suggestion f = prop_of item (lit "suggestion")
                  /\ res_category f = prop_of item (lit "category"))
         items findings.
Proof.
  intros Hp Hr Hitems.
  assert (Hobj : parsed <> VNull /\ parsed <> VUndefined).
  { destruct parsed; cbn [prop_of] in Hr; split; congruence. }
  set (g := fun review =>
              {| res_file := file;
                 res_severity :=
                   AIReviewer.validateSeverity (prop_of review (lit "severity"));
                 res_line := prop_of review (lit "line");
                 res_message :=
                   if truthy (prop_of review (lit "message"))
                   then prop_of review (lit "message")
                   else VStr (lit "No description");
                 res_suggestion := prop_of review (lit "suggestion");
                 res_category := prop_of review (lit "category") |}).
  exists (map g items).
  split; [| split].
  - unfold AIReviewer.parseAIResponse, AIReviewer.parseAIResponse_body.
    cbn [AIReviewer.string_receiver bindE].
    rewrite (fixIncompleteJSON_valid eng _ parsed Hp).
    unfold JSON_parse. rewrite Hp. cbn [bindE].
    rewrite (get_prop_prop_of eng _ _ (proj1 Hobj) (proj2 Hobj)), Hr.
    cbn [bindE truthy isArray negb orb].
    rewrite (mapM_Forall2 _ g (fun item => item <> VNull /\ item <> VUndefined) items);
      [reflexivity | | exact Hitems].
    intros a [Ha1 Ha2]. rewrite !(get_prop_prop_of eng _ _ Ha1 Ha2). reflexivity.
  - apply length_map.
  - clear Hitems Hr Hp Hobj. induction items as [| a items IH]; constructor.
    + subst g. cbn [res_file res_severity res_line res_message res_suggestion
                    res_category].
      repeat split. intros ->. reflexivity.
    + exact IH.
Qed.

End ParserComposition.

Section ParserMalformed.

Variable eng : Engine.

Lemma mapM_In_Throw {A B} (f : A -> Exc B) (l : list A) (a : A) :
  In a l -> (exists e, f a = Throw e) -> exists e, mapM f l = Throw e.
Proof.
  intros Hin [e He]. induction l as [| x l IH]; [destruct Hin |].
  cbn [mapM]. destruct Hin as [-> | Hin].
  - rewrite He. eauto.
  - destruct (f x) as [b | e']; [| eauto].
    destruct (IH Hin) as [e'' ->]. eauto.
Qed.

(** X12. A reply whose extracted text is JSON gives exactly the one finding of
    a malformed reply when the document has no array under [reviews], and also
    when one item of that array is null, whatever the other items are. *)
Theorem malformed_reply_finding (file text : js_string) (parsed : value) :
  Json.parse (AIReviewer.extractJSON text) = Some parsed ->
  (isArray (prop_of parsed (lit "reviews")) = false ->
   AIReviewer.parseAIResponse eng file (VStr text)
   = Ok [AIReviewer.malformed file])
  /\ (forall items,
        prop_of parsed (lit "reviews") = VArr items ->
        In VNull items ->
        AIReviewer.parseAIResponse eng file (VStr text)
        = Ok [AIReviewer.malformed file]).
Proof.
  intros Hp.
  assert (Hbody : forall l,
            AIReviewer.parseAIResponse_body eng file (VStr text) = l ->
            l = (reviews <- get_prop eng parsed (lit "reviews") ;;
                 if negb (truthy reviews) || negb (isArray reviews)
                 then Throw (new_Error (lit "Invalid AI response format"))
                 else match reviews with
                      | VArr items =>
                          mapM (fun review =>
                                  severity <- get_prop eng review (lit "severity") ;;
                                  line <- get_prop eng review (lit "line") ;;
                                  message <- get_prop eng review (lit "message") ;;
                                  suggestion <- get_prop eng review (lit "suggestion") ;;
                                  category <- get_prop eng review (lit "category") ;;
                                  Ok {| res_file := file;
                                        res_severity := AIReviewer.validateSeverity severity;
                                        res_line := line;
                                        res_message := if truthy message then message
                                                       else VStr (lit "No description");
                                        res_suggestion := suggestion;
                                        res_category := category |}) items
                      | _ => Throw (type_error eng (NotAFunction (lit "map")))
                      end)%exc).
  { intros l <-. unfold AIReviewer.parseAIResponse_body.
    cbn [AIReviewer.string_receiver bindE].
    rewrite (fixIncompleteJSON_valid eng _ parsed Hp).
    unfold JSON_parse. rewrite Hp. reflexivity. }
  unfold AIReviewer.parseAIResponse.
  rewrite (Hbody _ eq_refl). clear Hbody. split.
  - intros Harr.
    destruct parsed as [| | | | | items | ms]; try reflexivity.
    cbn [get_prop bindE]. cbn [prop_of] in Harr.
    destruct (match get_own ms (lit "reviews") with
              | Some x => x
              | None => VUndefined
              end) as [| | b | d | s | items |];
      cbn [isArray] in Harr; try discriminate; cbn [truthy negb orb isArray];
      try reflexivity.
    + destruct b; reflexivity.
    + destruct (negb (decimal_is_zero d)); reflexivity.
    + destruct s; reflexivity.
  - intros items Hr Hnull.
    destruct parsed as [| | | | | | ms]; try discriminate.
    cbn [get_prop bindE]. cbn [prop_of] in Hr. rewrite Hr.
    cbn [truthy isArray negb orb].
    match goal with
    | |- try_catch (mapM ?f items) _ = _ =>
        destruct (mapM_In_Throw f items VNull Hnull) as [e ->]
    end; [| reflexivity].
    cbn [get_prop bindE]. eauto.
Qed.

End ParserMalformed.

Lemma reply_without_closer_gives_nothing_witness :
  AIReviewer.parseAIResponse Fixtures.engine (lit "f.js") (VStr ParserInput.prose)
  = Ok [].
Proof.
  apply (reply_without_closer_gives_nothing Fixtures.engine (lit "f.js")
           ParserInput.prose); vm_compute; reflexivity.
Defined.

Lemma one_finding_per_review_witness :
  exists findings,
    AIReviewer.parseAIResponse Fixtures.engine (lit "f.js")
      (VStr ParserInput.two_reviews) = Ok findings
    /\ length findings = 2.
Proof.
  destruct (one_finding_per_review Fixtures.engine (lit "f.js")
              ParserInput.two_reviews
              (VObj [(lit "reviews",
                      VArr [ VObj [ (lit "severity", VStr (lit "error"));
                                    (lit "line",
                                     VNum {| d_neg := false; d_mant := 12; d_exp := 0 |});
                                    (lit "message", VStr (lit "unsafe eval"));
                                    (lit "category", VStr (lit "security")) ];
                             VObj [ (lit "severity", VStr (lit "note"));
                                    (lit "message", VStr []) ] ])])
              [ VObj [ (lit "severity", VStr (lit "error"));
                       (lit "line",
                        VNum {| d_neg := false; d_mant := 12; d_exp := 0 |});
                       (lit "message", VStr (lit "unsafe eval"));
                       (lit "category", VStr (lit "security")) ];
                VObj [ (lit "severity", VStr (lit "note"));
                       (lit "message", VStr []) ] ])
    as (findings & E & Hlen & _).
  - vm_compute. reflexivity.
  - vm_compute. reflexivity.
  - repeat constructor; discriminate.
  - exists findings. split; [exact E | exact Hlen].
Defined.

Lemma malformed_reply_finding_witness :
  AIReviewer.parseAIResponse Fixtures.engine (lit "f.js") (VStr ParserInput.no_reviews)
  = Ok [AIReviewer.malformed (lit "f.js")]
  /\ AIReviewer.parseAIResponse Fixtures.engine (lit "f.js")
       (VStr ParserInput.with_null)
     = Ok [AIReviewer.malformed (lit "f.js")].
Proof.
  split.
  - apply (proj1 (malformed_reply_finding Fixtures.engine (lit "f.js")
                    ParserInput.no_reviews (VObj [(lit "issues", VArr [])])
                    ltac:(vm_compute; reflexivity))).
    reflexivity.
  - apply (proj2 (malformed_reply_finding Fixtures.engine (lit "f.js")
                    ParserInput.with_null
                    (VObj [(lit "reviews",
                            VArr [ VObj [ (lit "severity", VStr (lit "error"));
                                          (lit "message", VStr (lit "unsafe eval")) ];
                                   VNull ])])
                    ltac:(vm_compute; reflexivity))
             [ VObj [ (lit "severity", VStr (lit "error"));
                      (lit "message", VStr (lit "unsafe eval")) ];
               VNull ]).
    + reflexivity.
    + right. left. reflexivity.
Defined.

(* ------------------------------------------------------------------------- *)
(** * Further properties: the Eligibility Filter and the Model Client *)
(* ------------------------------------------------------------------------- *)

Section ClientMore.

Variable eng : Engine.
Variable config : ReviewConfig.

Lemma someM_total {A} (f : A -> Exc bool) (l : list A) :
  (forall a, In a l -> exists b, f a = Ok b) ->
  someM f l = Ok (existsb (fun a => match f a with Ok true => true | _ => false end) l).
Proof.
  induction l as [| a l IH]; intros H; [reflexivity |].
  cbn [someM existsb]. destruct (H a (or_introl eq_refl)) as [b ->].
  destruct b; [reflexivity |]. apply IH. intros x Hx. apply H. right. exact Hx.
Qed.

Lemma shouldSkipFile_returns (diff : GitDiff) :
  valid_patterns eng config ->
  exists skip, AIReviewer.shouldSkipFile eng config diff = Ok skip.
Proof.
  intros Hv. unfold AIReviewer.shouldSkipFile.
  rewrite someM_total
    by (intros p Hp; apply Hv, in_or_app; left; exact Hp).
  cbn [bindE]. destruct (existsb _ (excludePatterns config));
    [eexists; reflexivity |].
  destruct (includePatterns config) as [| p ps] eqn:E; [eexists; reflexivity |].
  rewrite someM_total
    by (intros q Hq; apply Hv, in_or_app; right; rewrite E; exact Hq).
  eexists; reflexivity.
Qed.

(** X13. With valid patterns [shouldSkipFile] skips a file exactly when an
    exclude pattern matches its path, or when there are include patterns and
    none matches: a matching exclude pattern outranks every include
    pattern. *)
Theorem shouldSkipFile_decision (diff : GitDiff) :
  valid_patterns eng config ->
  AIReviewer.shouldSkipFile eng config diff
  = Ok (existsb (pattern_matches eng (diff_file diff)) (excludePatterns config)
        || (match includePatterns config with [] => false | _ => true end)
           && negb (existsb (pattern_matches eng (diff_file diff))
                      (includePatterns config))).
Proof.
  intros Hv. unfold AIReviewer.shouldSkipFile.
  rewrite someM_total
    by (intros p Hp; apply Hv, in_or_app; left; exact Hp).
  cbn [bindE]. fold (pattern_matches eng (diff_file diff)).
  destruct (existsb (pattern_matches eng (diff_file diff)) (excludePatterns config));
    [reflexivity |].
  cbn [orb]. destruct (includePatterns config) as [| p ps] eqn:E; [reflexivity |].
  rewrite someM_total
    by (intros q Hq; apply Hv, in_or_app; right; rewrite E; exact Hq).
  reflexivity.
Qed.

Variable svc : Service.

(** What [reviewSingleFile] does to the log and what it returns. *)
Lemma reviewSingleFile_cases (diff : GitDiff) (log : list GenerateRequest) :
  (AIReviewer.reviewSingleFile eng config svc diff log
   = (Ok [AIReviewer.tooLarge_result config diff], log)
   /\ AIReviewer.tooLarge config diff = true)
  \/ (AIReviewer.reviewSingleFile eng config svc diff log
      = (Ok [AIReviewer.binary_result diff], log)
      /\ diff_isBinary diff = true)
  \/ (AIReviewer.tooLarge config diff = false
      /\ diff_isBinary diff = false
      /\ exists outcome,
           AIReviewer.reviewSingleFile eng config svc diff log
           = (outcome, log ++ [AIReviewer.generate_request config diff])
           /\ forall findings,
                outcome = Ok findings ->
                exists reply,
                  AIReviewer.parseAIResponse eng (diff_file diff) reply = Ok findings).
Proof.
  destruct (AIReviewer.tooLarge config diff) eqn:Hbig.
  { left. split; [apply reviewSingleFile_tooLarge; exact Hbig | reflexivity]. }
  destruct (diff_isBinary diff) eqn:Hbin.
  { right. left. split; [apply reviewSingleFile_binary; assumption | reflexivity]. }
  right. right. split; [reflexivity |]. split; [reflexivity |].
  unfold AIReviewer.reviewSingleFile. rewrite Hbig, Hbin.
  unfold io_try, io_bind, axios_post, io_lift, io_throw.
  destruct (svc log (AIReviewer.generate_request config diff)) as [data | e].
  - destruct (get_prop eng data (lit "response")) as [reply | e].
    + destruct (AIReviewer.parseAIResponse eng (diff_file diff) reply) as [l | e] eqn:E.
      * eexists. split; [reflexivity |]. intros findings H. injection H as <-. eauto.
      * destruct (exn_code e) as [code |];
          [destruct (str_eqb code (lit "ECONNABORTED")) |];
          (eexists; split; [reflexivity | discriminate]).
    + destruct (exn_code e) as [code |];
        [destruct (str_eqb code (lit "ECONNABORTED")) |];
        (eexists; split; [reflexivity | discriminate]).
  - destruct (exn_code e) as [code |];
      [destruct (str_eqb code (lit "ECONNABORTED")) |];
      (eexists; split; [reflexivity | discriminate]).
Qed.

(** The findings of [reviewSingleFile] name the file of the diff. *)
Lemma reviewSingleFile_files (diff : GitDiff) (log : list GenerateRequest)
    (findings : list ReviewResult) :
  fst (AIReviewer.reviewSingleFile eng config svc diff log) = Ok findings ->
  Forall (fun f => res_file f = diff_file diff) findings.
Proof.
  destruct (reviewSingleFile_cases diff log)
    as [[E _] | [[E _] | (_ & _ & outcome & E & Hout)]]; rewrite E; cbn [fst].
  - intros H. injection H as <-. repeat constructor.
  - intros H. injection H as <-. repeat constructor.
  - intros H. destruct (Hout findings H) as [reply Hr].
    eapply Forall_impl; [| exact (parseAIResponse_findings eng _ _ _ Hr)].
    intros f [Hf _]. exact Hf.
Qed.

Lemma reviewChanges_loop_spec (diffs : list GitDiff) (results : list ReviewResult)
    (log : list GenerateRequest) :
  exists outcome added,
    AIReviewer.reviewChanges_loop eng config svc diffs results log
    = (outcome, log ++ added)
    /\ length added <= length diffs
    /\ Forall (request_of eng config diffs) added
    /\ (forall findings,
          outcome = Ok findings ->
          exists new, findings = results ++ new /\ Forall (finding_of eng config diffs) new)
    /\ (valid_patterns eng config -> exists findings, outcome = Ok findings).
Proof.
  revert results log. induction diffs as [| diff rest IH]; intros results log.
  - exists (Ok results), []. cbn [AIReviewer.reviewChanges_loop io_ret].
    rewrite app_nil_r. split; [reflexivity |]. split; [reflexivity |].
    split; [constructor |]. split; [| eauto].
    intros findings H. injection H as <-. exists []. rewrite app_nil_r.
    split; [reflexivity | constructor].
  - assert (Hmono_r : forall added, Forall (request_of eng config rest) added ->
                        Forall (request_of eng config (diff :: rest)) added).
    { intros added. apply Forall_impl. intros r (d & Hd & H).
      exists d. split; [right; exact Hd | exact H]. }
    assert (Hmono_f : forall new, Forall (finding_of eng config rest) new ->
                        Forall (finding_of eng config (diff :: rest)) new).
    { intros new. apply Forall_impl. intros r (d & Hd & H).
      exists d. split; [right; exact Hd | exact H]. }
    cbn [AIReviewer.reviewChanges_loop]. unfold io_bind at 1, io_lift at 1.
    destruct (AIReviewer.shouldSkipFile eng config diff) as [skip | e] eqn:Hskip.
    + destruct skip.
      * destruct (IH results log) as (outcome & added & E & Hlen & Hreq & Hfind & Htot).
        exists outcome, added. rewrite E. split; [reflexivity |].
        split; [cbn [length]; lia |]. split; [apply Hmono_r; exact Hreq |].
        split; [| exact Htot].
        intros findings H. destruct (Hfind findings H) as (new & -> & Hnew).
        exists new. split; [reflexivity | apply Hmono_f; exact Hnew].
      * unfold io_bind, io_try, io_ret.
        assert (Hstep : exists review first,
                  (let '(out, log') :=
                     AIReviewer.reviewSingleFile eng config svc diff log in
                   match out with
                   | Ok a => (Ok a, log')
                   | Throw e => (Ok [AIReviewer.failed_result diff e], log')
                   end) = (Ok review, log ++ first)
                  /\ length first <= 1
                  /\ Forall (request_of eng config (diff :: rest)) first
                  /\ Forall (fun f => res_file f = diff_file diff) review).
        { pose proof (reviewSingleFile_files diff log) as Hfiles.
          destruct (reviewSingleFile_cases diff log)
            as [[E _] | [[E _] | (Hbig & Hbin & out & E & _)]];
            rewrite E in Hfiles |- *; cbn [fst] in Hfiles.
          - do 2 eexists. rewrite app_nil_r. split; [reflexivity |].
            split; [cbn; lia |]. split; [constructor | apply Hfiles; reflexivity].
          - do 2 eexists. rewrite app_nil_r. split; [reflexivity |].
            split; [cbn; lia |]. split; [constructor | apply Hfiles; reflexivity].
          - assert (Hreq : Forall (request_of eng config (diff :: rest))
                             [AIReviewer.generate_request config diff]).
            { constructor; [| constructor]. exists diff.
              split; [left; reflexivity |]. repeat split; assumption. }
            destruct out as [l | e].
            + do 2 eexists. split; [reflexivity |]. split; [cbn; lia |].
              split; [exact Hreq | apply Hfiles; reflexivity].
            + do 2 eexists. split; [reflexivity |]. split; [cbn; lia |].
              split; [exact Hreq | repeat constructor]. }
        destruct Hstep as (review & first & Estep & Hlen1 & Hreq1 & Hfile1).
        destruct (AIReviewer.reviewSingleFile eng config svc diff log) as [out log'].
        assert (Estep' : match out with
                         | Ok a => (Ok a, log')
                         | Throw e => (Ok [AIReviewer.failed_result diff e], log')
                         end = (Ok review, log ++ first)) by exact Estep.
        destruct out as [a | e]; injection Estep' as -> ->;
          destruct (IH (results ++ review) (log ++ first))
            as (outcome & added & E & Hlen & Hreq & Hfind & Htot);
          exists outcome, (first ++ added); rewrite E, app_assoc;
          (split; [reflexivity |]);
          (split; [rewrite length_app; cbn [length]; lia |]);
          (split; [apply Forall_app; split; [exact Hreq1 | apply Hmono_r, Hreq] |]);
          (split; [| exact Htot]);
          intros findings H; destruct (Hfind findings H) as (new & -> & Hnew);
          exists (review ++ new); rewrite app_assoc; (split; [reflexivity |]);
          (apply Forall_app; split; [| apply Hmono_f, Hnew]);
          (eapply Forall_impl; [| exact Hfile1]);
          intros f Hf; exists diff; (split; [left; reflexivity |]);
          (split; [exact Hf | exact Hskip]).
    + exists (Throw e), []. rewrite app_nil_r. split; [reflexivity |].
      split; [cbn; lia |]. split; [constructor |]. split; [discriminate |].
      intros Hv. exfalso.
      destruct (shouldSkipFile_returns diff Hv) as [skip Hs]. congruence.
Qed.

(** What one call of [reviewSingleFile] inside the [try] of [reviewChanges]
    adds to the log. *)
Lemma reviewSingleFile_log (diff : GitDiff) (log : list GenerateRequest) :
  snd (AIReviewer.reviewSingleFile eng config svc diff log)
  = log ++ (if negb (AIReviewer.tooLarge config diff) && negb (diff_isBinary diff)
            then [AIReviewer.generate_request config diff] else []).
Proof.
  destruct (reviewSingleFile_cases diff log)
    as [[E Hbig] | [[E Hbin] | (Hbig & Hbin & outcome & E & _)]];
    rewrite E; cbn [snd].
  - rewrite Hbig. cbn [negb andb]. rewrite app_nil_r. reflexivity.
  - rewrite Hbin, andb_false_r. rewrite app_nil_r. reflexivity.
  - rewrite Hbig, Hbin. reflexivity.
Qed.

(** The log of [reviewChanges]: one request for each eligible diff it
    reaches, in order. *)
Lemma reviewChanges_loop_log (diffs : list GitDiff) (results : list ReviewResult)
    (log : list GenerateRequest) :
  snd (AIReviewer.reviewChanges_loop eng config svc diffs results log)
  = log ++ requests_for eng config (reached eng config diffs).
Proof.
  unfold requests_for.
  revert results log. induction diffs as [| diff rest IH]; intros results log.
  - cbn. rewrite app_nil_r. reflexivity.
  - cbn [AIReviewer.reviewChanges_loop reached]. unfold io_bind at 1, io_lift at 1.
    assert (E : eligible eng config diff
                = match AIReviewer.shouldSkipFile eng config diff with
                  | Ok false => negb (AIReviewer.tooLarge config diff)
                                && negb (diff_isBinary diff)
                  | _ => false
                  end) by reflexivity.
    destruct (AIReviewer.shouldSkipFile eng config diff) as [[|] | e].
    + cbn [filter]. rewrite E. apply IH.
    + cbn [filter]. rewrite E.
      unfold io_bind, io_try, io_ret.
      pose proof (reviewSingleFile_log diff log) as Hlog.
      destruct (AIReviewer.reviewSingleFile eng config svc diff log)
        as [[review | err] log']; cbn [snd] in Hlog; subst log';
        rewrite IH; rewrite <- app_assoc;
        destruct (negb (AIReviewer.tooLarge config diff)
                  && negb (diff_isBinary diff)); reflexivity.
    + cbn. rewrite app_nil_r. reflexivity.
Qed.

(** With valid patterns the loop reaches every diff. *)
Lemma reached_all (diffs : list GitDiff) :
  valid_patterns eng config -> reached eng config diffs = diffs.
Proof.
  intros Hv. induction diffs as [| diff rest IH]; [reflexivity |].
  cbn [reached]. destruct (shouldSkipFile_returns diff Hv) as [skip ->].
  rewrite IH. reflexivity.
Qed.

(** The diffs the loop reaches are the first ones of the list. *)
Lemma reached_prefix (diffs : list GitDiff) :
  exists unreached, diffs = reached eng config diffs ++ unreached.
Proof.
  induction diffs as [| diff rest [unreached IH]]; [exists []; reflexivity |].
  cbn [reached]. destruct (AIReviewer.shouldSkipFile eng config diff).
  - exists unreached. cbn [app]. rewrite <- IH. reflexivity.
  - exists (diff :: rest). reflexivity.
Qed.

(** The log of the loop of the [review] command: one request for each
    eligible diff of the list, in order. *)
Lemma review_loop_log (diffs : list GitDiff) (results : list ReviewResult)
    (log : list GenerateRequest) :
  snd (Cli.review_loop eng config svc diffs results log)
  = log ++ requests_for eng config diffs.
Proof.
  unfold requests_for.
  revert results log. induction diffs as [| diff rest IH]; intros results log.
  - cbn. rewrite app_nil_r. reflexivity.
  - cbn [Cli.review_loop filter].
    destruct (diff_isBinary diff || AIReviewer.tooLarge config diff) eqn:Hpass.
    + assert (E : eligible eng config diff = false).
      { unfold eligible.
        destruct (AIReviewer.shouldSkipFile eng config diff) as [[|] | e];
          try reflexivity.
        apply orb_true_iff in Hpass. destruct Hpass as [-> | ->];
          [apply andb_false_r | reflexivity]. }
      rewrite E. apply IH.
    + unfold io_bind, io_try, io_ret, AIReviewer.reviewChanges.
      pose proof (reviewChanges_loop_log [diff] [] log) as Hlog.
      assert (E : requests_for eng config (reached eng config [diff])
                  = if eligible eng config diff
                    then [AIReviewer.generate_request config diff] else []).
      { unfold requests_for. cbn [reached].
        assert (E : eligible eng config diff
                    = match AIReviewer.shouldSkipFile eng config diff with
                      | Ok false => negb (AIReviewer.tooLarge config diff)
                                    && negb (diff_isBinary diff)
                      | _ => false
                      end) by reflexivity.
        destruct (AIReviewer.shouldSkipFile eng config diff) as [[|] | e];
          cbn [filter map]; rewrite E; try reflexivity.
        destruct (negb (AIReviewer.tooLarge config diff)
                  && negb (diff_isBinary diff)); reflexivity. }
      rewrite E in Hlog.
      destruct (AIReviewer.reviewChanges_loop eng config svc [diff] [] log)
        as [[fileResults | err] log']; cbn [snd] in Hlog; subst log';
        rewrite IH; rewrite <- app_assoc;
        destruct (eligible eng config diff); reflexivity.
Qed.

End ClientMore.

Section ClientTheorems.

Variable eng : Engine.
Variable config : ReviewConfig.
Variable svc : Service.

(** X14. [reviewChanges] only adds to the log of requests, and what it adds
    is exactly one request for each diff it reaches that no pattern excludes
    and that is neither oversized nor binary, in the order of the list, and
    nothing for any other diff.  It reaches the diffs before the first one on
    which [shouldSkipFile] throws: all of them when every pattern is a valid
    regular expression. *)
Theorem reviewChanges_requests (diffs : list GitDiff) (log : list GenerateRequest) :
  snd (AIReviewer.reviewChanges eng config svc diffs log)
  = log ++ map (AIReviewer.generate_request config)
             (filter (eligible eng config) (reached eng config diffs))
  /\ (exists unreached, diffs = reached eng config diffs ++ unreached)
  /\ (valid_patterns eng config -> reached eng config diffs = diffs).
Proof.
  split; [| split].
  - exact (reviewChanges_loop_log eng config svc diffs [] log).
  - apply reached_prefix.
  - apply reached_all.
Qed.

(** X15. Every finding [reviewChanges] returns names the file of a diff of
    the list that no pattern excludes. *)
Theorem reviewChanges_findings (diffs : list GitDiff) (log : list GenerateRequest)
    (findings : list ReviewResult) :
  fst (AIReviewer.reviewChanges eng config svc diffs log) = Ok findings ->
  Forall (finding_of eng config diffs) findings.
Proof.
  unfold AIReviewer.reviewChanges.
  destruct (reviewChanges_loop_spec eng config svc diffs [] log)
    as (outcome & added & E & _ & _ & Hfind & _).
  rewrite E. cbn [fst]. intros H.
  destruct (Hfind findings H) as (new & -> & Hnew). exact Hnew.
Qed.

(** X16. With valid patterns [reviewChanges] returns a finding list whatever
    the service does: the failure of one file does not end the batch. *)
Theorem reviewChanges_returns (diffs : list GitDiff) (log : list GenerateRequest) :
  valid_patterns eng config ->
  exists findings, fst (AIReviewer.reviewChanges eng config svc diffs log) = Ok findings.
Proof.
  unfold AIReviewer.reviewChanges. intros Hv.
  destruct (reviewChanges_loop_spec eng config svc diffs [] log)
    as (outcome & added & E & _ & _ & _ & Htot).
  rewrite E. exact (Htot Hv).
Qed.

(** X17. When the request of a file fails, [reviewChanges] reports the file
    with one finding of severity error: its message is that of the failure,
    or names a timeout when axios aborted the connection. *)
Theorem failed_request_is_reported (diff : GitDiff) (log : list GenerateRequest)
    (err : Exn) :
  AIReviewer.shouldSkipFile eng config diff = Ok false ->
  AIReviewer.tooLarge config diff = false ->
  diff_isBinary diff = false ->
  svc log (AIReviewer.generate_request config diff) = Throw err ->
  AIReviewer.reviewChanges eng config svc [diff] log
  = (Ok [ {| res_file := diff_file diff;
             res_severity := SevError;
             res_line := VUndefined;
             res_message :=
               VStr (lit "Failed to analyze file: "
                     ++ match exn_code err with
                        | Some code =>
                            if str_eqb code (lit "ECONNABORTED")
                            then lit "Timeout when calling AI model"
                            else exn_message err
                        | None => exn_message err
                        end);
             res_suggestion := VUndefined;
             res_category := VUndefined |} ],
     log ++ [AIReviewer.generate_request config diff]).
Proof.
  intros Hskip Hbig Hbin Hsvc.
  unfold AIReviewer.reviewChanges. cbn [AIReviewer.reviewChanges_loop].
  unfold io_bind, io_lift, io_try, io_ret. rewrite Hskip.
  unfold AIReviewer.reviewSingleFile. rewrite Hbig, Hbin.
  unfold io_try, io_bind, axios_post, io_throw. rewrite Hsvc.
  destruct (exn_code err) as [code |]; [| reflexivity].
  destruct (str_eqb code (lit "ECONNABORTED")); reflexivity.
Qed.

Lemma review_loop_spec (diffs : list GitDiff) (results : list ReviewResult)
    (log : list GenerateRequest) :
  exists new added,
    Cli.review_loop eng config svc diffs results log
    = (Ok (results ++ new), log ++ added)
    /\ length added <= length diffs
    /\ Forall (request_of eng config diffs) added
    /\ Forall (reviewed_finding config diffs) new.
Proof.
  revert results log. induction diffs as [| diff rest IH]; intros results log.
  - exists [], []. cbn [Cli.review_loop io_ret]. rewrite !app_nil_r.
    repeat split; constructor.
  - assert (Hmono_r : forall added, Forall (request_of eng config rest) added ->
                        Forall (request_of eng config (diff :: rest)) added).
    { intros added. apply Forall_impl. intros r (d & Hd & H).
      exists d. split; [right; exact Hd | exact H]. }
    assert (Hmono_f : forall new, Forall (reviewed_finding config rest) new ->
                        Forall (reviewed_finding config (diff :: rest)) new).
    { intros new. apply Forall_impl. intros r (d & Hd & H).
      exists d. split; [right; exact Hd | exact H]. }
    cbn [Cli.review_loop].
    destruct (diff_isBinary diff || AIReviewer.tooLarge config diff) eqn:Hskip.
    + destruct (IH results log) as (new & added & E & Hlen & Hreq & Hnew).
      exists new, added. rewrite E. split; [reflexivity |].
      split; [cbn [length]; lia |].
      split; [apply Hmono_r, Hreq | apply Hmono_f, Hnew].
    + apply orb_false_iff in Hskip. destruct Hskip as [Hbin Hbig].
      unfold io_bind, io_try, io_ret, AIReviewer.reviewChanges.
      destruct (reviewChanges_loop_spec eng config svc [diff] [] log)
        as (outcome & first & E & Hlen1 & Hreq1 & Hfind1 & _).
      rewrite E.
      assert (Hone : exists review,
                (match outcome with
                 | Ok a => (Ok a, log ++ first)
                 | Throw _ => (Ok [], log ++ first)
                 end) = (Ok review, log ++ first)
                /\ Forall (reviewed_finding config (diff :: rest)) review).
      { destruct outcome as [a | e].
        - exists a. split; [reflexivity |].
          destruct (Hfind1 a eq_refl) as (new & -> & Hnew). cbn [app].
          eapply Forall_impl; [| exact Hnew].
          intros f (d & [<- | []] & Hf & _).
          exists diff. split; [left; reflexivity |]. repeat split; assumption.
        - exists []. split; [reflexivity | constructor]. }
      destruct Hone as (review & Eone & Hrev).
      destruct outcome as [a | e]; injection Eone as ->;
        destruct (IH (results ++ review) (log ++ first))
          as (new & added & E' & Hlen & Hreq & Hnew);
        exists (review ++ new), (first ++ added); rewrite E', !app_assoc;
        (split; [reflexivity |]);
        (split; [rewrite length_app; cbn [length] in *; lia |]);
        (split; [apply Forall_app; split; [| apply Hmono_r, Hreq] |
                 apply Forall_app; split; [exact Hrev | apply Hmono_f, Hnew]]);
        (eapply Forall_impl; [| exact Hreq1]);
        intros r (d & [<- | []] & H); exists diff;
        (split; [left; reflexivity | exact H]).
Qed.

(** X18. The loop of the [review] command never throws.  It keeps the findings
    it starts with and adds findings that all name a diff of the list that is
    neither binary nor oversized.  The requests it adds to the log are exactly
    one for each diff of the list that no pattern excludes and that is neither
    oversized nor binary, in the order of the list, and nothing for any other
    diff. *)
Theorem review_loop_outcome (diffs : list GitDiff) (results : list ReviewResult)
    (log : list GenerateRequest) :
  exists new,
    Cli.review_loop eng config svc diffs results log
    = (Ok (results ++ new),
       log ++ map (AIReviewer.generate_request config)
                (filter (eligible eng config) diffs))
    /\ Forall (reviewed_finding config diffs) new.
Proof.
  destruct (review_loop_spec diffs results log) as (new & added & E & _ & _ & Hnew).
  pose proof (review_loop_log eng config svc diffs results log) as Hlog.
  rewrite E in Hlog. cbn [snd] in Hlog. apply app_inv_head in Hlog.
  exists new. split; [| exact Hnew].
  rewrite E, Hlog. reflexivity.
Qed.

(** X19. When the first exclude pattern is not a valid regular expression,
    the loop of the [review] command issues no request and adds no finding:
    every file fails in [shouldSkipFile] and the failure is swallowed. *)
Theorem invalid_pattern_silences_review (pattern : js_string)
    (patterns : list js_string) (err : Exn) (diffs : list GitDiff)
    (results : list ReviewResult) (log : list GenerateRequest) :
  excludePatterns config = pattern :: patterns ->
  (forall path, regexp_test eng pattern path = Throw err) ->
  Cli.review_loop eng config svc diffs results log = (Ok results, log).
Proof.
  intros Hex Hbad. revert results log.
  induction diffs as [| diff rest IH]; intros results log; [reflexivity |].
  cbn [Cli.review_loop].
  destruct (diff_isBinary diff || AIReviewer.tooLarge config diff); [apply IH |].
  unfold io_bind, io_try, io_ret, AIReviewer.reviewChanges.
  cbn [AIReviewer.reviewChanges_loop]. unfold io_bind, io_lift.
  unfold AIReviewer.shouldSkipFile. rewrite Hex. cbn [someM]. rewrite Hbad.
  cbn [bindE]. rewrite app_nil_r. apply IH.
Qed.

End ClientTheorems.

Lemma fixture_patterns_valid : valid_patterns Fixtures.engine Cli.DEFAULT_CONFIG.
Proof. intros pattern path _. eexists. reflexivity. Qed.

Lemma shouldSkipFile_decision_witness :
  AIReviewer.shouldSkipFile Fixtures.engine Cli.DEFAULT_CONFIG MoreClientInput.vendored
  = Ok true.
Proof.
  rewrite (shouldSkipFile_decision Fixtures.engine Cli.DEFAULT_CONFIG
             MoreClientInput.vendored fixture_patterns_valid).
  vm_compute. reflexivity.
Defined.

Lemma reviewChanges_findings_witness :
  Forall (finding_of Fixtures.engine Cli.DEFAULT_CONFIG [ClientInput.small])
    [Fixtures.finding (lit "src/auth.js") SevError (lit "x")].
Proof.
  apply (reviewChanges_findings Fixtures.engine Cli.DEFAULT_CONFIG
           MoreClientInput.one_issue [ClientInput.small] []).
  vm_compute. reflexivity.
Defined.

Lemma reviewChanges_returns_witness :
  exists findings,
    fst (AIReviewer.reviewChanges Fixtures.engine Cli.DEFAULT_CONFIG
           MoreClientInput.timing_out [ClientInput.small; ClientInput.big] [])
    = Ok findings.
Proof.
  apply (reviewChanges_returns Fixtures.engine Cli.DEFAULT_CONFIG
           MoreClientInput.timing_out [ClientInput.small; ClientInput.big] []).
  exact fixture_patterns_valid.
Defined.

Lemma failed_request_is_reported_witness :
  AIReviewer.reviewChanges Fixtures.engine Cli.DEFAULT_CONFIG
    MoreClientInput.timing_out [ClientInput.small] []
  = (Ok [Fixtures.finding (lit "src/auth.js") SevError
           (lit "Failed to analyze file: Timeout when calling AI model")],
     [] ++ [AIReviewer.generate_request Cli.DEFAULT_CONFIG ClientInput.small]).
Proof.
  apply (failed_request_is_reported Fixtures.engine Cli.DEFAULT_CONFIG
           MoreClientInput.timing_out ClientInput.small []
           {| exn_class := AxiosError;
              exn_code := Some (lit "ECONNABORTED");
              exn_message := lit "timeout of 120000ms exceeded" |});
    vm_compute; reflexivity.
Defined.

Lemma invalid_pattern_silences_review_witness :
  Cli.review_loop MoreClientInput.strict_engine MoreClientInput.mistyped
    MoreClientInput.one_issue [ClientInput.small; ClientInput.big] [] []
  = (Ok [], []).
Proof.
  apply (invalid_pattern_silences_review MoreClientInput.strict_engine
           MoreClientInput.mistyped MoreClientInput.one_issue (lit "(") []
           {| exn_class := SyntaxError;
              exn_code := None;
              exn_message :=
                lit "Invalid regular expression: /(/: Unterminated group" |}).
  - reflexivity.
  - intros path. reflexivity.
Defined.

(* ------------------------------------------------------------------------- *)
(** * Further properties: the report *)
(* ------------------------------------------------------------------------- *)

Section ReportMore.

Variable eng : Engine.

Lemma flat_map_eq_in {A B} (f g : A -> list B) (l : list A) :
  (forall a, In a l -> f a = g a) -> flat_map f l = flat_map g l.
Proof.
  induction l as [| x l IH]; intros H; [reflexivity |].
  cbn [flat_map]. rewrite (H x (or_introl eq_refl)), IH; [reflexivity |].
  intros a Ha. apply H. right. exact Ha.
Qed.

Lemma flat_map_snoc_key (g : js_string -> list ReviewResult) (k : js_string)
    (r : ReviewResult) (ks : list js_string) :
  NoDup ks -> In k ks ->
  Permutation (flat_map (fun f => g f ++ (if str_eqb k f then [r] else [])) ks)
              (flat_map g ks ++ [r]).
Proof.
  induction ks as [| x ks IH]; intros Hnd Hin; [destruct Hin |].
  inversion Hnd as [| ? ? Hx Hnd']; subst. cbn [flat_map].
  destruct (str_eqb k x) eqn:E.
  - apply str_eqb_eq in E. subst x.
    assert (Hrest : flat_map (fun f => g f ++ (if str_eqb k f then [r] else [])) ks
                    = flat_map g ks).
    { apply flat_map_eq_in. intros a Ha.
      destruct (str_eqb k a) eqn:Ea; [| apply app_nil_r].
      apply str_eqb_eq in Ea. subst a. contradiction. }
    rewrite Hrest, <- !app_assoc. apply Permutation_app_head.
    apply Permutation_app_comm.
  - destruct Hin as [-> | Hin]; [rewrite str_eqb_refl in E; discriminate |].
    rewrite app_nil_r, <- app_assoc. apply Permutation_app_head.
    apply IH; assumption.
Qed.

(** The groups hold each finding once. *)
Lemma groups_partition (results : list ReviewResult) :
  Permutation (flat_map snd (groups results)) results.
Proof.
  unfold groups. rewrite flat_map_concat_map, map_map. cbn [snd].
  rewrite <- flat_map_concat_map.
  induction results as [| r l IH] using rev_ind; [constructor |].
  rewrite map_app. cbn [map]. rewrite first_seen_snoc.
  destruct (mem (res_file r) (first_seen (map res_file l))) eqn:E.
  - rewrite (flat_map_ext (fun f => of_file f (l ++ [r]))
               (fun f => of_file f l
                         ++ (if str_eqb (res_file r) f then [r] else [])))
      by (intros f; apply of_file_snoc).
    rewrite flat_map_snoc_key
      by (apply first_seen_NoDup || (apply mem_In; exact E)).
    apply Permutation_app_tail. exact IH.
  - apply mem_not_In in E. rewrite flat_map_app. cbn [flat_map].
    rewrite app_nil_r, of_file_snoc, str_eqb_refl.
    rewrite (of_file_absent (res_file r) l)
      by (intros H; apply E; apply first_seen_In; exact H).
    cbn [app]. apply Permutation_app_tail.
    rewrite (flat_map_eq_in (fun f => of_file f (l ++ [r])) (fun f => of_file f l));
      [exact IH |].
    intros f Hf. rewrite of_file_snoc.
    destruct (str_eqb (res_file r) f) eqn:Ef; [| apply app_nil_r].
    apply str_eqb_eq in Ef. subst f. contradiction.
Qed.

Lemma insert_index_perm {A} (e : N * (js_string * A)) (l : list (N * (js_string * A))) :
  Permutation (JsObject.insert_index A e l) (e :: l).
Proof.
  induction l as [| x l IH]; [apply Permutation_refl |].
  cbn [JsObject.insert_index]. destruct (N.leb (fst e) (fst x)); [apply Permutation_refl |].
  rewrite IH. apply perm_swap.
Qed.

(** [Object.entries] lists every property once. *)
Lemma entries_perm {A} (o : JsObject.t A) : Permutation (JsObject.entries o) o.
Proof.
  unfold JsObject.entries.
  set (indexed := flat_map _ o).
  assert (Hs : Permutation (fold_right (JsObject.insert_index A) [] indexed) indexed).
  { induction indexed as [| e l IH]; [constructor |].
    cbn [fold_right]. rewrite insert_index_perm. constructor. exact IH. }
  rewrite Hs. subst indexed. clear Hs.
  induction o as [| p o IH]; [constructor |].
  cbn [flat_map filter]. destruct (JsObject.array_index (fst p)).
  - cbn [app map snd]. constructor. exact IH.
  - cbn [app]. rewrite <- Permutation_middle. constructor. exact IH.
Qed.

Lemma sort_insert_perm {A} (cmp : A -> A -> Z) (x : A) (l : list A) :
  Permutation (Cli.sort_insert cmp x l) (x :: l).
Proof.
  induction l as [| y l IH]; [apply Permutation_refl |].
  cbn [Cli.sort_insert]. destruct (Z.leb (cmp x y) 0); [apply Permutation_refl |].
  rewrite IH. apply perm_swap.
Qed.

Lemma js_sort_perm {A} (cmp : A -> A -> Z) (l : list A) :
  Permutation (Cli.js_sort cmp l) l.
Proof.
  induction l as [| x l IH]; [constructor |].
  unfold Cli.js_sort. cbn [fold_right]. rewrite sort_insert_perm.
  constructor. exact IH.
Qed.

Lemma printed_app (a b : list Cli.Line) : printed (a ++ b) = printed a ++ printed b.
Proof. apply flat_map_app. Qed.

Lemma printed_finding_lines (l : list ReviewResult) :
  printed (finding_lines l) = l.
Proof.
  induction l as [| r l IH]; [reflexivity |].
  cbn [finding_lines flat_map]. fold (finding_lines l).
  destruct (truthy (res_suggestion r)); cbn [app]; unfold printed in *;
    cbn [flat_map app]; rewrite IH; reflexivity.
Qed.

Lemma printed_display_file (entry : js_string * list ReviewResult) :
  printed (Cli.display_file entry) = Cli.js_sort Cli.compare_results (snd entry).
Proof.
  unfold Cli.display_file.
  fold (finding_lines (Cli.js_sort Cli.compare_results (snd entry))).
  change (printed (Cli.FileHeading (fst entry) :: ?l)) with (printed l).
  apply printed_finding_lines.
Qed.

Lemma printed_entries (entries : list (js_string * list ReviewResult)) :
  Permutation (printed (flat_map Cli.display_file entries)) (flat_map snd entries).
Proof.
  induction entries as [| e entries IH]; [constructor |].
  cbn [flat_map]. rewrite printed_app, printed_display_file.
  apply Permutation_app; [apply js_sort_perm | exact IH].
Qed.

(** A finding of a file whose name objects inherit makes [groupByFile]
    throw, and nothing else does. *)
Lemma groupByFile_Ok_plain (results : list ReviewResult)
    (grouped : JsObject.t (list ReviewResult)) :
  Cli.groupByFile eng results = Ok grouped ->
  forall r, In r results -> JsObject.inherited (res_file r) = false.
Proof.
  unfold Cli.groupByFile. revert grouped.
  induction results as [| r l IH] using rev_ind; intros grouped H x Hx;
    [destruct Hx |].
  rewrite reduceM_snoc in H.
  destruct (Cli.reduceM (Cli.group_step eng) l []) as [g |] eqn:Eg;
    [| discriminate].
  cbn [bindE] in H. pose proof (IH g eq_refl) as Hl.
  apply in_app_or in Hx. destruct Hx as [Hx | [<- | []]]; [exact (Hl x Hx) |].
  assert (Eg' : g = groups l).
  { pose proof (groupByFile_groups eng l Hl) as Hgr.
    unfold Cli.groupByFile in Hgr. congruence. }
  subst g. unfold Cli.group_step, groups in H. rewrite get_keyed in H.
  destruct (mem (res_file r) (first_seen (map res_file l))) eqn:Em.
  - apply mem_In, first_seen_In, in_map_iff in Em.
    destruct Em as (r' & <- & Hr'). exact (Hl r' Hr').
  - destruct (JsObject.inherited (res_file r)); [discriminate | reflexivity].
Qed.


End ReportMore.

Section ReportTheorems.

Variable eng : Engine.

(** X20. A report that [displayResults] completes prints every finding of the
    list exactly once, and sets the exit code to 1 exactly when a finding of
    severity error is among them. *)
Theorem report_prints_each_finding_once (results : list ReviewResult) (quiet : bool)
    (lines : list Cli.Line) (code : option Z) :
  Cli.displayResults eng results quiet = Ok (lines, code) ->
  Permutation (printed lines) results
  /\ (code = Some 1%Z <-> exists r, In r results /\ res_severity r = SevError)
  /\ (code = Some 1%Z \/ code = None).
Proof.
  unfold Cli.displayResults. destruct results as [| r0 rs].
  { intros H. injection H as <- <-. split; [constructor |].
    split; [| right; reflexivity].
    split; [discriminate | intros (r & [] & _)]. }
  set (all := r0 :: rs).
  destruct (Cli.groupByFile eng all) as [g |] eqn:Eg; [| discriminate].
  cbn [bindE].
  set (has_error := existsb (fun r => match res_severity r with
                                      | SevError => true
                                      | _ => false
                                      end) all).
  assert (Herr : has_error = true
                 <-> exists r, In r all /\ res_severity r = SevError).
  { unfold has_error. rewrite existsb_exists. split.
    - intros (r & Hr & Hs). exists r. split; [exact Hr |].
      destruct (res_severity r); congruence.
    - intros (r & Hr & Hs). exists r. rewrite Hs. split; [exact Hr | reflexivity]. }
  clearbody has_error.
  intros H. injection H as <- <-.
  assert (Eg' : g = groups all).
  { pose proof (groupByFile_groups eng all (groupByFile_Ok_plain eng all g Eg)).
    congruence. }
  split; [| split].
  - rewrite !printed_app.
    replace (printed (if quiet then [] else [Cli.Header (length (JsObject.entries g))]))
      with (@nil ReviewResult) by (destruct quiet; reflexivity).
    cbn [app]. change (printed [Cli.SummaryLine (Cli.getSummary all)]) with (@nil ReviewResult).
    rewrite app_nil_r, printed_entries.
    rewrite (Permutation_flat_map snd (entries_perm g)). subst g.
    apply groups_partition.
  - rewrite <- Herr. destruct has_error; split; congruence.
  - destruct has_error; [left | right]; reflexivity.
Qed.


End ReportTheorems.

Lemma report_prints_each_finding_once_witness :
  exists lines,
    Cli.displayResults Fixtures.engine ReportInput.numbered true = Ok (lines, Some 1%Z)
    /\ Permutation (printed lines) ReportInput.numbered.
Proof.
  eexists. split; [vm_compute; reflexivity |].
  refine (proj1 (report_prints_each_finding_once Fixtures.engine
                   ReportInput.numbered true _ (Some 1%Z) _)).
  vm_compute. reflexivity.
Defined.

(* ------------------------------------------------------------------------- *)
(** * Further properties: the health probe *)
(* ------------------------------------------------------------------------- *)

Section HealthMore.

Variable eng : Engine.
Variable config : ReviewConfig.
Variable tags : TagsService.

(** [some] answers true at the first element that satisfies the test when
    the test throws on none of the elements before it. *)
Lemma someM_reaches {A} (f : A -> Exc bool) (before after : list A) (a : A) :
  Forall (fun x => exists b, f x = Ok b) before ->
  f a = Ok true ->
  someM f (before ++ a :: after) = Ok true.
Proof.
  intros Hbefore Ha. induction Hbefore as [| x before [b Hx] _ IH].
  - cbn [app someM]. rewrite Ha. reflexivity.
  - cbn [app someM]. rewrite Hx. destruct b; [reflexivity | exact IH].
Qed.

(** X22. The probe answers healthy when the payload has, under [models], an
    array with an entry whose name is the configured model identifier itself,
    and every entry before that one has a string as its name, whatever other
    members the entries have and whatever follows the entry. *)
Theorem configured_model_is_healthy (data item : value) (before after : list value) :
  tags_outcome config tags = Ok data ->
  prop_of data (lit "models") = VArr (before ++ item :: after) ->
  Forall (fun m => exists n, prop_of m (lit "name") = VStr n) before ->
  prop_of item (lit "name") = VStr (modelName config) ->
  AIReviewer.checkHealth eng config tags = Ok {| isHealthy := true; error := None |}.
Proof.
  intros Hout Hmodels Hbefore Hitem.
  unfold tags_outcome in Hout.
  unfold AIReviewer.checkHealth, AIReviewer.checkHealth_body.
  rewrite Hout. cbn [bindE].
  rewrite (get_prop_defined eng data (lit "models"))
    by (rewrite Hmodels; discriminate).
  rewrite Hmodels. cbn [bindE truthy].
  rewrite someM_reaches; [reflexivity | |].
  - eapply Forall_impl; [| exact Hbefore]. intros m [n Hn].
    rewrite (get_prop_defined eng m (lit "name")) by (rewrite Hn; discriminate).
    rewrite Hn. eexists. reflexivity.
  - rewrite (get_prop_defined eng item (lit "name"))
      by (rewrite Hitem; discriminate).
    rewrite Hitem. cbn [bindE AIReviewer.name_includes]. f_equal.
    unfold AIReviewer.base_name.
    destruct (split_hd_prefix (modelName config) (ch ":")) as [rest E].
    rewrite E at 1. apply includes_prefix.
Qed.

(** X23. A payload without a model list (no [models] property, or an empty or
    null one) is answered as a service on which the model is missing, with an
    empty list of available models. *)
Theorem listing_without_models (data : value) :
  tags_outcome config tags = Ok data ->
  data <> VNull -> data <> VUndefined ->
  truthy (prop_of data (lit "models")) = false ->
  AIReviewer.checkHealth eng config tags
  = Ok {| isHealthy := false;
          error := Some (lit "Model " ++ modelName config
                         ++ lit " not found. Available models: ") |}.
Proof.
  unfold tags_outcome, AIReviewer.checkHealth, AIReviewer.checkHealth_body.
  intros -> H1 H2 Hm. cbn [bindE].
  rewrite (get_prop_prop_of eng data (lit "models") H1 H2). cbn [bindE].
  rewrite Hm. reflexivity.
Qed.

(** X24. The probe answers healthy only when the request succeeded and the
    payload has a list of models that is not empty. *)
Theorem healthy_needs_a_listing (health : HealthCheck) :
  AIReviewer.checkHealth eng config tags = Ok health ->
  isHealthy health = true ->
  exists data item items,
    tags_outcome config tags = Ok data
    /\ prop_of data (lit "models") = VArr (item :: items).
Proof.
  unfold tags_outcome, AIReviewer.checkHealth, AIReviewer.checkHealth_body, try_catch.
  destruct (tags _ _) as [data | e]; cbn [bindE];
    [| intros H; injection H as <-; discriminate].
  destruct (get_prop eng data (lit "models")) as [m |] eqn:Em; cbn [bindE];
    [| intros H; injection H as <-; discriminate].
  assert (Hm : m = prop_of data (lit "models")).
  { destruct data; cbn [get_prop] in Em; try discriminate;
      injection Em as <-; reflexivity. }
  destruct (truthy m) eqn:Ht.
  - destruct m as [| | b | d | s | items | ms];
      try (intros H; injection H as <-; discriminate).
    destruct items as [| item items].
    + cbn. intros H. injection H as <-. discriminate.
    + intros _ _. exists data, item, items. split; [reflexivity | congruence].
  - cbn. intros H. injection H as <-. discriminate.
Qed.

End HealthMore.

Lemma configured_model_is_healthy_witness :
  AIReviewer.checkHealth Fixtures.engine Cli.DEFAULT_CONFIG
    (fun _ _ => Ok HealthInput.nameless_last)
  = Ok {| isHealthy := true; error := None |}.
Proof.
  apply (configured_model_is_healthy Fixtures.engine Cli.DEFAULT_CONFIG
           (fun _ _ => Ok HealthInput.nameless_last) HealthInput.nameless_last
           (HealthInput.entry (lit "codellama:7b-instruct") 3825910662)
           [ HealthInput.entry (lit "llama3:8b") 4661224676 ]
           [ VObj [ (lit "name", VNull) ] ]).
  - reflexivity.
  - reflexivity.
  - constructor; [eexists; reflexivity | constructor].
  - reflexivity.
Defined.

(** An entry without a name before the configured model: [includes] is
    called on [null], and the probe answers that the server is unavailable. *)
Example nameless_entry_first :
  exists cause,
    AIReviewer.checkHealth Fixtures.engine Cli.DEFAULT_CONFIG
      HealthInput.nameless_first
    = Ok {| isHealthy := false;
            error := Some (lit "Ollama server unavailable: " ++ cause) |}.
Proof. eexists. vm_compute. reflexivity. Qed.

Lemma listing_without_models_witness :
  AIReviewer.checkHealth Fixtures.engine Cli.DEFAULT_CONFIG (fun _ _ => Ok (VObj []))
  = Ok {| isHealthy := false;
          error := Some (lit "Model codellama:7b-instruct not found. Available models: ") |}.
Proof.
  apply (listing_without_models Fixtures.engine Cli.DEFAULT_CONFIG
           (fun _ _ => Ok (VObj [])) (VObj [])); try reflexivity; discriminate.
Defined.

Lemma healthy_needs_a_listing_witness :
  exists data item items,
    tags_outcome Cli.DEFAULT_CONFIG (HealthInput.listing [lit "codellama:7b-instruct"])
    = Ok data
    /\ prop_of data (lit "models") = VArr (item :: items).
Proof.
  apply (healthy_needs_a_listing Fixtures.engine Cli.DEFAULT_CONFIG
           (HealthInput.listing [lit "codellama:7b-instruct"])
           {| isHealthy := true; error := None |}).
  - vm_compute. reflexivity.
  - reflexivity.
Defined.

(* ------------------------------------------------------------------------- *)
(** * Further properties: configuration and prompt *)
(* ------------------------------------------------------------------------- *)

(** X25. [loadConfig] returns the default configuration when no file is found;
    a configuration it returns has a model URL and a model name that are not
    empty; and whatever fails, it throws a plain error whose message starts
    with [Configuration loading error: ]. *)
Theorem loadConfig_outcomes (found : Exc (option CliConfig.FileConfig)) :
  (found = Ok None -> CliConfig.loadConfig found = Ok Cli.DEFAULT_CONFIG)
  /\ (forall config,
        CliConfig.loadConfig found = Ok config ->
        modelUrl config <> [] /\ modelName config <> []
        /\ exists result, found = Ok result /\ config = CliConfig.merge result)
  /\ (forall e,
        CliConfig.loadConfig found = Throw e ->
        exn_class e = PlainError
        /\ startsWith (exn_message e) (lit "Configuration loading error: ") = true).
Proof.
  unfold CliConfig.loadConfig, try_catch. split; [| split].
  - intros ->. reflexivity.
  - intros config. destruct found as [result | e]; cbn [bindE]; [| discriminate].
    destruct (modelUrl (CliConfig.merge result)) as [| c u] eqn:Eu; [discriminate |].
    destruct (modelName (CliConfig.merge result)) as [| d n] eqn:En; [discriminate |].
    intros H. injection H as <-. rewrite Eu, En.
    split; [discriminate |]. split; [discriminate | eauto].
  - intros e. destruct found as [result | e0]; cbn [bindE].
    + destruct (modelUrl (CliConfig.merge result)) as [| c u].
      * intros H. injection H as <-. split; reflexivity.
      * destruct (modelName (CliConfig.merge result)) as [| d n]; [| discriminate].
        intros H. injection H as <-. split; reflexivity.
    + intros H. injection H as <-. split; [reflexivity |].
      exact (startsWith_app (lit "Configuration loading error: ") (exn_message e0)).
Qed.

Lemma loadConfig_outcomes_witness :
  CliConfig.loadConfig (Ok None) = Ok Cli.DEFAULT_CONFIG
  /\ startsWith
       (lit "Configuration loading error: Invalid configuration: missing modelUrl or modelName")
       (lit "Configuration loading error: ") = true.
Proof.
  split.
  - apply (proj1 (loadConfig_outcomes (Ok None))). reflexivity.
  - apply (proj2 (proj2 (loadConfig_outcomes (Ok (Some ConfigInput.unnamed))))
             (new_Error
                (lit "Configuration loading error: Invalid configuration: missing modelUrl or modelName"))).
    vm_compute. reflexivity.
Defined.

(** X26. The prompt takes at most 10000 code units of the diff body: its
    length is at most that of the review instructions and of the file
    information plus 10450, however long the diff is. *)
Theorem prompt_is_bounded (config : ReviewConfig) (diff : GitDiff) :
  (Z.of_nat (length (AIReviewer.buildPrompt config diff))
   <= Z.of_nat (length (reviewPrompt config))
      + Z.of_nat (length (AIReviewer.fileInfo diff)) + 10450)%Z.
Proof.
  unfold AIReviewer.buildPrompt. rewrite !length_app.
  pose proof (firstn_le_length AIReviewer.prompt_limit (diff_changes diff)) as Hcut.
  assert (Hlen : length (slice (diff_changes diff) 0 AIReviewer.prompt_limit)
                 <= AIReviewer.prompt_limit).
  { unfold slice. cbn [skipn]. apply firstn_le_length. }
  assert (Hlimit : Z.of_nat AIReviewer.prompt_limit = 10000%Z) by reflexivity.
  assert (Hmark : length (if Nat.ltb AIReviewer.prompt_limit (length (diff_changes diff))
                          then lit "
... (file truncated)" else []) <= 21).
  { destruct (Nat.ltb _ _); cbn; lia. }
  match goal with
  | |- context [length (dq ?t)] =>
      assert (Htail : length (dq t) = 382) by (vm_compute; reflexivity);
      rewrite Htail
  end.
  repeat match goal with
         | |- context [length (lit ?t)] =>
             let n := eval vm_compute in (length (lit t)) in
             change (length (lit t)) with n
         end.
  lia.
Qed.
